(** * Fuel logistics: the CP-SAT scheduling model of [solver.py] and the
      day builder of [main.py], embedded and verified.

    The solver module builds a constraint model (integer variables with
    domains, linear constraints, half-reified constraints, one objective)
    and hands it to CP-SAT.  The embedding keeps that shape: [build_model]
    returns the list of model items in program order, one item per
    [model.new_*_var] / [model.add] call, and an assignment of the
    variables is feasible when it satisfies every item. *)

From Stdlib Require Import String ZArith List Bool Lia FinFun Permutation.
From Equations Require Import Equations.
Import ListNotations.
Open Scope Z_scope.

(* ================================================================== *)
(** ** Python helpers: [range], [sum], slices, [dict.get] *)

(** [range(lo, hi)] *)
Definition range (lo hi : Z) : list Z :=
  map (fun k => lo + Z.of_nat k) (seq 0 (Z.to_nat (hi - lo))).

(** [sum(xs)] on integers *)
Definition zsum (l : list Z) : Z := fold_right Z.add 0 l.

(** [xs[start:stop]] with Python's clamping and negative-index rule. *)
Definition slice_index (len x : Z) : Z :=
  if x <? 0 then Z.max (x + len) 0 else Z.min x len.

Definition py_slice {A} (l : list A) (start stop : Z) : list A :=
  let len := Z.of_nat (length l) in
  let a := slice_index len start in
  let b := slice_index len stop in
  firstn (Z.to_nat (b - a)) (skipn (Z.to_nat a) l).

(** [enumerate(xs)] *)
Definition enumerate {A} (l : list A) : list (Z * A) :=
  combine (range 0 (Z.of_nat (length l))) l.

Fixpoint assoc (key : string) (kvs : list (string * Z)) : option Z :=
  match kvs with
  | [] => None
  | (k, v) :: rest => if String.eqb k key then Some v else assoc key rest
  end.

(* ================================================================== *)
(** ** Exceptions

    A computation either returns or raises; the exceptions are the ones
    the two modules can raise on well-typed input. *)

Inductive error : Type :=
| ZeroDivisionError   (* [//] by a zero [slot_minutes] *)
| IndexError          (* a subscript outside its list *)
| ValueError          (* [end_date] before [start_date] *)
| OverflowError.      (* a date past [date.max] *)

Inductive result (A : Type) : Type :=
| Ok (x : A)
| Raise (e : error).

Arguments Ok {A} x.
Arguments Raise {A} e.

Definition bind {A B} (r : result A) (k : A -> result B) : result B :=
  match r with
  | Ok x => k x
  | Raise e => Raise e
  end.

Notation "x <- c1 ;; c2" := (bind c1 (fun x => c2))
  (at level 61, c1 at next level, right associativity).

Fixpoint mapM {A B} (f : A -> result B) (l : list A) : result (list B) :=
  match l with
  | [] => Ok []
  | x :: rest => y <- f x ;; ys <- mapM f rest ;; Ok (y :: ys)
  end.

(* ================================================================== *)
(** ** Dates

    A calendar date (a [datetime.date], or the ISO string "YYYY-MM-DD" that
    denotes it) is represented by its proleptic Gregorian ordinal,
    [date.toordinal()]: day 1 is 0001-01-01 and [MAXORDINAL] is
    9999-12-31.  Parsing and [isoformat] are the identity on this
    representation. *)

Definition date := Z.

Definition MAXORDINAL : Z := 3652059.

Definition valid_date (o : date) : Prop := 1 <= o <= MAXORDINAL.

(** [date.weekday()]: Monday = 0 ... Sunday = 6. *)
Definition weekday (o : date) : Z := (o + 6) mod 7.

(** [_days_before_year(year)] *)
Definition days_before_year (year : Z) : Z :=
  let y := year - 1 in
  y * 365 + y / 4 - y / 100 + y / 400.

Definition DI400Y : Z := 146097.
Definition DI100Y : Z := 36524.
Definition DI4Y : Z := 1461.

(** The year component of [_ord2ymd(n)]. *)
Definition year_of (o : date) : Z :=
  let n := o - 1 in
  let n400 := n / DI400Y in
  let n := n mod DI400Y in
  let year := n400 * 400 + 1 in
  let n100 := n / DI100Y in
  let n := n mod DI100Y in
  let n4 := n / DI4Y in
  let n := n mod DI4Y in
  let n1 := n / 365 in
  let year := year + n100 * 100 + n4 * 4 + n1 in
  if (n1 =? 4) || (n100 =? 4) then year - 1 else year.

(** [_isoweek1monday(year)] *)
Definition isoweek1monday (year : Z) : Z :=
  let firstday := days_before_year year + 1 in
  let firstweekday := (firstday + 6) mod 7 in
  let week1monday := firstday - firstweekday in
  if 3 <? firstweekday then week1monday + 7 else week1monday.

(** [date.isocalendar()] : (ISO year, ISO week, ISO weekday). *)
Definition isocalendar (o : date) : Z * Z * Z :=
  let year := year_of o in
  let week1monday := isoweek1monday year in
  let today := o in
  let week := (today - week1monday) / 7 in
  let day := (today - week1monday) mod 7 in
  if week <? 0 then
    let year := year - 1 in
    let week1monday := isoweek1monday year in
    ((year, (today - week1monday) / 7 + 1), (today - week1monday) mod 7 + 1)
  else if (52 <=? week) && (isoweek1monday (year + 1) <=? today) then
    ((year + 1, 1), day + 1)
  else ((year, week + 1), day + 1).

(** [_iso_year_week(date_str)] *)
Definition iso_year_week (date_str : date) : Z * Z * Z :=
  isocalendar date_str.

(* ================================================================== *)
(** ** Input document *)

Record Day := mkDay { day_date : date; D_T : Z; D_L : Z }.

Record InitialState := mkInit { st_FT : Z; st_ET : Z; st_Tf : Z; st_Te : Z }.

(** [data]: the two required keys, and the optional integer keys as a
    key/value list read with [data.get(key, default)]. *)
Record Data := mkData {
  days : list Day;
  initial_state : InitialState;
  options : list (string * Z)
}.

Definition get (data : Data) (key : string) (dflt : Z) : Z :=
  match assoc key (options data) with
  | Some v => v
  | None => dflt
  end.

(** [days[d]] for an index of [range(n)]. *)
Definition day_at (ds : list Day) (d : Z) : Day :=
  nth (Z.to_nat d) ds (mkDay 0 0 0).

(* ================================================================== *)
(** ** CP-SAT models: variables, linear expressions, constraints *)

(** One constructor per variable family, named after the variable names
    the solver gives them. *)
Inductive var : Type :=
| vFT (d t : Z) | vET (d t : Z) | vTf (d t : Z) | vTe (d t : Z)
| vR (d t : Z)
| vS (d i t : Z) | vU (d i t : Z)
| vV (d j t : Z) | vA (d j t : Z)
| v_drive_T (d i : Z) | v_ext_T (d i : Z) | v_drv_T (d i t : Z)
| v_drive_L (d j : Z) | v_ext_L (d j : Z) | v_drv_L (d j t : Z)
| v_drive_T_week (d i : Z) | v_ext_flag_T (d i : Z)
| v_drive_L_week (d j : Z) | v_ext_flag_L (d j : Z)
| v_total_deliveries.

Set Warnings "-register-all".

Inductive expr : Type :=
| Const (c : Z)
| Var (v : var)
| Plus (a b : expr)
| Minus (a b : expr)
| Times (a : expr) (k : Z)
| Sum (es : list expr).

(** [a <= b], [a == b], [a > b] *)
Inductive constr : Type :=
| CLe (a b : expr)
| CEq (a b : expr)
| CGt (a b : expr).

(** A Boolean variable [x] or its negation [x.Not()]. *)
Inductive literal : Type :=
| Lit (v : var)
| NotLit (v : var).

(** What the builder adds to the model, call by call. *)
Inductive item : Type :=
| NewIntVar (lo hi : Z) (v : var)
| NewBoolVar (v : var)
| NewConstant (c : Z)
| AddC (c : constr)
| OnlyEnforceIf (c : constr) (l : literal)
| Maximize (e : expr).

Definition Model := list item.

Definition assignment := var -> Z.

Fixpoint eval (a : assignment) (e : expr) : Z :=
  match e with
  | Const c => c
  | Var v => a v
  | Plus x y => eval a x + eval a y
  | Minus x y => eval a x - eval a y
  | Times x k => eval a x * k
  | Sum es => zsum (map (eval a) es)
  end.

Definition holds (a : assignment) (c : constr) : bool :=
  match c with
  | CLe x y => eval a x <=? eval a y
  | CEq x y => eval a x =? eval a y
  | CGt x y => eval a y <? eval a x
  end.

Definition lit_true (a : assignment) (l : literal) : bool :=
  match l with
  | Lit v => a v =? 1
  | NotLit v => a v =? 0
  end.

Definition item_ok (a : assignment) (it : item) : bool :=
  match it with
  | NewIntVar lo hi v => (lo <=? a v) && (a v <=? hi)
  | NewBoolVar v => (0 <=? a v) && (a v <=? 1)
  | NewConstant _ => true
  | AddC c => holds a c
  | OnlyEnforceIf c l => negb (lit_true a l) || holds a c
  | Maximize _ => true
  end.

(** An assignment is a solution of the model when every variable lies in
    its domain and every constraint holds. *)
Definition feasible (m : Model) (a : assignment) : bool :=
  forallb (item_ok a) m.

(* ================================================================== *)
(** ** [solve]: parameters and derived slot counts *)

Section Solve.

Variable data : Data.

Definition n : Z := Z.of_nat (length (days data)).
Definition liters_per_unit : Z := get data "liters_per_unit" 17500.

Definition shift_minutes : Z := get data "shift_minutes" 720.
Definition slot_minutes : Z := get data "slot_minutes" 15.
Definition slots_per_day : Z := shift_minutes / slot_minutes.
Definition livigno_entry_start_minutes : Z :=
  get data "livigno_entry_start_minutes" 120.
Definition livigno_entry_end_minutes : Z :=
  get data "livigno_entry_end_minutes" 750.
Definition livigno_entry_start_slot : Z :=
  livigno_entry_start_minutes / slot_minutes.
Definition livigno_entry_end_slot : Z :=
  livigno_entry_end_minutes / slot_minutes.
Definition break_window_minutes : Z := get data "break_window_minutes" 315.
Definition break_drive_cap_minutes : Z :=
  get data "break_drive_cap_minutes" 270.
Definition break_window_slots : Z := break_window_minutes / slot_minutes.
Definition break_drive_cap_slots : Z := break_drive_cap_minutes / slot_minutes.

Definition max_resident_trips : Z := get data "max_resident_trips" 2.
Definition max_adr_trips : Z := get data "max_adr_trips" 1.
Definition adr_weekly_cap : Z := get data "adr_weekly_cap" 2.

Definition drive_minutes_daily : Z := get data "drive_minutes_daily" 540.
Definition drive_minutes_extended : Z := get data "drive_minutes_extended" 600.
Definition max_extended_days_per_week : Z :=
  get data "max_extended_days_per_week" 2.
Definition weekly_drive_limit_minutes : Z :=
  get data "weekly_drive_limit_minutes" 3360.
Definition biweekly_drive_limit_minutes : Z :=
  get data "biweekly_drive_limit_minutes" 5400.

Definition drivers_T_base : Z := get data "drivers_T_base" 4.
Definition drivers_L_base : Z := get data "drivers_L_base" 1.

Definition init_FT : Z := st_FT (initial_state data).
Definition init_ET : Z := st_ET (initial_state data).
Definition init_Tf : Z := st_Tf (initial_state data).
Definition init_Te : Z := st_Te (initial_state data).

Definition total_trailers : Z := get data "total_trailers" (init_FT + init_ET).
Definition total_tractors : Z := get data "total_tractors" (init_Tf + init_Te).

(** Durations in slots. *)
Definition supply_slots : Z := 345 / slot_minutes.
Definition shuttle_slots : Z := 240 / slot_minutes.
Definition resident_slots : Z := 270 / slot_minutes.
Definition adr_slots : Z := 585 / slot_minutes.
Definition refill_slots : Z := 30 / slot_minutes.

(** Offsets (in slots) for inventory effects. *)
Definition supply_end_offset : Z := supply_slots.
Definition shuttle_end_offset : Z := shuttle_slots.
Definition refill_end_offset : Z := refill_slots.

Definition resident_refill_start_offset : Z := 90 / slot_minutes.
Definition resident_refill_end_offset : Z := (90 + 30) / slot_minutes.

Definition adr_refill_start_offset : Z := 90 / slot_minutes.
Definition adr_supply_end_offset : Z :=
  adr_refill_start_offset + supply_end_offset.

(** Driving profiles inside tasks. *)
Definition supply_drive_offsets : list Z := range 0 10 ++ range 13 23.
Definition shuttle_drive_offsets : list Z := range 0 8 ++ range 10 16.
Definition resident_drive_offsets : list Z := range 0 6 ++ range 8 16.
Definition adr_drive_offsets : list Z := range 0 16 ++ range 19 37.

(** [k in offsets] *)
Definition in_set (k : Z) (offsets : list Z) : bool :=
  existsb (Z.eqb k) offsets.

(** Livigno-entry offsets from task start (in slots). *)
Definition shuttle_livigno_entry_offset : Z := 120 / slot_minutes.
Definition resident_livigno_entry_offset : Z := 240 / slot_minutes.
Definition adr_livigno_entry_offset : Z := 555 / slot_minutes.

(* ------------------------------------------------------------------ *)
(** ** The variable arrays

    The lists [FT], [S_start], ... of the builder are read only at indices
    of the ranges that filled them, so each is given by its entry at an
    index. *)

Definition FT (d t : Z) : expr := Var (vFT d t).
Definition ET (d t : Z) : expr := Var (vET d t).
Definition Tf (d t : Z) : expr := Var (vTf d t).
Definition Te (d t : Z) : expr := Var (vTe d t).
Definition R_start (d t : Z) : expr := Var (vR d t).

(** [available = 1 if i < int(days[d]["D_T"]) else 0] *)
Definition available_T (d i : Z) : bool := i <? D_T (day_at (days data) d).
Definition available_L (d j : Z) : bool := j <? D_L (day_at (days data) d).

(** [lo <= entry_slot <= hi] for the Livigno entry window. *)
Definition in_entry_window (entry_slot : Z) : bool :=
  (livigno_entry_start_slot <=? entry_slot)
  && (entry_slot <=? livigno_entry_end_slot).

(** Is the start a Boolean variable (rather than the constant 0)? *)
Definition S_open (d i t : Z) : bool :=
  available_T d i && (t + supply_slots <=? slots_per_day).
Definition U_open (d i t : Z) : bool :=
  available_T d i && (t + shuttle_slots <=? slots_per_day)
  && in_entry_window (t + shuttle_livigno_entry_offset).
Definition V_open (d j t : Z) : bool :=
  available_L d j && (t + resident_slots <=? slots_per_day)
  && in_entry_window (t + resident_livigno_entry_offset).
Definition A_open (d j t : Z) : bool :=
  available_L d j && (t + adr_slots <=? slots_per_day)
  && in_entry_window (t + adr_livigno_entry_offset).

Definition S_start (d i t : Z) : expr :=
  if S_open d i t then Var (vS d i t) else Const 0.
Definition U_start (d i t : Z) : expr :=
  if U_open d i t then Var (vU d i t) else Const 0.
Definition V_start (d j t : Z) : expr :=
  if V_open d j t then Var (vV d j t) else Const 0.
Definition A_start (d j t : Z) : expr :=
  if A_open d j t then Var (vA d j t) else Const 0.

(** The call that creates the entry: [new_bool_var] or [new_constant(0)]. *)
Definition new_start (is_open : bool) (v : var) : item :=
  if is_open then NewBoolVar v else NewConstant 0.

(* ------------------------------------------------------------------ *)
(** ** First loop: variables and per-driver constraints of day [d] *)

(** Start slots [t0] of a task of [dur] slots that covers slot [t]:
    [range(max(0, t - dur + 1), min(t + 1, slots_per_day))] filtered by
    [t0 + dur <= slots_per_day]. *)
Definition covering (dur t : Z) : list Z :=
  filter (fun t0 => t0 + dur <=? slots_per_day)
         (range (Z.max 0 (t - dur + 1)) (Z.min (t + 1) slots_per_day)).

(** The same, keeping the starts whose offset [t - t0] is a driving one. *)
Definition covering_driving (dur : Z) (offsets : list Z) (t : Z) : list Z :=
  filter (fun t0 => (t0 + dur <=? slots_per_day) && in_set (t - t0) offsets)
         (range (Z.max 0 (t - dur + 1)) (Z.min (t + 1) slots_per_day)).

Definition cover_T (d i t : Z) : list expr :=
  map (S_start d i) (covering supply_slots t)
  ++ map (U_start d i) (covering shuttle_slots t).

Definition cover_L (d j t : Z) : list expr :=
  map (V_start d j) (covering resident_slots t)
  ++ map (A_start d j) (covering adr_slots t).

Definition contributors_T (d i t : Z) : list expr :=
  map (S_start d i) (covering_driving supply_slots supply_drive_offsets t)
  ++ map (U_start d i) (covering_driving shuttle_slots shuttle_drive_offsets t).

Definition contributors_L (d j t : Z) : list expr :=
  map (V_start d j) (covering_driving resident_slots resident_drive_offsets t)
  ++ map (A_start d j) (covering_driving adr_slots adr_drive_offsets t).

Definition drive_slots_T (d i : Z) : list expr :=
  map (fun t => Var (v_drv_T d i t)) (range 0 slots_per_day).
Definition drive_slots_L (d j : Z) : list expr :=
  map (fun t => Var (v_drv_L d j t)) (range 0 slots_per_day).

(** [sum(s_i[t] * 300 + u_i[t] * 210 for t in range(slots_per_day))] *)
Definition drive_expr_T (d i : Z) : expr :=
  Sum (map (fun t => Plus (Times (S_start d i t) 300) (Times (U_start d i t) 210))
           (range 0 slots_per_day)).
Definition drive_expr_L (d j : Z) : expr :=
  Sum (map (fun t => Plus (Times (V_start d j t) 210) (Times (A_start d j t) 510))
           (range 0 slots_per_day)).

(** The break rule: one constraint per window, when the window fits. *)
Definition break_windows (drive_slots : list expr) : list item :=
  if break_window_slots <=? slots_per_day then
    map (fun t0 =>
           AddC (CLe (Sum (py_slice drive_slots t0 (t0 + break_window_slots)))
                     (Const break_drive_cap_slots)))
        (range 0 (slots_per_day - break_window_slots + 1))
  else [].

Definition tirano_driver (d i : Z) : list item :=
  flat_map (fun t => [new_start (S_open d i t) (vS d i t);
                      new_start (U_open d i t) (vU d i t)])
           (range 0 slots_per_day)
  (* No-overlap per driver (Tirano). *)
  ++ map (fun t => AddC (CLe (Sum (cover_T d i t)) (Const 1)))
         (range 0 slots_per_day)
  (* Daily driving limits per driver (Tirano). *)
  ++ [NewIntVar 0 drive_minutes_extended (v_drive_T d i);
      new_start (available_T d i) (v_ext_T d i);
      AddC (CEq (Var (v_drive_T d i)) (drive_expr_T d i));
      AddC (CLe (Var (v_drive_T d i))
                (Plus (Const drive_minutes_daily)
                      (Times (if available_T d i then Var (v_ext_T d i) else Const 0)
                             (drive_minutes_extended - drive_minutes_daily))))]
  (* 4h30 driving -> 45m break. *)
  ++ flat_map (fun t => [NewBoolVar (v_drv_T d i t);
                         AddC (CEq (Var (v_drv_T d i t)) (Sum (contributors_T d i t)))])
              (range 0 slots_per_day)
  ++ break_windows (drive_slots_T d i).

Definition trip_cap (cap : Z) (starts : Z -> expr) : list item :=
  if 0 <=? cap then
    [AddC (CLe (Sum (map starts (range 0 slots_per_day))) (Const cap))]
  else [].

Definition livigno_driver (d j : Z) : list item :=
  flat_map (fun t => [new_start (V_open d j t) (vV d j t);
                      new_start (A_open d j t) (vA d j t)])
           (range 0 slots_per_day)
  (* No-overlap per driver (Livigno). *)
  ++ map (fun t => AddC (CLe (Sum (cover_L d j t)) (Const 1)))
         (range 0 slots_per_day)
  (* Daily driving limits per driver (Livigno). *)
  ++ [NewIntVar 0 drive_minutes_extended (v_drive_L d j);
      new_start (available_L d j) (v_ext_L d j);
      AddC (CEq (Var (v_drive_L d j)) (drive_expr_L d j));
      AddC (CLe (Var (v_drive_L d j))
                (Plus (Const drive_minutes_daily)
                      (Times (if available_L d j then Var (v_ext_L d j) else Const 0)
                             (drive_minutes_extended - drive_minutes_daily))))]
  ++ flat_map (fun t => [NewBoolVar (v_drv_L d j t);
                         AddC (CEq (Var (v_drv_L d j t)) (Sum (contributors_L d j t)))])
              (range 0 slots_per_day)
  ++ break_windows (drive_slots_L d j)
  (* Max trips per day (if configured). *)
  ++ trip_cap max_resident_trips (V_start d j)
  ++ trip_cap max_adr_trips (A_start d j).

Definition day_variables (d : Z) : list item :=
  map (fun t => NewIntVar 0 total_trailers (vFT d t)) (range 0 (slots_per_day + 1))
  ++ map (fun t => NewIntVar 0 total_trailers (vET d t)) (range 0 (slots_per_day + 1))
  ++ map (fun t => NewIntVar 0 total_tractors (vTf d t)) (range 0 (slots_per_day + 1))
  ++ map (fun t => NewIntVar 0 total_tractors (vTe d t)) (range 0 (slots_per_day + 1))
  (* Refill starts (Tirano, no driver required). *)
  ++ map (fun t => NewIntVar 0 total_trailers (vR d t)) (range 0 slots_per_day)
  ++ flat_map (tirano_driver d) (range 0 drivers_T_base)
  ++ flat_map (livigno_driver d) (range 0 drivers_L_base).

(* ------------------------------------------------------------------ *)
(** ** Second loop: inventory initialization and transitions *)

(** Aggregate starts for slot [t]. *)
Definition supply_start (d t : Z) : expr :=
  Sum (map (fun i => S_start d i t) (range 0 drivers_T_base)).
Definition shuttle_start (d t : Z) : expr :=
  Sum (map (fun i => U_start d i t) (range 0 drivers_T_base)).
Definition resident_start (d t : Z) : expr :=
  Sum (map (fun j => V_start d j t) (range 0 drivers_L_base)).
Definition adr_start (d t : Z) : expr :=
  Sum (map (fun j => A_start d j t) (range 0 drivers_L_base)).
Definition refill_start (d t : Z) : expr := R_start d t.

(** [x = 0; if t - offset >= 0: x = starts[t - offset]] *)
Definition lagged (offset : Z) (starts : Z -> expr) (t : Z) : expr :=
  if 0 <=? t - offset then starts (t - offset) else Const 0.

Definition supply_end (d t : Z) : expr :=
  lagged supply_end_offset (supply_start d) t.
Definition shuttle_end (d t : Z) : expr :=
  lagged shuttle_end_offset (shuttle_start d) t.
Definition refill_end (d t : Z) : expr :=
  lagged refill_end_offset (R_start d) t.
Definition resident_refill_start (d t : Z) : expr :=
  lagged resident_refill_start_offset (resident_start d) t.
Definition resident_refill_end (d t : Z) : expr :=
  lagged resident_refill_end_offset (resident_start d) t.
Definition adr_refill_start (d t : Z) : expr :=
  lagged adr_refill_start_offset (adr_start d) t.
Definition adr_supply_end (d t : Z) : expr :=
  lagged adr_supply_end_offset (adr_start d) t.

Definition day_boundary (d : Z) : list item :=
  if d =? 0 then
    [AddC (CEq (FT d 0) (Const init_FT));
     AddC (CEq (ET d 0) (Const init_ET));
     AddC (CEq (Tf d 0) (Const init_Tf));
     AddC (CEq (Te d 0) (Const init_Te))]
  else
    [AddC (CEq (FT d 0) (FT (d - 1) slots_per_day));
     AddC (CEq (ET d 0) (ET (d - 1) slots_per_day));
     AddC (CEq (Tf d 0) (Tf (d - 1) slots_per_day));
     AddC (CEq (Te d 0) (Te (d - 1) slots_per_day))].

Definition slot_constraints (d t : Z) : list item :=
  (* Resource availability at slot start. *)
  [AddC (CLe (supply_start d t) (ET d t));
   AddC (CLe (Plus (supply_start d t) (refill_start d t)) (Te d t));
   AddC (CLe (shuttle_start d t) (Tf d t));
   AddC (CLe (refill_start d t) (FT d t));
   (* Inventory transitions. *)
   AddC (CEq (FT d (t + 1))
             (Minus (Minus (Plus (Plus (FT d t) (supply_end d t)) (adr_supply_end d t))
                           (refill_start d t))
                    (resident_refill_start d t)));
   AddC (CEq (ET d (t + 1))
             (Minus (Plus (Plus (Minus (ET d t) (supply_start d t)) (refill_end d t))
                          (resident_refill_end d t))
                    (adr_refill_start d t)));
   AddC (CEq (Tf d (t + 1))
             (Minus (Plus (Plus (Tf d t) (supply_end d t)) (refill_end d t))
                    (shuttle_start d t)));
   AddC (CEq (Te d (t + 1))
             (Plus (Minus (Minus (Te d t) (supply_start d t)) (refill_start d t))
                   (shuttle_end d t)));
   (* Assets can be in transit, so on-site totals are upper-bounded. *)
   AddC (CLe (Plus (FT d (t + 1)) (ET d (t + 1))) (Const total_trailers));
   AddC (CLe (Plus (Tf d (t + 1)) (Te d (t + 1))) (Const total_tractors))].

Definition day_inventory (d : Z) : list item :=
  day_boundary d ++ flat_map (slot_constraints d) (range 0 slots_per_day).

(* ------------------------------------------------------------------ *)
(** ** Weekly and biweekly limits per driver, ADR cap *)

Definition week_key : Type := (Z * Z)%type.

Definition key_eqb (k1 k2 : week_key) : bool :=
  (fst k1 =? fst k2) && (snd k1 =? snd k2).

(** [weeks.setdefault(key, []).append(d)] on an insertion-ordered dict. *)
Fixpoint setdefault_append (w : list (week_key * list Z)) (key : week_key) (d : Z)
  : list (week_key * list Z) :=
  match w with
  | [] => [(key, [d])]
  | (k, idxs) :: rest =>
      if key_eqb k key then (k, idxs ++ [d]) :: rest
      else (k, idxs) :: setdefault_append rest key d
  end.

Definition weeks_of (ds : list Day) : list (week_key * list Z) :=
  fold_left (fun w '(d, day) =>
               let '(year, week, _) := iso_year_week (day_date day) in
               setdefault_append w (year, week) d)
            (enumerate ds) [].

Definition weeks : list (week_key * list Z) := weeks_of (days data).

(** [weeks[key]] *)
Definition week_days (key : week_key) : list Z :=
  match find (fun kv => key_eqb (fst kv) key) weeks with
  | Some kv => snd kv
  | None => []
  end.

(** Tuple order on keys, and [sorted(weeks.keys())]. *)
Definition key_leb (k1 k2 : week_key) : bool :=
  (fst k1 <? fst k2) || ((fst k1 =? fst k2) && (snd k1 <=? snd k2)).

Fixpoint insert_key (k : week_key) (l : list week_key) : list week_key :=
  match l with
  | [] => [k]
  | h :: rest => if key_leb k h then k :: l else h :: insert_key k rest
  end.

Definition sorted_keys (l : list week_key) : list week_key :=
  fold_right insert_key [] l.

Definition adr_weekly : list item :=
  if 0 <=? adr_weekly_cap then
    flat_map (fun j =>
      map (fun kv : week_key * list Z =>
             AddC (CLe (Sum (map (fun d => Sum (map (A_start d j) (range 0 slots_per_day)))
                                 (snd kv)))
                       (Const adr_weekly_cap)))
          weeks)
      (range 0 drivers_L_base)
  else [].

(** The extended-day flags of one driver in one week. *)
Definition extended_week (drive_week ext_flag : Z -> var) (drive : Z -> expr)
           (idxs : list Z) : list item :=
  flat_map (fun d =>
              [NewIntVar 0 drive_minutes_extended (drive_week d);
               AddC (CEq (Var (drive_week d)) (drive d));
               NewBoolVar (ext_flag d);
               OnlyEnforceIf (CGt (Var (drive_week d)) (Const drive_minutes_daily))
                             (Lit (ext_flag d));
               OnlyEnforceIf (CLe (Var (drive_week d)) (Const drive_minutes_daily))
                             (NotLit (ext_flag d))])
           idxs
  ++ [AddC (CLe (Sum (map (fun d => Var (ext_flag d)) idxs))
                (Const max_extended_days_per_week))].

Definition extended_days : list item :=
  if 0 <=? max_extended_days_per_week then
    flat_map (fun i =>
      flat_map (fun kv : week_key * list Z =>
                  extended_week (fun d => v_drive_T_week d i)
                                (fun d => v_ext_flag_T d i)
                                (fun d => drive_expr_T d i) (snd kv))
               weeks)
      (range 0 drivers_T_base)
    ++ flat_map (fun j =>
      flat_map (fun kv : week_key * list Z =>
                  extended_week (fun d => v_drive_L_week d j)
                                (fun d => v_ext_flag_L d j)
                                (fun d => drive_expr_L d j) (snd kv))
               weeks)
      (range 0 drivers_L_base)
  else [].

Definition drive_limit (limit : Z) (drive : Z -> expr) (idxs : list Z) : item :=
  AddC (CLe (Sum (map drive idxs)) (Const limit)).

Definition weekly_drive : list item :=
  if 0 <=? weekly_drive_limit_minutes then
    flat_map (fun i =>
      map (fun kv : week_key * list Z =>
             drive_limit weekly_drive_limit_minutes (fun d => drive_expr_T d i) (snd kv))
          weeks)
      (range 0 drivers_T_base)
    ++ flat_map (fun j =>
      map (fun kv : week_key * list Z =>
             drive_limit weekly_drive_limit_minutes (fun d => drive_expr_L d j) (snd kv))
          weeks)
      (range 0 drivers_L_base)
  else [].

(** Adjacent pairs [week_keys[k], week_keys[k + 1]]. *)
Fixpoint adjacent (l : list week_key) : list (week_key * week_key) :=
  match l with
  | k1 :: (k2 :: _) as rest => (k1, k2) :: adjacent rest
  | _ => []
  end.

Definition biweekly_drive : list item :=
  if (0 <=? biweekly_drive_limit_minutes) && (1 <? Z.of_nat (length weeks)) then
    let week_keys := sorted_keys (map fst weeks) in
    flat_map (fun i =>
      map (fun kk : week_key * week_key =>
             drive_limit biweekly_drive_limit_minutes (fun d => drive_expr_T d i)
                         (week_days (fst kk) ++ week_days (snd kk)))
          (adjacent week_keys))
      (range 0 drivers_T_base)
    ++ flat_map (fun j =>
      map (fun kk : week_key * week_key =>
             drive_limit biweekly_drive_limit_minutes (fun d => drive_expr_L d j)
                         (week_days (fst kk) ++ week_days (snd kk)))
          (adjacent week_keys))
      (range 0 drivers_L_base)
  else [].

(* ------------------------------------------------------------------ *)
(** ** Objective: maximize deliveries *)

Definition total_deliveries : expr := Var v_total_deliveries.

(** [sum(X[d][i][t] for i in range(base) for t in range(slots_per_day))] *)
Definition day_starts (starts : Z -> Z -> Z -> expr) (base d : Z) : expr :=
  Sum (flat_map (fun i => map (starts d i) (range 0 slots_per_day)) (range 0 base)).

Definition deliveries_expr : expr :=
  Sum (map (fun d => Plus (Plus (day_starts U_start drivers_T_base d)
                                (day_starts V_start drivers_L_base d))
                          (day_starts A_start drivers_L_base d))
           (range 0 n)).

Definition objective : list item :=
  [NewIntVar 0 (n * slots_per_day) v_total_deliveries;
   AddC (CEq total_deliveries deliveries_expr);
   Maximize total_deliveries].

(** The model handed to the solver. *)
Definition build_model : Model :=
  flat_map day_variables (range 0 n)
  ++ flat_map day_inventory (range 0 n)
  ++ adr_weekly
  ++ extended_days
  ++ weekly_drive
  ++ biweekly_drive
  ++ objective.

End Solve.

(* ================================================================== *)
(** ** The solver call and the reporter *)

Inductive cp_status : Type :=
| OPTIMAL | FEASIBLE | INFEASIBLE | MODEL_INVALID | UNKNOWN.

Definition STATUS_MAP (c : cp_status) : string :=
  match c with
  | OPTIMAL => "OPTIMAL"
  | FEASIBLE => "FEASIBLE"
  | INFEASIBLE => "INFEASIBLE"
  | MODEL_INVALID => "MODEL_INVALID"
  | UNKNOWN => "UNKNOWN"
  end.

(** What [solver.solve(model)] leaves behind: the status code and, when a
    solution was found, the value of every variable.  A response without a
    solution has an empty solution vector. *)
Record Response := mkResponse {
  status_code : cp_status;
  solution : option assignment
}.

Definition CpSolver := Model -> Response.

(** CP-SAT's contract: OPTIMAL and FEASIBLE come with a solution of the
    model, and no other status does. *)
Definition sound_response (m : Model) (r : Response) : Prop :=
  match status_code r with
  | OPTIMAL | FEASIBLE =>
      exists a, solution r = Some a /\ feasible m a = true
  | _ => solution r = None
  end.

(** What is read from a response without solution: 0 for every variable. *)
Definition no_values : assignment := fun _ => 0.

(** The values a response is read with. *)
Definition reading (r : Response) : assignment :=
  match solution r with
  | Some a => a
  | None => no_values
  end.

(** Modelled from the spec: [int(solver.value(e))], the lookup of OR-tools'
    [CpSolver.value], which is not part of the repository.  With a solution
    it evaluates the expression in it.  For a response without solution the
    spec has the lookups succeed with nothing started ("otherwise emit the
    status, zero objective, and empty per-day starts"): every variable
    reads 0. *)
Definition value (r : Response) (e : expr) : result Z :=
  Ok (eval (reading r) e).

Record Start := mkStart { task : string; slot : Z }.

Record DayOut := mkDayOut {
  out_date : date; out_D_T : Z; out_D_L : Z;
  out_S : Z; out_U : Z; out_V : Z; out_A : Z; out_R : Z;
  drivers_T : list (list Start);
  drivers_L : list (list Start);
  FT_start : Z; ET_start : Z; Tf_start : Z; Te_start : Z;
  FT_end : Z; ET_end : Z; Tf_end : Z; Te_end : Z
}.

Record SolveResult := mkSolveResult {
  status : string;
  objective_deliveries : Z;
  objective_liters : Z;
  result_days : list DayOut
}.

Section Report.

Variable data : Data.
Variable response : Response.

(** [sum(int(solver.value(X[d][i][t])) for i in range(base) for t in ...)] *)
Definition count_starts (starts : Z -> Z -> Z -> expr) (base d : Z) : result Z :=
  vs <- mapM (value response)
          (flat_map (fun i => map (starts d i) (range 0 (slots_per_day data)))
                    (range 0 base)) ;;
  Ok (zsum vs).

(** The [starts] list of one driver: for each slot, kind [k1] then [k2]. *)
Definition driver_starts (k1 k2 : string) (x1 x2 : Z -> expr) : result (list Start) :=
  ss <- mapM (fun t =>
                v1 <- value response (x1 t) ;;
                v2 <- value response (x2 t) ;;
                Ok ((if v1 =? 0 then [] else [mkStart k1 t])
                    ++ (if v2 =? 0 then [] else [mkStart k2 t])))
             (range 0 (slots_per_day data)) ;;
  Ok (concat ss).

Definition day_out (d : Z) : result DayOut :=
  s_count <- count_starts (S_start data) (drivers_T_base data) d ;;
  u_count <- count_starts (U_start data) (drivers_T_base data) d ;;
  v_count <- count_starts (V_start data) (drivers_L_base data) d ;;
  a_count <- count_starts (A_start data) (drivers_L_base data) d ;;
  rs <- mapM (fun t => value response (R_start d t)) (range 0 (slots_per_day data)) ;;
  dT <- mapM (fun i => driver_starts "S" "U" (S_start data d i) (U_start data d i))
             (range 0 (drivers_T_base data)) ;;
  dL <- mapM (fun j => driver_starts "V" "A" (V_start data d j) (A_start data d j))
             (range 0 (drivers_L_base data)) ;;
  ft0 <- value response (FT d 0) ;;
  et0 <- value response (ET d 0) ;;
  tf0 <- value response (Tf d 0) ;;
  te0 <- value response (Te d 0) ;;
  ft1 <- value response (FT d (slots_per_day data)) ;;
  et1 <- value response (ET d (slots_per_day data)) ;;
  tf1 <- value response (Tf d (slots_per_day data)) ;;
  te1 <- value response (Te d (slots_per_day data)) ;;
  Ok {| out_date := day_date (day_at (days data) d);
        out_D_T := D_T (day_at (days data) d);
        out_D_L := D_L (day_at (days data) d);
        out_S := s_count; out_U := u_count; out_V := v_count;
        out_A := a_count; out_R := zsum rs;
        drivers_T := dT; drivers_L := dL;
        FT_start := ft0; ET_start := et0; Tf_start := tf0; Te_start := te0;
        FT_end := ft1; ET_end := et1; Tf_end := tf1; Te_end := te1 |}.

End Report.

(** [status in {"OPTIMAL", "FEASIBLE"}] *)
Definition has_solution_status (s : string) : bool :=
  String.eqb s "OPTIMAL" || String.eqb s "FEASIBLE".

(** Subscripts that leave their list: with at least one day, [FT[d][0]] on
    an empty row (negative [slots_per_day]) and the lagged reads
    [R_start[d][t - refill_end_offset]] when the offsets are negative. *)
Definition subscript_out_of_range (data : Data) : bool :=
  (0 <? n data)
  && ((slots_per_day data <? 0)
      || ((0 <? slots_per_day data) && (slot_minutes data <? 0))).

Definition solve (solver : CpSolver) (data : Data) : result SolveResult :=
  if slot_minutes data =? 0 then Raise ZeroDivisionError
  else if subscript_out_of_range data then Raise IndexError
  else
    let model := build_model data in
    let response := solver model in
    let status := STATUS_MAP (status_code response) in
    days_out <- mapM (day_out data response) (range 0 (n data)) ;;
    total_deliveries_val <-
      (if has_solution_status status then value response total_deliveries
       else Ok 0) ;;
    let total_liters := total_deliveries_val * liters_per_unit data in
    Ok {| status := status;
          objective_deliveries := total_deliveries_val;
          objective_liters := total_liters;
          result_days := days_out |}.

(* ================================================================== *)
(** ** The day builder of [main.py] *)

(** [D_T] / [D_L] of the request: a date-keyed mapping or a positional
    sequence. *)
Inductive availability : Type :=
| AvDict (kv : list (date * Z))
| AvSeq (xs : list Z).

(** [d.get(key, dflt)] *)
Definition dict_get (kv : list (date * Z)) (key : date) (dflt : Z) : Z :=
  match find (fun p => fst p =? key) kv with
  | Some p => snd p
  | None => dflt
  end.

(** [xs[idx]] for a non-negative index. *)
Definition subscript (xs : list Z) (idx : Z) : result Z :=
  match nth_error xs (Z.to_nat idx) with
  | Some x => Ok x
  | None => Raise IndexError
  end.

(** [d.get(day_str, 0)] for a mapping,
    [d[idx] if idx < len(d) else 0] for a sequence. *)
Definition day_value (av : availability) (day_str : date) (idx : Z) : result Z :=
  match av with
  | AvDict kv => Ok (dict_get kv day_str 0)
  | AvSeq xs => if idx <? Z.of_nat (length xs) then subscript xs idx else Ok 0
  end.

(** [cur + timedelta(days=1)] raises once the ordinal leaves
    [1..MAXORDINAL]. *)
Definition date_out_of_range (o : Z) : bool :=
  negb ((0 <? o) && (o <=? MAXORDINAL)).

(** The [while cur <= end] loop. *)
Equations? build_days_loop (end_ : date) (d_t d_l : availability)
  (include_weekend : bool) (cur : date) (idx : Z) (acc : list Day)
  : result (list Day) by wf (Z.to_nat (end_ + 1 - cur)) lt :=
  build_days_loop end_ d_t d_l include_weekend cur idx acc
    with Z_le_gt_dec cur end_ => {
    | right _ := Ok acc
    | left _ :=
        let day_str := cur in
        if negb include_weekend && (5 <=? weekday cur) then
          if date_out_of_range (cur + 1) then Raise OverflowError
          else build_days_loop end_ d_t d_l include_weekend (cur + 1) idx acc
        else
          match day_value d_t day_str idx with
          | Raise e => Raise e
          | Ok d_t_val =>
              match day_value d_l day_str idx with
              | Raise e => Raise e
              | Ok d_l_val =>
                  if date_out_of_range (cur + 1) then Raise OverflowError
                  else build_days_loop end_ d_t d_l include_weekend (cur + 1)
                         (idx + 1) (acc ++ [mkDay day_str d_t_val d_l_val])
              end
          end }.
Proof. all: lia. Qed.

Definition build_days (start_date end_date : date) (d_t d_l : availability)
  (include_weekend : bool) : result (list Day) :=
  let start := start_date in
  let end_ := end_date in
  if end_ <? start then Raise ValueError
  else build_days_loop end_ d_t d_l include_weekend start 0 [].

(* ================================================================== *)
(** ** Reading a solution

    Quantities of an assignment that the properties below speak about. *)

(** Aggregate start counts of an assignment: [s], [u], [v], [a], [r] of
    the transition equations. *)
Definition S_sum (data : Data) (a : assignment) (d t : Z) : Z :=
  zsum (map (fun i => eval a (S_start data d i t)) (range 0 (drivers_T_base data))).
Definition U_sum (data : Data) (a : assignment) (d t : Z) : Z :=
  zsum (map (fun i => eval a (U_start data d i t)) (range 0 (drivers_T_base data))).
Definition V_sum (data : Data) (a : assignment) (d t : Z) : Z :=
  zsum (map (fun j => eval a (V_start data d j t)) (range 0 (drivers_L_base data))).
Definition A_sum (data : Data) (a : assignment) (d t : Z) : Z :=
  zsum (map (fun j => eval a (A_start data d j t)) (range 0 (drivers_L_base data))).
Definition R_val (a : assignment) (d t : Z) : Z := a (vR d t).

(** A start count read [k] slots earlier, 0 before the day begins. *)
Definition lag (k : Z) (starts : Z -> Z) (t : Z) : Z :=
  if 0 <=? t - k then starts (t - k) else 0.

(** The seven blocks of the model, one by one. *)
Record blocks_ok (data : Data) (a : assignment) : Prop := {
  ok_day_variables :
    forall d, 0 <= d < n data -> feasible (day_variables data d) a = true;
  ok_day_inventory :
    forall d, 0 <= d < n data -> feasible (day_inventory data d) a = true;
  ok_adr_weekly : feasible (adr_weekly data) a = true;
  ok_extended_days : feasible (extended_days data) a = true;
  ok_weekly_drive : feasible (weekly_drive data) a = true;
  ok_biweekly_drive : feasible (biweekly_drive data) a = true;
  ok_objective : feasible (objective data) a = true
}.

(** What the ten constraints of one slot say about a solution. *)
Record slot_ok (data : Data) (a : assignment) (d t : Z) : Prop := {
  avail_ET : S_sum data a d t <= a (vET d t);
  avail_Te : S_sum data a d t + R_val a d t <= a (vTe d t);
  avail_Tf : U_sum data a d t <= a (vTf d t);
  avail_FT : R_val a d t <= a (vFT d t);
  trans_FT : a (vFT d (t + 1)) =
             a (vFT d t) + lag (supply_end_offset data) (S_sum data a d) t
             + lag (adr_supply_end_offset data) (A_sum data a d) t
             - R_val a d t
             - lag (resident_refill_start_offset data) (V_sum data a d) t;
  trans_ET : a (vET d (t + 1)) =
             a (vET d t) - S_sum data a d t
             + lag (refill_end_offset data) (R_val a d) t
             + lag (resident_refill_end_offset data) (V_sum data a d) t
             - lag (adr_refill_start_offset data) (A_sum data a d) t;
  trans_Tf : a (vTf d (t + 1)) =
             a (vTf d t) + lag (supply_end_offset data) (S_sum data a d) t
             + lag (refill_end_offset data) (R_val a d) t
             - U_sum data a d t;
  trans_Te : a (vTe d (t + 1)) =
             a (vTe d t) - S_sum data a d t - R_val a d t
             + lag (shuttle_end_offset data) (U_sum data a d) t;
  total_FT_ET : a (vFT d (t + 1)) + a (vET d (t + 1)) <= total_trailers data;
  total_Tf_Te : a (vTf d (t + 1)) + a (vTe d (t + 1)) <= total_tractors data
}.


(* ================================================================== *)
(** ** Sample requests and solutions *)

(** One Monday (2024-06-03), one Tirano driver, default parameters. *)
Definition supply_day : Data :=
  mkData [mkDay 739040 1 0] (mkInit 0 1 1 1) [].

(** The driver runs a supply trip from slot 0 and a shuttle from slot 24. *)
Definition supply_day_solution : assignment :=
  fun v =>
    match v with
    | vS 0 0 0 => 1
    | vU 0 0 24 => 1
    | vFT 0 t => if 24 <=? t then 1 else 0
    | vET 0 t => if t <=? 0 then 1 else 0
    | vTf 0 t => if t =? 24 then 2 else 1
    | vTe 0 t => if t <=? 0 then 1 else if 41 <=? t then 1 else 0
    | v_drive_T 0 0 => 510
    | v_drive_T_week 0 0 => 510
    | v_drv_T 0 0 t =>
        if in_set t (range 0 10 ++ range 13 23 ++ range 24 32 ++ range 34 40)
        then 1 else 0
    | v_total_deliveries => 1
    | _ => 0
    end.

(** The task catalog, by kind: the start entry of a driver at a slot, the
    availability it is compared with, the duration and the Livigno-entry
    anchor (none for the supply kind). *)
Inductive kind : Type := K_S | K_U | K_V | K_A.

Definition start_entry (data : Data) (k : kind) (d x t : Z) : expr :=
  match k with
  | K_S => S_start data d x t
  | K_U => U_start data d x t
  | K_V => V_start data d x t
  | K_A => A_start data d x t
  end.

Definition day_availability (data : Data) (k : kind) (d : Z) : Z :=
  match k with
  | K_S | K_U => D_T (day_at (days data) d)
  | K_V | K_A => D_L (day_at (days data) d)
  end.

Definition duration_slots (data : Data) (k : kind) : Z :=
  match k with
  | K_S => supply_slots data
  | K_U => shuttle_slots data
  | K_V => resident_slots data
  | K_A => adr_slots data
  end.

Definition entry_offset_slots (data : Data) (k : kind) : option Z :=
  match k with
  | K_S => None
  | K_U => Some (shuttle_livigno_entry_offset data)
  | K_V => Some (resident_livigno_entry_offset data)
  | K_A => Some (adr_livigno_entry_offset data)
  end.

(** The anchor slot of a start at [t] lies outside the entry window. *)
Definition anchor_outside (data : Data) (k : kind) (t : Z) : Prop :=
  exists off, entry_offset_slots data k = Some off
    /\ ~ (livigno_entry_start_slot data <= t + off <= livigno_entry_end_slot data).

(** A day without drivers and without refills. *)
Definition idle_day : Data :=
  mkData [mkDay 739040 0 0] (mkInit 1 0 0 1) [].

(** No driver is available, yet one refill starts in slot 0. *)
Definition idle_day_refill : assignment :=
  fun v =>
    match v with
    | vR 0 0 => 1
    | vFT 0 t => if t <=? 0 then 1 else 0
    | vET 0 t => if 3 <=? t then 1 else 0
    | vTf 0 t => if 3 <=? t then 1 else 0
    | vTe 0 t => if t <=? 0 then 1 else 0
    | _ => 0
    end.

(** Nothing starts; the inventory stays at its initial value. *)
Definition idle_day_rest : assignment :=
  fun v =>
    match v with
    | vFT 0 _ => 1
    | vTe 0 _ => 1
    | _ => 0
    end.

(** All task starts of day [d] are 0 and the inventory at the last
    boundary equals the inventory at the first. *)
Definition nothing_happens (data : Data) (a : assignment) (d : Z) : Prop :=
  (forall i t, 0 <= i < drivers_T_base data -> 0 <= t < slots_per_day data ->
     eval a (S_start data d i t) = 0 /\ eval a (U_start data d i t) = 0)
  /\ (forall j t, 0 <= j < drivers_L_base data -> 0 <= t < slots_per_day data ->
     eval a (V_start data d j t) = 0 /\ eval a (A_start data d j t) = 0)
  /\ (forall t, 0 <= t < slots_per_day data -> R_val a d t = 0)
  /\ a (vFT d (slots_per_day data)) = a (vFT d 0)
  /\ a (vET d (slots_per_day data)) = a (vET d 0)
  /\ a (vTf d (slots_per_day data)) = a (vTf d 0)
  /\ a (vTe d (slots_per_day data)) = a (vTe d 0).

(** The assignment in which nothing ever starts and every boundary holds
    the initial inventory. *)
Definition resting (i : InitialState) : assignment :=
  fun v =>
    match v with
    | vFT _ _ => st_FT i
    | vET _ _ => st_ET i
    | vTf _ _ => st_Tf i
    | vTe _ _ => st_Te i
    | _ => 0
    end.

(** Two slots of 15 minutes, no driver, four trailers on site but
    [total_trailers] given as 3. *)
Definition overfull_day : Data :=
  mkData [mkDay 739040 0 0] (mkInit 2 2 0 1)
         [("shift_minutes"%string, 30); ("total_trailers"%string, 3)].

(** One refill starts in slot 0. *)
Definition overfull_day_solution : assignment :=
  fun v =>
    match v with
    | vR 0 0 => 1
    | vFT 0 t => if t <=? 0 then 2 else 1
    | vET 0 _ => 2
    | vTe 0 t => if t <=? 0 then 1 else 0
    | _ => 0
    end.





(** The minute values [solve] divides by [slot_minutes]. *)
Definition grid_minutes : list Z := [345; 240; 270; 585; 30; 90; 90 + 30; 120; 240; 555].

(** Some duration or offset is not an integral multiple of the slot. *)
Definition non_integral (data : Data) : bool :=
  existsb (fun m => negb (m mod slot_minutes data =? 0)) grid_minutes.

(** One day, default parameters, no trailer and no free tractor at the
    start. *)
Definition dry_request (day : Day) (te : Z) : Data :=
  mkData [day] (mkInit 0 0 0 te) [].

(** No trailer on site, one free tractor, one Tirano driver. *)
Definition tractor_only : Data :=
  mkData [mkDay 739040 1 0] (mkInit 0 0 1 0) [].

(** The driver runs one shuttle from slot 0. *)
Definition tractor_only_solution : assignment :=
  fun v =>
    match v with
    | vU 0 0 0 => 1
    | vTf 0 t => if t <=? 0 then 1 else 0
    | vTe 0 t => if 17 <=? t then 1 else 0
    | v_drive_T 0 0 => 210
    | v_drive_T_week 0 0 => 210
    | v_drv_T 0 0 t => if in_set t (range 0 8 ++ range 10 16) then 1 else 0
    | v_total_deliveries => 1
    | _ => 0
    end.

Definition tractor_only_solver : CpSolver :=
  fun _ => mkResponse FEASIBLE (Some tractor_only_solution).

(** A solver that answers the dry request of a day with two drivers by the
    resting assignment. *)
Definition dry_sample : Data := dry_request (mkDay 739040 1 1) 2.

Definition dry_sample_solver : CpSolver :=
  fun _ => mkResponse OPTIMAL (Some (resting (mkInit 0 0 0 2))).

(** Number of starts of a kind by a driver on a day. *)
Definition starts_count (data : Data) (a : assignment) (k : kind) (d x : Z) : Z :=
  zsum (map (fun t => eval a (start_entry data k d x t))
            (range 0 (slots_per_day data))).

(** Driving minutes of a driver on a day, counted from the task starts:
    300 per supply trip and 210 per shuttle at Tirano, 210 per resident
    trip and 510 per ADR trip at Livigno. *)
Definition drive_minutes_T (data : Data) (a : assignment) (i d : Z) : Z :=
  300 * starts_count data a K_S d i + 210 * starts_count data a K_U d i.
Definition drive_minutes_L (data : Data) (a : assignment) (j d : Z) : Z :=
  210 * starts_count data a K_V d j + 510 * starts_count data a K_A d j.


(** The ISO (year, week) key of day [d]. *)
Definition week_key_of (ds : list Day) (d : Z) : week_key :=
  let '(year, week, _) := iso_year_week (day_date (day_at ds d)) in (year, week).



(** Is a driver at the wheel in slot [t]: some started task (a start
    [t0] of value 1) covers the slot, [t0 <= t < t0 + dur], at a driving
    offset [t - t0] of its kind. *)
Definition drives (a : assignment) (starts : Z -> expr) (dur : Z)
           (offsets : list Z) (spd t : Z) : bool :=
  existsb (fun t0 => (eval a (starts t0) =? 1) && (t0 <=? t) && (t <? t0 + dur)
                     && in_set (t - t0) offsets)
          (range 0 spd).

Definition driving_T (data : Data) (a : assignment) (d i t : Z) : bool :=
  drives a (S_start data d i) (supply_slots data) supply_drive_offsets
         (slots_per_day data) t
  || drives a (U_start data d i) (shuttle_slots data) shuttle_drive_offsets
            (slots_per_day data) t.

Definition driving_L (data : Data) (a : assignment) (d j t : Z) : bool :=
  drives a (V_start data d j) (resident_slots data) resident_drive_offsets
         (slots_per_day data) t
  || drives a (A_start data d j) (adr_slots data) adr_drive_offsets
            (slots_per_day data) t.

(** Number of driving slots in the window of [w] slots from [t0]. *)
Definition driving_slots (driving : Z -> bool) (t0 w : Z) : Z :=
  zsum (map (fun t => if driving t then 1 else 0) (range t0 (t0 + w))).

(** *** What the day builder is expected to return *)

(** The availability a day receives: the mapping's entry for its date, the
    sequence's entry at its position, and 0 where there is none. *)
Definition availability_at (av : availability) (day : date) (idx : Z) : Z :=
  match av with
  | AvDict kv => dict_get kv day 0
  | AvSeq xs => nth (Z.to_nat idx) xs 0
  end.

(** Is the date kept: every day, or the weekdays Monday to Friday. *)
Definition kept (include_weekend : bool) (c : date) : bool :=
  include_weekend || (weekday c <? 5).

Definition kept_dates (include_weekend : bool) (start end_ : date) : list date :=
  filter (kept include_weekend) (range start (end_ + 1)).

(** One record per kept date, positions counted from [idx]. *)
Definition day_records (d_t d_l : availability) (dates : list date) (idx : Z)
  : list Day :=
  map (fun kc : Z * date =>
         mkDay (snd kc) (availability_at d_t (snd kc) (fst kc))
               (availability_at d_l (snd kc) (fst kc)))
      (combine (range idx (idx + Z.of_nat (length dates))) dates).

(** Strictly ascending dates. *)
Fixpoint ascending (l : list date) : Prop :=
  match l with
  | [] => True
  | x :: rest => (forall y, In y rest -> x < y) /\ ascending rest
  end.

(* ================================================================== *)
(** ** Further readings of a solution *)



(** Driver [x] starts a task of kind [k] at slot [t] of day [d]. *)
Definition started (data : Data) (a : assignment) (k : kind) (d x t : Z) : Prop :=
  eval a (start_entry data k d x t) = 1.


(** The extended-day flag of the daily limit: a variable for an available
    driver, the constant 0 otherwise. *)
Definition ext_flag_T (data : Data) (a : assignment) (d i : Z) : Z :=
  if available_T data d i then a (v_ext_T d i) else 0.
Definition ext_flag_L (data : Data) (a : assignment) (d j : Z) : Z :=
  if available_L data d j then a (v_ext_L d j) else 0.

(** Two non-overlapping tasks of one driver on the supply day, as the
    sample solution has them, and an assignment that also starts a second
    supply trip in slot 10, on top of the first. *)
Definition supply_day_clash : assignment :=
  fun v =>
    match v with
    | vS 0 0 10 => 1
    | _ => supply_day_solution v
    end.

(** One Monday, one Livigno driver, one full trailer on site. *)
Definition resident_day : Data :=
  mkData [mkDay 739040 0 1] (mkInit 1 0 0 0) [].

(** The driver runs one resident trip from slot 0: the full trailer leaves
    at boundary 7 and comes back empty at boundary 9. *)
Definition resident_day_solution : assignment :=
  fun v =>
    match v with
    | vV 0 0 0 => 1
    | vFT 0 t => if t <=? 6 then 1 else 0
    | vET 0 t => if 9 <=? t then 1 else 0
    | v_drive_L 0 0 => 210
    | v_drive_L_week 0 0 => 210
    | v_drv_L 0 0 t => if in_set t (range 0 6 ++ range 8 16) then 1 else 0
    | v_total_deliveries => 1
    | _ => 0
    end.

(** Two Mondays a week apart (2024-06-03 and 2024-06-10), one Livigno
    driver, two full trailers. *)
Definition two_weeks : Data :=
  mkData [mkDay 739040 0 1; mkDay 739047 0 1] (mkInit 2 0 0 0) [].

(** A resident trip from slot 0 on each of the two days. *)
Definition two_weeks_solution : assignment :=
  fun v =>
    match v with
    | vV 0 0 0 => 1
    | vV 1 0 0 => 1
    | vFT 0 t => if t <=? 6 then 2 else 1
    | vET 0 t => if 9 <=? t then 1 else 0
    | vFT 1 t => if t <=? 6 then 1 else 0
    | vET 1 t => if 9 <=? t then 2 else 1
    | v_drive_L _ 0 => 210
    | v_drive_L_week _ 0 => 210
    | v_drv_L _ 0 t => if in_set t (range 0 6 ++ range 8 16) then 1 else 0
    | v_total_deliveries => 2
    | _ => 0
    end.

(** One Monday, one Livigno driver, one empty trailer on site. *)
Definition adr_day : Data :=
  mkData [mkDay 739040 0 1] (mkInit 0 1 0 0) [].

(** The driver runs one ADR trip from slot 0: the empty trailer leaves at
    boundary 7 and comes back full at boundary 30. *)
Definition adr_day_solution : assignment :=
  fun v =>
    match v with
    | vA 0 0 0 => 1
    | vET 0 t => if t <=? 6 then 1 else 0
    | vFT 0 t => if 30 <=? t then 1 else 0
    | v_drive_L 0 0 => 510
    | v_drive_L_week 0 0 => 510
    | v_drv_L 0 0 t => if in_set t (range 0 16 ++ range 19 37) then 1 else 0
    | v_total_deliveries => 1
    | _ => 0
    end.

(** Strict tuple order on week keys. *)
Definition key_lt (k1 k2 : week_key) : Prop :=
  fst k1 < fst k2 \/ (fst k1 = fst k2 /\ snd k1 < snd k2).

(** Keys in tuple order, each at most the ones after it. *)
Fixpoint keys_ascending (l : list week_key) : Prop :=
  match l with
  | [] => True
  | k :: rest => (forall k', In k' rest -> key_leb k k' = true) /\ keys_ascending rest
  end.

(* ================================================================== *)
(** ** The report of a solution

    What the reporter's lookups amount to when the response carries the
    solution [a]. *)

Definition driver_report (a : assignment) (k1 k2 : string) (x1 x2 : Z -> expr)
           (spd : Z) : list Start :=
  concat (map (fun t =>
                 (if eval a (x1 t) =? 0 then [] else [mkStart k1 t])
                 ++ (if eval a (x2 t) =? 0 then [] else [mkStart k2 t]))
              (range 0 spd)).

Definition day_report (data : Data) (a : assignment) (d : Z) : DayOut :=
  {| out_date := day_date (day_at (days data) d);
     out_D_T := D_T (day_at (days data) d);
     out_D_L := D_L (day_at (days data) d);
     out_S := eval a (day_starts data (S_start data) (drivers_T_base data) d);
     out_U := eval a (day_starts data (U_start data) (drivers_T_base data) d);
     out_V := eval a (day_starts data (V_start data) (drivers_L_base data) d);
     out_A := eval a (day_starts data (A_start data) (drivers_L_base data) d);
     out_R := zsum (map (fun t => a (vR d t)) (range 0 (slots_per_day data)));
     drivers_T := map (fun i => driver_report a "S" "U" (S_start data d i)
                                  (U_start data d i) (slots_per_day data))
                      (range 0 (drivers_T_base data));
     drivers_L := map (fun j => driver_report a "V" "A" (V_start data d j)
                                  (A_start data d j) (slots_per_day data))
                      (range 0 (drivers_L_base data));
     FT_start := a (vFT d 0); ET_start := a (vET d 0);
     Tf_start := a (vTf d 0); Te_start := a (vTe d 0);
     FT_end := a (vFT d (slots_per_day data));
     ET_end := a (vET d (slots_per_day data));
     Tf_end := a (vTf d (slots_per_day data));
     Te_end := a (vTe d (slots_per_day data)) |}.

(** Slots of a start list, in list order. *)
Definition start_slots (l : list Start) : list Z := map slot l.

(** Each element is at most the ones after it. *)
Fixpoint nondecreasing (l : list Z) : Prop :=
  match l with
  | [] => True
  | x :: rest => (forall y, In y rest -> x <= y) /\ nondecreasing rest
  end.

(** A solver that answers with the sample solution of the supply day, and
    one for the two-week sample. *)
Definition supply_day_solver : CpSolver :=
  fun _ => mkResponse FEASIBLE (Some supply_day_solution).

Definition two_weeks_solver : CpSolver :=
  fun _ => mkResponse FEASIBLE (Some two_weeks_solution).

(** A request without days, and a solver that ran out of time. *)
Definition no_days : Data := mkData [] (mkInit 1 1 1 1) [].

Definition unknown_solver : CpSolver :=
  fun _ => mkResponse UNKNOWN None.

(* ================================================================== *)
(** ** The turn packer of [turns.py] *)

(** A driver's turn: [{"minutes": ..., "tasks": [...]}]. *)
Record Turn := mkTurn { minutes : Z; tasks : list Z }.

(** [d["minutes"] += duration; d["tasks"].append(duration)] *)
Definition add_task (d : Turn) (duration : Z) : Turn :=
  mkTurn (minutes d + duration) (tasks d ++ [duration]).

(** The inner loop of [pack_tasks]: the first driver the task fits, if
    any ([placed]). *)
Fixpoint first_fit (duration shift_minutes : Z) (drivers : list Turn)
  : option (list Turn) :=
  match drivers with
  | [] => None
  | d :: rest =>
      if minutes d + duration <=? shift_minutes
      then Some (add_task d duration :: rest)
      else match first_fit duration shift_minutes rest with
           | Some rest' => Some (d :: rest')
           | None => None
           end
  end.

(** One round of the outer loop: first fit, else on [drivers[0]]. *)
Definition place_task (duration shift_minutes : Z) (drivers : list Turn)
  : result (list Turn) :=
  match first_fit duration shift_minutes drivers with
  | Some drivers' => Ok drivers'
  | None =>
      match drivers with
      | [] => Raise IndexError
      | d0 :: rest => Ok (add_task d0 duration :: rest)
      end
  end.

Fixpoint pack_loop (task_durations : list Z) (shift_minutes : Z)
         (drivers : list Turn) : result (list Turn) :=
  match task_durations with
  | [] => Ok drivers
  | duration :: rest =>
      drivers' <- place_task duration shift_minutes drivers ;;
      pack_loop rest shift_minutes drivers'
  end.

Definition pack_tasks (task_durations : list Z) (num_drivers shift_minutes : Z)
  : result (list Turn) :=
  let drivers := map (fun _ => mkTurn 0 []) (range 0 num_drivers) in
  pack_loop task_durations shift_minutes drivers.

(** The [day] argument of [build_turns_for_day]: the counts and
    availabilities, and the per-driver start lists when the record has
    them.  A driver is given by its ["starts"] list, empty when the key is
    absent. *)
Record TurnDay := mkTurnDay {
  td_D_T : Z; td_D_L : Z;
  td_S : Z; td_U : Z; td_V : Z; td_A : option Z;
  td_drivers_T : option (list (list Start));
  td_drivers_L : option (list (list Start))
}.

Record DepotTurns := mkDepotTurns { drivers : Z; turns : list Turn }.

Record Turns := mkTurns { tirano : DepotTurns; livigno : DepotTurns }.

(** The durations of a driver's starts: [m1] minutes for kind [k1],
    [m2] for kind [k2], nothing for any other task name. *)
Fixpoint start_durations (k1 k2 : string) (m1 m2 : Z) (starts : list Start)
  : list Z :=
  match starts with
  | [] => []
  | start :: rest =>
      (if String.eqb (task start) k1 then [m1]
       else if String.eqb (task start) k2 then [m2]
       else [])
      ++ start_durations k1 k2 m1 m2 rest
  end.

Definition turn_of_starts (k1 k2 : string) (m1 m2 : Z) (starts : list Start)
  : Turn :=
  let tasks := start_durations k1 k2 m1 m2 starts in
  mkTurn (zsum tasks) tasks.

(** [[x] * count] *)
Definition repeat_z (x count : Z) : list Z := repeat x (Z.to_nat count).

Definition build_turns_for_day (day : TurnDay) (shift_minutes : Z) : result Turns :=
  match td_drivers_T day, td_drivers_L day with
  | Some drivers_T, Some drivers_L =>
      let tirano_turns := map (turn_of_starts "S" "U" 345 240) drivers_T in
      let livigno_turns := map (turn_of_starts "V" "A" 270 585) drivers_L in
      Ok (mkTurns (mkDepotTurns (td_D_T day) tirano_turns)
                  (mkDepotTurns (td_D_L day) livigno_turns))
  | _, _ =>
      let tirano_tasks := repeat_z 345 (td_S day) ++ repeat_z 240 (td_U day) in
      let livigno_tasks :=
        repeat_z 270 (td_V day)
        ++ repeat_z 585 (match td_A day with Some x => x | None => 0 end) in
      let tirano_drivers := td_D_T day in
      let livigno_drivers := td_D_L day in
      tirano_turns <- pack_tasks tirano_tasks tirano_drivers shift_minutes ;;
      livigno_turns <- pack_tasks livigno_tasks livigno_drivers shift_minutes ;;
      Ok (mkTurns (mkDepotTurns tirano_drivers tirano_turns)
                  (mkDepotTurns livigno_drivers livigno_turns))
  end.

(** The day record [solve] hands to the packer. *)
Definition turn_day (o : DayOut) : TurnDay :=
  mkTurnDay (out_D_T o) (out_D_L o) (out_S o) (out_U o) (out_V o)
            (Some (out_A o)) (Some (drivers_T o)) (Some (drivers_L o)).

(** What a turn records: its minutes are the sum of its tasks. *)
Definition turn_ok (d : Turn) : Prop := minutes d = zsum (tasks d).

(** A driver who was given work stays within the shift. *)
Definition within_shift (shift_minutes : Z) (d : Turn) : Prop :=
  tasks d <> [] -> minutes d <= shift_minutes.


(** Three hauls of 345 minutes and one driver: the third does not fit. *)
Definition three_hauls : list Z := [345; 345; 345].

(* ================================================================== *)
(** ** The command line wrapper of [main.py] *)

(** The request document as [main] reads it: the two dates (parsed, so
    within [1..MAXORDINAL]), the availabilities, the truth value of the
    optional [include_weekend], and the keys [solve] reads. *)
Record Request := mkRequest {
  req_start_date : date;
  req_end_date : date;
  req_D_T : availability;
  req_D_L : availability;
  req_include_weekend : option bool;
  req_initial_state : InitialState;
  req_options : list (string * Z)
}.

(** [data] after [data["days"] = days]. *)
Definition request_data (req : Request) (days : list Day) : Data :=
  mkData days (req_initial_state req) (req_options req).

(** [{**day, "turns": turns}] *)
Record OutputDay := mkOutputDay { od_day : DayOut; od_turns : Turns }.

Record Output := mkOutput {
  o_status : string;
  o_objective_deliveries : Z;
  o_objective_liters : Z;
  o_days : list OutputDay
}.

(** [main], from the parsed request to the document it prints. *)
Definition main (solver : CpSolver) (req : Request) : result Output :=
  let include_weekend :=
    match req_include_weekend req with Some b => b | None => true end in
  days <- build_days (req_start_date req) (req_end_date req)
                     (req_D_T req) (req_D_L req) include_weekend ;;
  let data := request_data req days in
  result <- solve solver data ;;
  output_days <-
    mapM (fun day =>
            turns <- build_turns_for_day (turn_day day)
                                         (get data "shift_minutes" 720) ;;
            Ok (mkOutputDay day turns))
         (result_days result) ;;
  Ok (mkOutput (status result) (objective_deliveries result)
               (objective_liters result) output_days).

(** The turns of a day record that carries its driver lists. *)
Definition reported_turns (o : DayOut) : Turns :=
  mkTurns (mkDepotTurns (out_D_T o)
                        (map (turn_of_starts "S" "U" 345 240) (drivers_T o)))
          (mkDepotTurns (out_D_L o)
                        (map (turn_of_starts "V" "A" 270 585) (drivers_L o))).

(** Every turn of both depots is within the shift. *)
Definition turns_within (shift_minutes : Z) (ts : Turns) : Prop :=
  Forall (fun t => minutes t <= shift_minutes) (turns (tirano ts))
  /\ Forall (fun t => minutes t <= shift_minutes) (turns (livigno ts)).

(** The supply day as a request: one day, positional availabilities. *)
Definition supply_request : Request :=
  mkRequest 739040 739040 (AvSeq [1]) (AvSeq [0]) None (mkInit 0 1 1 1) [].

(** A request whose range ends before it starts. *)
Definition backwards_request : Request :=
  mkRequest 739041 739040 (AvSeq []) (AvSeq []) None (mkInit 0 1 1 1) [].

(** A day record of the older shape, counts only: two supply trips, one
    shuttle and one resident trip, for two Tirano drivers and one Livigno
    driver; and the same work with no Tirano driver. *)
Definition counts_day : TurnDay := mkTurnDay 2 1 2 1 1 None None None.

Definition counts_day_unmanned : TurnDay := mkTurnDay 0 1 2 1 1 None None None.

(* ================================================================== *)
(** ** Calendar weeks *)

(** The Monday of the calendar week of a date. *)
Definition monday_of (o : date) : date := o - weekday o.

(** A Monday (2024-06-03) and the Sunday of the same week, then the Monday
    after. *)
Definition week_and_a_day : Data :=
  mkData [mkDay 739040 0 0; mkDay 739046 0 0; mkDay 739047 0 0]
         (mkInit 0 0 0 0) [].

(* ================================================================== *)
(** * Properties *)

(** ** Ranges, sums and feasibility of concatenated models *)

Lemma In_range (lo hi x : Z) : In x (range lo hi) <-> lo <= x < hi.
Proof.
  unfold range. rewrite in_map_iff. split.
  - intros [k [<- Hk]]. apply in_seq in Hk. lia.
  - intros H. exists (Z.to_nat (x - lo)). split; [lia|].
    apply in_seq. lia.
Qed.

Lemma range_empty (lo hi : Z) : hi <= lo -> range lo hi = [].
Proof.
  intros H. unfold range. replace (Z.to_nat (hi - lo)) with 0%nat by lia.
  reflexivity.
Qed.

Lemma range_cons (lo hi : Z) : lo < hi -> range lo hi = lo :: range (lo + 1) hi.
Proof.
  intros H. unfold range.
  replace (Z.to_nat (hi - lo)) with (S (Z.to_nat (hi - (lo + 1)))) by lia.
  cbn [seq map]. f_equal; [lia|].
  rewrite <- seq_shift, map_map. apply map_ext. intros k. lia.
Qed.

Lemma range_snoc (lo hi : Z) : lo <= hi -> range lo (hi + 1) = range lo hi ++ [hi].
Proof.
  intros H. unfold range.
  replace (Z.to_nat (hi + 1 - lo)) with (Z.to_nat (hi - lo) + 1)%nat by lia.
  rewrite seq_app, map_app. cbn [seq map]. do 2 f_equal. lia.
Qed.

Lemma length_range (lo hi : Z) : length (range lo hi) = Z.to_nat (hi - lo).
Proof. unfold range. now rewrite length_map, length_seq. Qed.

Lemma zsum_app (l1 l2 : list Z) : zsum (l1 ++ l2) = zsum l1 + zsum l2.
Proof. unfold zsum. induction l1 as [|x l1 IH]; cbn [fold_right app]; lia. Qed.

Lemma zsum_zero (l : list Z) : (forall x, In x l -> x = 0) -> zsum l = 0.
Proof.
  induction l as [|x l IH]; intros H; [reflexivity|].
  cbn [zsum fold_right]. rewrite (H x (or_introl eq_refl)).
  fold (zsum l). rewrite IH; [reflexivity|]. intros y Hy. apply H. now right.
Qed.

Lemma zsum_nonneg (l : list Z) : (forall x, In x l -> 0 <= x) -> 0 <= zsum l.
Proof.
  induction l as [|x l IH]; intros H; cbn [zsum fold_right]; [lia|].
  fold (zsum l). specialize (H x (or_introl eq_refl)) as Hx.
  assert (0 <= zsum l) by (apply IH; intros y Hy; apply H; now right). lia.
Qed.

Lemma zsum_map_ext {A} (f g : A -> Z) (l : list A) :
  (forall x, In x l -> f x = g x) -> zsum (map f l) = zsum (map g l).
Proof.
  intros H. f_equal. apply map_ext_in. exact H.
Qed.

Lemma eval_Sum_map {A} (a : assignment) (f : A -> expr) (l : list A) :
  eval a (Sum (map f l)) = zsum (map (fun x => eval a (f x)) l).
Proof. cbn [eval]. now rewrite map_map. Qed.

Lemma zsum_map_linear {A} (f g : A -> Z) (c1 c2 : Z) (l : list A) :
  zsum (map (fun x => f x * c1 + g x * c2) l)
  = c1 * zsum (map f l) + c2 * zsum (map g l).
Proof.
  induction l as [|x l IH]; cbn [map zsum fold_right]; [lia|].
  fold (zsum (map (fun x => f x * c1 + g x * c2) l)).
  fold (zsum (map f l)). fold (zsum (map g l)). lia.
Qed.

(** The driving-minutes expression of the model evaluates to the minutes
    counted from the starts. *)
Lemma drive_expr_T_minutes (data : Data) (a : assignment) (d i : Z) :
  eval a (drive_expr_T data d i) = drive_minutes_T data a i d.
Proof.
  unfold drive_minutes_T, drive_expr_T, starts_count. rewrite eval_Sum_map.
  cbn [eval start_entry]. apply zsum_map_linear.
Qed.

Lemma drive_expr_L_minutes (data : Data) (a : assignment) (d j : Z) :
  eval a (drive_expr_L data d j) = drive_minutes_L data a j d.
Proof.
  unfold drive_minutes_L, drive_expr_L, starts_count. rewrite eval_Sum_map.
  cbn [eval start_entry]. apply zsum_map_linear.
Qed.

Lemma feasible_app (m1 m2 : Model) (a : assignment) :
  feasible (m1 ++ m2) a = feasible m1 a && feasible m2 a.
Proof. apply forallb_app. Qed.

Lemma feasible_In (m : Model) (a : assignment) (it : item) :
  feasible m a = true -> In it m -> item_ok a it = true.
Proof. intros H Hin. unfold feasible in H. rewrite forallb_forall in H. auto. Qed.

Lemma feasible_flat_map {A} (f : A -> Model) (l : list A) (a : assignment) :
  feasible (flat_map f l) a = true <->
  forall x, In x l -> feasible (f x) a = true.
Proof.
  induction l as [|x l IH]; cbn [flat_map].
  - split; [intros _ y []|reflexivity].
  - rewrite feasible_app, andb_true_iff, IH. split.
    + intros [Hx Hl] y [<-|Hy]; auto.
    + intros H. split; [apply H; now left|].
      intros y Hy. apply H. now right.
Qed.

Lemma feasible_map {A} (f : A -> item) (l : list A) (a : assignment) :
  feasible (map f l) a = true <->
  forall x, In x l -> item_ok a (f x) = true.
Proof.
  unfold feasible. rewrite forallb_forall. split.
  - intros H x Hx. apply H, in_map. exact Hx.
  - intros H it Hit. apply in_map_iff in Hit as [x [<- Hx]]. auto.
Qed.

Lemma feasible_blocks (data : Data) (a : assignment) :
  feasible (build_model data) a = true -> blocks_ok data a.
Proof.
  unfold build_model. rewrite !feasible_app, !andb_true_iff.
  rewrite !feasible_flat_map.
  intros (Hv & Hi & H1 & H2 & H3 & H4 & H5).
  constructor; auto; intros d Hd; [apply Hv|apply Hi]; now apply In_range.
Qed.

(** ** C1: inventory conservation *)

Lemma eval_lagged (a : assignment) (k : Z) (f : Z -> expr) (t : Z) :
  eval a (lagged k f t) = lag k (fun t' => eval a (f t')) t.
Proof. unfold lagged, lag. now destruct (0 <=? t - k). Qed.

Lemma eval_supply_start data a d t : eval a (supply_start data d t) = S_sum data a d t.
Proof. apply eval_Sum_map. Qed.
Lemma eval_shuttle_start data a d t : eval a (shuttle_start data d t) = U_sum data a d t.
Proof. apply eval_Sum_map. Qed.
Lemma eval_resident_start data a d t : eval a (resident_start data d t) = V_sum data a d t.
Proof. apply eval_Sum_map. Qed.
Lemma eval_adr_start data a d t : eval a (adr_start data d t) = A_sum data a d t.
Proof. apply eval_Sum_map. Qed.

Lemma lag_ext (k : Z) (f g : Z -> Z) (t : Z) :
  (forall x, f x = g x) -> lag k f t = lag k g t.
Proof. intros H. unfold lag. now rewrite H. Qed.

Lemma feasible_slot (data : Data) (a : assignment) (d t : Z) :
  feasible (build_model data) a = true ->
  0 <= d < n data -> 0 <= t < slots_per_day data ->
  slot_ok data a d t.
Proof.
  intros Hf Hd Ht.
  pose proof (ok_day_inventory _ _ (feasible_blocks _ _ Hf) d Hd) as Hi.
  unfold day_inventory in Hi. rewrite feasible_app, andb_true_iff in Hi.
  destruct Hi as [_ Hi]. rewrite feasible_flat_map in Hi.
  specialize (Hi t (proj2 (In_range _ _ _) Ht)).
  unfold slot_constraints, feasible in Hi.
  cbn [forallb item_ok holds] in Hi.
  unfold FT, ET, Tf, Te, refill_start, R_start in Hi.
  unfold supply_end, shuttle_end, refill_end, resident_refill_start,
    resident_refill_end, adr_refill_start, adr_supply_end in Hi.
  cbn [eval] in Hi.
  rewrite !eval_lagged in Hi.
  rewrite !eval_supply_start, !eval_shuttle_start in Hi.
  rewrite (lag_ext _ _ _ _ (eval_supply_start data a d)) in Hi.
  rewrite (lag_ext _ _ _ _ (eval_shuttle_start data a d)) in Hi.
  rewrite !(lag_ext _ _ _ _ (eval_resident_start data a d)) in Hi.
  rewrite !(lag_ext _ _ _ _ (eval_adr_start data a d)) in Hi.
  cbn [eval] in Hi. fold (R_val a d) in Hi.
  repeat rewrite andb_true_iff in Hi.
  repeat match goal with H : _ /\ _ |- _ => destruct H end.
  change (fun t' : Z => eval a (R_start d t')) with (R_val a d) in *.
  change (a (vR d t)) with (R_val a d t) in *.
  constructor; lia.
Qed.

Lemma lag_before (k : Z) (f : Z -> Z) (t : Z) : t - k < 0 -> lag k f t = 0.
Proof. intros H. unfold lag. destruct (Z.leb_spec 0 (t - k)); [lia|reflexivity]. Qed.

(** C1. With 15-minute slots, every solution of the model satisfies the
    four transition equations at every slot of every day: the lagged start
    sums are read 23 (supply end), 16 (shuttle end), 2 (refill end), 6 and
    8 (resident) and 6 and 29 (ADR) slots earlier, and a lagged term is 0
    when the shifted index is negative. *)
Theorem conservation (data : Data) (a : assignment) (d t : Z) :
  slot_minutes data = 15 ->
  feasible (build_model data) a = true ->
  0 <= d < n data -> 0 <= t < slots_per_day data ->
  a (vFT d (t + 1)) =
    a (vFT d t) + lag 23 (S_sum data a d) t + lag 29 (A_sum data a d) t
    - R_val a d t - lag 6 (V_sum data a d) t
  /\ a (vET d (t + 1)) =
    a (vET d t) - S_sum data a d t + lag 2 (R_val a d) t
    + lag 8 (V_sum data a d) t - lag 6 (A_sum data a d) t
  /\ a (vTf d (t + 1)) =
    a (vTf d t) + lag 23 (S_sum data a d) t + lag 2 (R_val a d) t
    - U_sum data a d t
  /\ a (vTe d (t + 1)) =
    a (vTe d t) - S_sum data a d t - R_val a d t + lag 16 (U_sum data a d) t.
Proof.
  intros Hslot Hf Hd Ht.
  destruct (feasible_slot data a d t Hf Hd Ht) as
    [_ _ _ _ HFT HET HTf HTe _ _].
  unfold adr_supply_end_offset, adr_refill_start_offset, supply_end_offset,
    shuttle_end_offset, refill_end_offset, resident_refill_start_offset,
    resident_refill_end_offset, supply_slots, shuttle_slots, refill_slots
    in HFT, HET, HTf, HTe.
  rewrite Hslot in HFT, HET, HTf, HTe.
  change (345 / 15) with 23 in *. change (240 / 15) with 16 in *.
  change (30 / 15) with 2 in *. change (90 / 15) with 6 in *.
  change ((90 + 30) / 15) with 8 in *. change (6 + 23) with 29 in *.
  repeat split; assumption.
Qed.

Lemma conservation_witness :
  slot_minutes supply_day = 15
  /\ feasible (build_model supply_day) supply_day_solution = true
  /\ supply_day_solution (vFT 0 24) = 1
  /\ supply_day_solution (vFT 0 24) =
       supply_day_solution (vFT 0 23)
       + lag 23 (S_sum supply_day supply_day_solution 0) 23
       + lag 29 (A_sum supply_day supply_day_solution 0) 23
       - R_val supply_day_solution 0 23
       - lag 6 (V_sum supply_day supply_day_solution 0) 23.
Proof.
  split; [reflexivity|]. split; [vm_compute; reflexivity|].
  split; [reflexivity|].
  apply (conservation supply_day supply_day_solution 0 23).
  - reflexivity.
  - vm_compute; reflexivity.
  - split; [lia|reflexivity].
  - split; [lia|reflexivity].
Defined.

(** ** C6: which start indicators are the constant 0 *)

Lemma in_entry_window_spec (data : Data) (e : Z) :
  in_entry_window data e = true <->
  livigno_entry_start_slot data <= e <= livigno_entry_end_slot data.
Proof. unfold in_entry_window. rewrite andb_true_iff, !Z.leb_le. tauto. Qed.

Lemma start_entry_cases (data : Data) (k : kind) (d x t : Z) :
  let is_open :=
    (x <? day_availability data k d)
    && (t + duration_slots data k <=? slots_per_day data)
    && match entry_offset_slots data k with
       | Some off => in_entry_window data (t + off)
       | None => true
       end in
  start_entry data k d x t =
  if is_open then
    Var match k with
        | K_S => vS d x t | K_U => vU d x t | K_V => vV d x t | K_A => vA d x t
        end
  else Const 0.
Proof.
  destruct k; cbn [start_entry day_availability duration_slots entry_offset_slots];
    unfold S_start, U_start, V_start, A_start, S_open, U_open, V_open, A_open,
      available_T, available_L;
    rewrite ?andb_true_r; reflexivity.
Qed.

(** C6. For every kind, day, driver index and slot, the start indicator is
    the constant 0 exactly when the driver index is at or above the day's
    availability, or the task would end after the last slot, or the kind
    has an entry anchor and the anchor slot is outside the entry window;
    the supply kind has no anchor, so only the first two apply to it.  A
    constant entry has value 0 in every assignment. *)
Theorem start_forced_to_zero (data : Data) (k : kind) (d x t : Z) :
  (start_entry data k d x t = Const 0 <->
     day_availability data k d <= x
     \/ slots_per_day data < t + duration_slots data k
     \/ anchor_outside data k t)
  /\ (start_entry data k d x t = Const 0 ->
      forall a, eval a (start_entry data k d x t) = 0)
  /\ (start_entry data K_S d x t = Const 0 <->
     D_T (day_at (days data) d) <= x
     \/ slots_per_day data < t + supply_slots data).
Proof.
  assert (Hgen : forall k',
    start_entry data k' d x t = Const 0 <->
     day_availability data k' d <= x
     \/ slots_per_day data < t + duration_slots data k'
     \/ anchor_outside data k' t).
  { intros k'. rewrite start_entry_cases. cbv zeta.
    destruct (Z.ltb_spec x (day_availability data k' d)) as [Hx|Hx];
    destruct (Z.leb_spec (t + duration_slots data k') (slots_per_day data)) as [Ht|Ht];
    cbn [andb]; try (split; [intros _; lia|reflexivity]).
    unfold anchor_outside.
    destruct (entry_offset_slots data k') as [off|] eqn:Hoff.
    - destruct (in_entry_window data (t + off)) eqn:Hw.
      + apply in_entry_window_spec in Hw. split; [discriminate|].
        intros [H|[H|[off' [Heq Hout]]]]; try lia.
        injection Heq as <-. contradiction.
      + split; [|reflexivity]. intros _. right. right.
        exists off. split; [reflexivity|].
        intros Hin. apply in_entry_window_spec in Hin. congruence.
    - split; [discriminate|].
      intros [H|[H|[off' [Heq _]]]]; try lia. discriminate. }
  split; [apply Hgen|]. split.
  - intros -> a. reflexivity.
  - rewrite (Hgen K_S). cbn [day_availability duration_slots].
    unfold anchor_outside. cbn [entry_offset_slots].
    split; [intros [H|[H|[off [Heq _]]]]; [tauto|tauto|discriminate]|tauto].
Qed.

(** An early shuttle start of an available driver: the anchor slot 0 + 8
    is inside the default window, the entry is a variable; from slot 33 on
    the task no longer fits and the entry is the constant 0. *)
Lemma start_forced_to_zero_witness :
  start_entry supply_day K_U 0 0 33 = Const 0
  /\ start_entry supply_day K_U 0 0 0 <> Const 0
  /\ start_entry supply_day K_S 0 1 0 = Const 0.
Proof.
  split; [|split].
  - apply (proj1 (start_forced_to_zero supply_day K_U 0 0 33)).
    right; left. reflexivity.
  - intros H.
    apply (proj1 (start_forced_to_zero supply_day K_U 0 0 0)) in H.
    destruct H as [H|[H|[off [Heq Hout]]]].
    + vm_compute in H. apply H. reflexivity.
    + vm_compute in H. discriminate H.
    + injection Heq as <-. apply Hout. vm_compute. split; discriminate.
  - apply (proj1 (start_forced_to_zero supply_day K_S 0 1 0)).
    left. vm_compute. discriminate.
Defined.

(** ** C5: a day without drivers *)

Lemma offsets_nonneg (data : Data) :
  0 < slot_minutes data ->
  0 <= supply_end_offset data /\ 0 <= shuttle_end_offset data
  /\ 0 <= refill_end_offset data /\ 0 <= resident_refill_start_offset data
  /\ 0 <= resident_refill_end_offset data /\ 0 <= adr_refill_start_offset data
  /\ 0 <= adr_supply_end_offset data.
Proof.
  intros H.
  unfold adr_supply_end_offset, supply_end_offset, shuttle_end_offset,
    refill_end_offset, resident_refill_start_offset, resident_refill_end_offset,
    adr_refill_start_offset, supply_slots, shuttle_slots, refill_slots.
  pose proof (Z.div_pos 345 _ ltac:(lia) H).
  pose proof (Z.div_pos 240 _ ltac:(lia) H).
  pose proof (Z.div_pos 30 _ ltac:(lia) H).
  pose proof (Z.div_pos 90 _ ltac:(lia) H).
  pose proof (Z.div_pos (90 + 30) _ ltac:(lia) H).
  lia.
Qed.

Lemma lag_zero (k : Z) (f : Z -> Z) (t hi : Z) :
  0 <= k -> t < hi -> (forall x, 0 <= x < hi -> f x = 0) -> lag k f t = 0.
Proof.
  intros Hk Ht Hf. unfold lag.
  destruct (Z.leb_spec 0 (t - k)); [apply Hf; lia|reflexivity].
Qed.

Lemma unavailable_T (data : Data) (a : assignment) (d i t : Z) :
  D_T (day_at (days data) d) <= i ->
  eval a (S_start data d i t) = 0 /\ eval a (U_start data d i t) = 0.
Proof.
  intros H. unfold S_start, U_start, S_open, U_open, available_T.
  destruct (Z.ltb_spec i (D_T (day_at (days data) d))); [lia|].
  split; reflexivity.
Qed.

Lemma unavailable_L (data : Data) (a : assignment) (d j t : Z) :
  D_L (day_at (days data) d) <= j ->
  eval a (V_start data d j t) = 0 /\ eval a (A_start data d j t) = 0.
Proof.
  intros H. unfold V_start, A_start, V_open, A_open, available_L.
  destruct (Z.ltb_spec j (D_L (day_at (days data) d))); [lia|].
  split; reflexivity.
Qed.

Lemma zsum_map_zero {A} (f : A -> Z) (l : list A) :
  (forall x, In x l -> f x = 0) -> zsum (map f l) = 0.
Proof.
  intros H. apply zsum_zero. intros y Hy.
  apply in_map_iff in Hy as [x [<- Hx]]. auto.
Qed.

(** With no start in the day, every boundary carries the first one's
    inventory. *)
Lemma still_inventory (data : Data) (a : assignment) (d : Z) :
  0 < slot_minutes data ->
  feasible (build_model data) a = true ->
  0 <= d < n data ->
  (forall t, 0 <= t < slots_per_day data ->
     S_sum data a d t = 0 /\ U_sum data a d t = 0 /\ V_sum data a d t = 0
     /\ A_sum data a d t = 0 /\ R_val a d t = 0) ->
  forall t, 0 <= t <= slots_per_day data ->
    a (vFT d t) = a (vFT d 0) /\ a (vET d t) = a (vET d 0)
    /\ a (vTf d t) = a (vTf d 0) /\ a (vTe d t) = a (vTe d 0).
Proof.
  intros Hslot Hf Hd Hzero t [Ht0 Ht1]. revert Ht1.
  pattern t. apply natlike_ind; [tauto| |exact Ht0].
  clear t Ht0. intros t Ht0 IH Ht1.
  destruct IH as (IH1 & IH2 & IH3 & IH4); [lia|].
  destruct (feasible_slot data a d t Hf Hd ltac:(lia)) as
    [_ _ _ _ HFT HET HTf HTe _ _].
  destruct (offsets_nonneg data Hslot) as (O1 & O2 & O3 & O4 & O5 & O6 & O7).
  destruct (Hzero t ltac:(lia)) as (Z1 & Z2 & Z3 & Z4 & Z5).
  assert (L : forall k f, 0 <= k ->
             (forall x, 0 <= x < slots_per_day data -> f x = 0) -> lag k f t = 0).
  { intros k f Hk Hz. apply (lag_zero k f t (slots_per_day data)); auto. lia. }
  assert (LS : forall k, 0 <= k -> lag k (S_sum data a d) t = 0)
    by (intros; apply L; auto; intros; apply Hzero; auto).
  assert (LU : forall k, 0 <= k -> lag k (U_sum data a d) t = 0)
    by (intros; apply L; auto; intros; apply Hzero; auto).
  assert (LV : forall k, 0 <= k -> lag k (V_sum data a d) t = 0)
    by (intros; apply L; auto; intros; apply Hzero; auto).
  assert (LA : forall k, 0 <= k -> lag k (A_sum data a d) t = 0)
    by (intros; apply L; auto; intros; apply Hzero; auto).
  assert (LR : forall k, 0 <= k -> lag k (R_val a d) t = 0)
    by (intros; apply L; auto; intros; apply Hzero; auto).
  pose proof (LS _ O1). pose proof (LU _ O2). pose proof (LR _ O3).
  pose proof (LV _ O4). pose proof (LV _ O5). pose proof (LA _ O6).
  pose proof (LA _ O7).
  unfold Z.succ. lia.
Qed.

(** C5, as the model has it.  On a day with [D_T = 0] and [D_L = 0] every
    S, U, V and A start is 0 in every solution; refills need no driver and
    are not forced to 0; when the day has no refill start either, the
    inventory at the last boundary equals the inventory at the first. *)
Theorem idle_day_starts (data : Data) (a : assignment) (d : Z) :
  0 < slot_minutes data ->
  feasible (build_model data) a = true ->
  0 <= d < n data ->
  D_T (day_at (days data) d) = 0 -> D_L (day_at (days data) d) = 0 ->
  (forall i t, 0 <= i < drivers_T_base data -> 0 <= t < slots_per_day data ->
     eval a (S_start data d i t) = 0 /\ eval a (U_start data d i t) = 0)
  /\ (forall j t, 0 <= j < drivers_L_base data -> 0 <= t < slots_per_day data ->
     eval a (V_start data d j t) = 0 /\ eval a (A_start data d j t) = 0)
  /\ ((forall t, 0 <= t < slots_per_day data -> R_val a d t = 0) ->
      0 <= slots_per_day data ->
      a (vFT d (slots_per_day data)) = a (vFT d 0)
      /\ a (vET d (slots_per_day data)) = a (vET d 0)
      /\ a (vTf d (slots_per_day data)) = a (vTf d 0)
      /\ a (vTe d (slots_per_day data)) = a (vTe d 0)).
Proof.
  intros Hslot Hf Hd HT HL.
  split; [|split].
  - intros i t Hi _. apply unavailable_T. lia.
  - intros j t Hj _. apply unavailable_L. lia.
  - intros HR Hspd.
    apply (still_inventory data a d Hslot Hf Hd); [|lia].
    intros t Ht. unfold S_sum, U_sum, V_sum, A_sum.
    repeat split; try (apply HR; exact Ht);
      apply zsum_map_zero; intros x Hx; apply In_range in Hx;
      first [apply unavailable_T|apply unavailable_L]; lia.
Qed.

Lemma idle_day_starts_witness :
  feasible (build_model idle_day) idle_day_rest = true
  /\ idle_day_rest (vFT 0 (slots_per_day idle_day)) = idle_day_rest (vFT 0 0).
Proof.
  split; [vm_compute; reflexivity|].
  apply (idle_day_starts idle_day idle_day_rest 0).
  - reflexivity.
  - vm_compute; reflexivity.
  - split; [lia|reflexivity].
  - reflexivity.
  - reflexivity.
  - intros t _. reflexivity.
  - discriminate.
Defined.

(** On the idle day a refill may start in slot 0: the refill count is not
    0 and the full trailer is gone at the end of the day. *)
Lemma idle_day_refill_counterexample :
  D_T (day_at (days idle_day) 0) = 0
  /\ D_L (day_at (days idle_day) 0) = 0
  /\ feasible (build_model idle_day) idle_day_refill = true
  /\ idle_day_refill (vR 0 0) = 1
  /\ idle_day_refill (vFT 0 (slots_per_day idle_day)) <> idle_day_refill (vFT 0 0)
  /\ ~ nothing_happens idle_day idle_day_refill 0.
Proof.
  split; [reflexivity|]. split; [reflexivity|].
  split; [vm_compute; reflexivity|]. split; [reflexivity|].
  split; [vm_compute; discriminate|].
  intros (_ & _ & HR & _).
  specialize (HR 0 ltac:(split; [lia|reflexivity])). discriminate HR.
Qed.

(** ** Variable domains *)

Lemma inventory_domain (data : Data) (a : assignment) (d t : Z) :
  feasible (build_model data) a = true ->
  0 <= d < n data -> 0 <= t <= slots_per_day data ->
  0 <= a (vFT d t) <= total_trailers data
  /\ 0 <= a (vET d t) <= total_trailers data
  /\ 0 <= a (vTf d t) <= total_tractors data
  /\ 0 <= a (vTe d t) <= total_tractors data.
Proof.
  intros Hf Hd Ht.
  pose proof (ok_day_variables _ _ (feasible_blocks _ _ Hf) d Hd) as Hv.
  unfold day_variables in Hv.
  rewrite !feasible_app, !andb_true_iff, !feasible_map in Hv.
  destruct Hv as (H1 & H2 & H3 & H4 & _).
  assert (Hin : In t (range 0 (slots_per_day data + 1))) by (apply In_range; lia).
  specialize (H1 t Hin). specialize (H2 t Hin).
  specialize (H3 t Hin). specialize (H4 t Hin).
  cbn [item_ok] in *. lia.
Qed.

Lemma refill_domain (data : Data) (a : assignment) (d t : Z) :
  feasible (build_model data) a = true ->
  0 <= d < n data -> 0 <= t < slots_per_day data ->
  0 <= R_val a d t <= total_trailers data.
Proof.
  intros Hf Hd Ht.
  pose proof (ok_day_variables _ _ (feasible_blocks _ _ Hf) d Hd) as Hv.
  unfold day_variables in Hv.
  rewrite !feasible_app, !andb_true_iff, !feasible_map in Hv.
  destruct Hv as (_ & _ & _ & _ & H5 & _).
  specialize (H5 t (proj2 (In_range _ _ _) Ht)).
  cbn [item_ok] in *. unfold R_val. lia.
Qed.

Lemma first_boundary (data : Data) (a : assignment) :
  feasible (build_model data) a = true -> 0 < n data ->
  a (vFT 0 0) = init_FT data /\ a (vET 0 0) = init_ET data
  /\ a (vTf 0 0) = init_Tf data /\ a (vTe 0 0) = init_Te data.
Proof.
  intros Hf Hn.
  pose proof (ok_day_inventory _ _ (feasible_blocks _ _ Hf) 0 ltac:(lia)) as Hi.
  unfold day_inventory in Hi. rewrite feasible_app, andb_true_iff in Hi.
  destruct Hi as [Hi _]. unfold day_boundary, feasible in Hi.
  cbn [Z.eqb forallb item_ok holds eval FT ET Tf Te] in Hi. lia.
Qed.

Lemma next_day_boundary (data : Data) (a : assignment) (d : Z) :
  feasible (build_model data) a = true -> 0 < d < n data ->
  a (vFT d 0) = a (vFT (d - 1) (slots_per_day data))
  /\ a (vET d 0) = a (vET (d - 1) (slots_per_day data))
  /\ a (vTf d 0) = a (vTf (d - 1) (slots_per_day data))
  /\ a (vTe d 0) = a (vTe (d - 1) (slots_per_day data)).
Proof.
  intros Hf Hd.
  pose proof (ok_day_inventory _ _ (feasible_blocks _ _ Hf) d ltac:(lia)) as Hi.
  unfold day_inventory in Hi. rewrite feasible_app, andb_true_iff in Hi.
  destruct Hi as [Hi _]. unfold day_boundary, feasible in Hi.
  destruct (Z.eqb_spec d 0); [lia|].
  cbn [forallb item_ok holds eval FT ET Tf Te] in Hi. lia.
Qed.

(** ** C7: on-site totals *)

(** The totals are bounded at every boundary a slot leads to, and at the
    first boundary of every later day when days have a slot. *)
Lemma totals_bounded (data : Data) (a : assignment) (d t : Z) :
  feasible (build_model data) a = true ->
  0 <= d < n data -> 0 <= t <= slots_per_day data ->
  0 < t \/ (0 < d /\ 0 < slots_per_day data) ->
  a (vFT d t) + a (vET d t) <= total_trailers data
  /\ a (vTf d t) + a (vTe d t) <= total_tractors data.
Proof.
  intros Hf Hd Ht Hcase.
  assert (Hpos : forall d' t', 0 <= d' < n data -> 0 < t' <= slots_per_day data ->
            a (vFT d' t') + a (vET d' t') <= total_trailers data
            /\ a (vTf d' t') + a (vTe d' t') <= total_tractors data).
  { intros d' t' Hd' Ht'.
    destruct (feasible_slot data a d' (t' - 1) Hf Hd' ltac:(lia)) as
      [_ _ _ _ _ _ _ _ H1 H2].
    replace (t' - 1 + 1) with t' in * by lia. split; assumption. }
  destruct (Z.eq_dec t 0) as [->|Hne]; [|apply Hpos; lia].
  destruct Hcase as [Hc|[Hc1 Hc2]]; [lia|].
  destruct (next_day_boundary data a d Hf ltac:(lia)) as (E1 & E2 & E3 & E4).
  rewrite E1, E2, E3, E4. apply Hpos; lia.
Qed.

(** With the totals left at their defaults the first boundary of day 0 is
    within them as well. *)
Lemma first_boundary_default_totals (data : Data) (a : assignment) :
  feasible (build_model data) a = true -> 0 < n data ->
  assoc "total_trailers" (options data) = None ->
  assoc "total_tractors" (options data) = None ->
  a (vFT 0 0) + a (vET 0 0) <= total_trailers data
  /\ a (vTf 0 0) + a (vTe 0 0) <= total_tractors data.
Proof.
  intros Hf Hn H1 H2.
  destruct (first_boundary data a Hf Hn) as (E1 & E2 & E3 & E4).
  unfold total_trailers, total_tractors, get. rewrite H1, H2. lia.
Qed.

(** C7 at the first boundary of day 0: four trailers on site, three
    allowed.  The request has a solution, and every solution of it holds
    the four trailers at boundary 0. *)
Theorem overfull_first_boundary :
  total_trailers overfull_day = 3
  /\ feasible (build_model overfull_day) overfull_day_solution = true
  /\ overfull_day_solution (vFT 0 0) + overfull_day_solution (vET 0 0) = 4
  /\ forall a, feasible (build_model overfull_day) a = true ->
       total_trailers overfull_day < a (vFT 0 0) + a (vET 0 0).
Proof.
  split; [reflexivity|]. split; [vm_compute; reflexivity|].
  split; [reflexivity|].
  intros a Hf.
  destruct (first_boundary overfull_day a Hf ltac:(reflexivity)) as (E1 & E2 & _).
  rewrite E1, E2. reflexivity.
Qed.

(** ** The reporter *)

Lemma mapM_Ok {A B} (f : A -> result B) (g : A -> B) (l : list A) :
  (forall x, In x l -> f x = Ok (g x)) -> mapM f l = Ok (map g l).
Proof.
  induction l as [|x l IH]; intros H; [reflexivity|].
  cbn [mapM map]. rewrite (H x (or_introl eq_refl)). cbn [bind].
  rewrite IH; [reflexivity|]. intros y Hy. apply H. now right.
Qed.

Lemma mapM_Raise {A B} (f : A -> result B) (e : error) (x : A) (l : list A) :
  f x = Raise e -> mapM f (x :: l) = Raise e.
Proof. intros H. cbn [mapM]. rewrite H. reflexivity. Qed.

Lemma value_reading (r : Response) (e : expr) :
  value r e = Ok (eval (reading r) e).
Proof. reflexivity. Qed.

Lemma value_Some (r : Response) (a : assignment) (e : expr) :
  solution r = Some a -> value r e = Ok (eval a e).
Proof. intros H. unfold value, reading. now rewrite H. Qed.

(** With a solution at hand every lookup of the reporter succeeds. *)
Lemma day_out_Ok (data : Data) (r : Response) (a : assignment) (d : Z) :
  solution r = Some a -> exists o, day_out data r d = Ok o.
Proof.
  intros H. unfold day_out, count_starts, driver_starts.
  rewrite !(mapM_Ok (value r) (eval a)) by (intros; apply value_Some; exact H).
  cbn [bind].
  rewrite (mapM_Ok _ (fun t => eval a (R_start d t)))
    by (intros; apply value_Some; exact H).
  cbn [bind].
  rewrite (mapM_Ok _ (fun i => concat (map (fun t =>
             (if eval a (S_start data d i t) =? 0 then [] else [mkStart "S" t])
             ++ (if eval a (U_start data d i t) =? 0 then [] else [mkStart "U" t]))
             (range 0 (slots_per_day data))))).
  2:{ intros i _.
      rewrite (mapM_Ok _ (fun t =>
             (if eval a (S_start data d i t) =? 0 then [] else [mkStart "S" t])
             ++ (if eval a (U_start data d i t) =? 0 then [] else [mkStart "U" t]))).
      - reflexivity.
      - intros t _. rewrite !(value_Some r a) by exact H. reflexivity. }
  cbn [bind].
  rewrite (mapM_Ok _ (fun j => concat (map (fun t =>
             (if eval a (V_start data d j t) =? 0 then [] else [mkStart "V" t])
             ++ (if eval a (A_start data d j t) =? 0 then [] else [mkStart "A" t]))
             (range 0 (slots_per_day data))))).
  2:{ intros j _.
      rewrite (mapM_Ok _ (fun t =>
             (if eval a (V_start data d j t) =? 0 then [] else [mkStart "V" t])
             ++ (if eval a (A_start data d j t) =? 0 then [] else [mkStart "A" t]))).
      - reflexivity.
      - intros t _. rewrite !(value_Some r a) by exact H. reflexivity. }
  cbn [bind]. rewrite !(value_Some r a) by exact H. cbn [bind].
  eexists. reflexivity.
Qed.

(** The report of the supply day: the driver's starts in slot order, and
    the inventory at the two ends of the day. *)
Example supply_day_report :
  exists r, solve (fun _ => mkResponse FEASIBLE (Some supply_day_solution)) supply_day
            = Ok r
    /\ status r = "FEASIBLE"%string
    /\ objective_deliveries r = 1 /\ objective_liters r = 17500
    /\ map drivers_T (result_days r)
       = [[[mkStart "S" 0; mkStart "U" 24]; []; []; []]]
    /\ map (fun o => (FT_start o, ET_start o, Tf_start o, Te_start o))
           (result_days r) = [(0, 1, 1, 1)]
    /\ map (fun o => (FT_end o, ET_end o, Tf_end o, Te_end o))
           (result_days r) = [(1, 0, 1, 1)].
Proof.
  destruct (solve _ supply_day) as [r|e] eqn:E.
  - exists r. split; [reflexivity|].
    revert E. vm_compute. intros E. injection E as <-.
    repeat split; reflexivity.
  - revert E. vm_compute. discriminate.
Qed.

(** ** C2: a request without solution *)


(** Every lookup of the reporter succeeds: a day's record is the report
    of the values the response is read with. *)
Lemma day_out_reading (data : Data) (r : Response) (d : Z) :
  day_out data r d = Ok (day_report data (reading r) d).
Proof.
  unfold day_out, count_starts, driver_starts.
  rewrite !(mapM_Ok (value r) (eval (reading r)))
    by (intros; apply value_reading).
  cbn [bind].
  rewrite (mapM_Ok _ (fun t => reading r (vR d t)))
    by (intros t _; exact (value_reading r (R_start d t))).
  cbn [bind].
  rewrite (mapM_Ok _ (fun i => driver_report (reading r) "S" "U"
                                 (S_start data d i) (U_start data d i)
                                 (slots_per_day data))).
  2:{ intros i _. unfold driver_report.
      rewrite (mapM_Ok _ (fun t =>
             (if eval (reading r) (S_start data d i t) =? 0
              then [] else [mkStart "S" t])
             ++ (if eval (reading r) (U_start data d i t) =? 0
                 then [] else [mkStart "U" t]))).
      - reflexivity.
      - intros t _. rewrite !value_reading. reflexivity. }
  cbn [bind].
  rewrite (mapM_Ok _ (fun j => driver_report (reading r) "V" "A"
                                 (V_start data d j) (A_start data d j)
                                 (slots_per_day data))).
  2:{ intros j _. unfold driver_report.
      rewrite (mapM_Ok _ (fun t =>
             (if eval (reading r) (V_start data d j t) =? 0
              then [] else [mkStart "V" t])
             ++ (if eval (reading r) (A_start data d j t) =? 0
                 then [] else [mkStart "A" t]))).
      - reflexivity.
      - intros t _. rewrite !value_reading. reflexivity. }
  cbn [bind]. rewrite !value_reading. cbn [bind].
  reflexivity.
Qed.






(** [solve] returns once the grid is sound and the solver has a solution. *)
Lemma solve_returns (data : Data) (solver : CpSolver) (a : assignment) :
  0 < slot_minutes data -> 0 <= shift_minutes data ->
  solution (solver (build_model data)) = Some a ->
  exists r, solve solver data = Ok r
    /\ status r = STATUS_MAP (status_code (solver (build_model data)))
    /\ (has_solution_status (status r) = true ->
        objective_deliveries r = a v_total_deliveries).
Proof.
  intros Hslot Hshift Ha. unfold solve.
  destruct (Z.eqb_spec (slot_minutes data) 0) as [E|_]; [lia|].
  assert (Hspd : 0 <= slots_per_day data) by (apply Z.div_pos; assumption).
  unfold subscript_out_of_range.
  destruct (Z.ltb_spec (slots_per_day data) 0) as [E|_]; [lia|].
  destruct (Z.ltb_spec (slot_minutes data) 0) as [E|_]; [lia|].
  rewrite andb_false_r, andb_false_r. cbv zeta.
  rewrite mapM_Ok with (g := fun d =>
             match day_out data (solver (build_model data)) d with
             | Ok o => o
             | Raise _ => mkDayOut 0 0 0 0 0 0 0 0 [] [] 0 0 0 0 0 0 0 0
             end).
  2:{ intros d _. destruct (day_out_Ok data _ a d Ha) as [o ->]. reflexivity. }
  cbn [bind]. rewrite (value_Some _ a) by exact Ha.
  destruct (has_solution_status _) eqn:Hs; cbn [bind]; eexists;
    (split; [reflexivity|]); cbn [status objective_deliveries];
    (split; [reflexivity|]); rewrite Hs; [reflexivity|discriminate].
Qed.

(** What a returned result carries. *)
Lemma solve_Ok_inv (data : Data) (solver : CpSolver) (r : SolveResult) :
  solve solver data = Ok r ->
  status r = STATUS_MAP (status_code (solver (build_model data)))
  /\ objective_liters r = objective_deliveries r * liters_per_unit data
  /\ (has_solution_status (status r) = false -> objective_deliveries r = 0)
  /\ (has_solution_status (status r) = true ->
      objective_deliveries r
      = reading (solver (build_model data)) v_total_deliveries).
Proof.
  unfold solve.
  destruct (slot_minutes data =? 0); [discriminate|].
  destruct (subscript_out_of_range data); [discriminate|].
  cbv zeta. destruct (mapM _ _) as [os|e]; [|discriminate]. cbn [bind].
  rewrite value_reading.
  destruct (has_solution_status _) eqn:Hs; cbn [bind]; intros [= <-];
    cbn [status objective_deliveries objective_liters];
    rewrite Hs; repeat split; try discriminate; reflexivity.
Qed.

(** With a sound solver, a status OPTIMAL or FEASIBLE comes with the
    solution the result was read from. *)
Lemma sound_solution (data : Data) (solver : CpSolver) (r : SolveResult) :
  solve solver data = Ok r ->
  sound_response (build_model data) (solver (build_model data)) ->
  has_solution_status (status r) = true ->
  exists a, solution (solver (build_model data)) = Some a
    /\ feasible (build_model data) a = true
    /\ objective_deliveries r = a v_total_deliveries.
Proof.
  intros Hr Hsound Hs.
  destruct (solve_Ok_inv _ _ _ Hr) as (Hst & _ & _ & Hyes).
  specialize (Hyes Hs). rewrite Hst in Hs.
  unfold sound_response in Hsound. unfold reading in Hyes.
  destruct (status_code (solver (build_model data)));
    try (cbn in Hs; discriminate);
    destruct Hsound as (a & Ha & Hf); rewrite Ha in Hyes; eauto.
Qed.

(** ** C3: slot sizes that do not divide the durations *)

Lemma floor_slots (m s : Z) : 0 < s -> s * (m / s) <= m < s * (m / s + 1).
Proof.
  intros H. pose proof (Z.mul_div_le m s H).
  pose proof (Z.mul_succ_div_gt m s H). lia.
Qed.





(** ** Per-driver blocks and the domains of the start indicators *)

Lemma tirano_driver_ok (data : Data) (a : assignment) (d i : Z) :
  feasible (build_model data) a = true ->
  0 <= d < n data -> 0 <= i < drivers_T_base data ->
  feasible (tirano_driver data d i) a = true.
Proof.
  intros Hf Hd Hi.
  pose proof (ok_day_variables _ _ (feasible_blocks _ _ Hf) d Hd) as Hv.
  unfold day_variables in Hv.
  rewrite !feasible_app, !andb_true_iff in Hv.
  destruct Hv as (_ & _ & _ & _ & _ & HT & _).
  rewrite feasible_flat_map in HT. apply HT, In_range. exact Hi.
Qed.

Lemma livigno_driver_ok (data : Data) (a : assignment) (d j : Z) :
  feasible (build_model data) a = true ->
  0 <= d < n data -> 0 <= j < drivers_L_base data ->
  feasible (livigno_driver data d j) a = true.
Proof.
  intros Hf Hd Hj.
  pose proof (ok_day_variables _ _ (feasible_blocks _ _ Hf) d Hd) as Hv.
  unfold day_variables in Hv.
  rewrite !feasible_app, !andb_true_iff in Hv.
  destruct Hv as (_ & _ & _ & _ & _ & _ & HL).
  rewrite feasible_flat_map in HL. apply HL, In_range. exact Hj.
Qed.

Lemma new_start_domain (a : assignment) (b : bool) (v : var) :
  item_ok a (new_start b v) = true -> 0 <= eval a (if b then Var v else Const 0) <= 1.
Proof. destruct b; cbn [new_start item_ok eval]; lia. Qed.

Lemma start_domain_T (data : Data) (a : assignment) (d i t : Z) :
  feasible (build_model data) a = true ->
  0 <= d < n data -> 0 <= i < drivers_T_base data ->
  0 <= t < slots_per_day data ->
  0 <= eval a (S_start data d i t) <= 1 /\ 0 <= eval a (U_start data d i t) <= 1.
Proof.
  intros Hf Hd Hi Ht.
  pose proof (tirano_driver_ok data a d i Hf Hd Hi) as H.
  unfold tirano_driver in H. rewrite !feasible_app, !andb_true_iff in H.
  destruct H as (H & _). rewrite feasible_flat_map in H.
  specialize (H t (proj2 (In_range _ _ _) Ht)).
  unfold feasible in H. cbn [forallb] in H.
  rewrite !andb_true_iff in H. destruct H as (H1 & H2 & _).
  split; [exact (new_start_domain _ _ _ H1)|exact (new_start_domain _ _ _ H2)].
Qed.

Lemma start_domain_L (data : Data) (a : assignment) (d j t : Z) :
  feasible (build_model data) a = true ->
  0 <= d < n data -> 0 <= j < drivers_L_base data ->
  0 <= t < slots_per_day data ->
  0 <= eval a (V_start data d j t) <= 1 /\ 0 <= eval a (A_start data d j t) <= 1.
Proof.
  intros Hf Hd Hj Ht.
  pose proof (livigno_driver_ok data a d j Hf Hd Hj) as H.
  unfold livigno_driver in H. rewrite !feasible_app, !andb_true_iff in H.
  destruct H as (H & _). rewrite feasible_flat_map in H.
  specialize (H t (proj2 (In_range _ _ _) Ht)).
  unfold feasible in H. cbn [forallb] in H.
  rewrite !andb_true_iff in H. destruct H as (H1 & H2 & _).
  split; [exact (new_start_domain _ _ _ H1)|exact (new_start_domain _ _ _ H2)].
Qed.

Lemma zsum_map_nonneg {A} (f : A -> Z) (l : list A) :
  (forall x, In x l -> 0 <= f x) -> 0 <= zsum (map f l).
Proof.
  intros H. apply zsum_nonneg. intros y Hy.
  apply in_map_iff in Hy as [x [<- Hx]]. auto.
Qed.

Lemma zsum_map_zero_inv {A} (f : A -> Z) (l : list A) :
  (forall x, In x l -> 0 <= f x) -> zsum (map f l) = 0 ->
  forall x, In x l -> f x = 0.
Proof.
  induction l as [|y l IH]; intros Hn Hz x Hx; [destruct Hx|].
  cbn [map zsum fold_right] in Hz. fold (zsum (map f l)) in Hz.
  assert (0 <= zsum (map f l)) by (apply zsum_map_nonneg; intros; apply Hn; now right).
  pose proof (Hn y (or_introl eq_refl)).
  destruct Hx as [<-|Hx]; [lia|].
  apply IH; auto; [intros; apply Hn; now right|lia].
Qed.

Lemma sums_nonneg (data : Data) (a : assignment) (d t : Z) :
  feasible (build_model data) a = true ->
  0 <= d < n data -> 0 <= t < slots_per_day data ->
  0 <= S_sum data a d t /\ 0 <= U_sum data a d t
  /\ 0 <= V_sum data a d t /\ 0 <= A_sum data a d t.
Proof.
  intros Hf Hd Ht. unfold S_sum, U_sum, V_sum, A_sum.
  repeat split; apply zsum_map_nonneg; intros x Hx; apply In_range in Hx.
  - apply (start_domain_T data a d x t); assumption.
  - apply (start_domain_T data a d x t); assumption.
  - apply (start_domain_L data a d x t); assumption.
  - apply (start_domain_L data a d x t); assumption.
Qed.

(** ** C4: no trailer and no free tractor *)

Lemma offsets_15 (data : Data) :
  slot_minutes data = 15 ->
  supply_end_offset data = 23 /\ shuttle_end_offset data = 16
  /\ refill_end_offset data = 2 /\ resident_refill_start_offset data = 6
  /\ resident_refill_end_offset data = 8 /\ adr_refill_start_offset data = 6
  /\ adr_supply_end_offset data = 29
  /\ resident_slots data = 18 /\ adr_slots data = 39.
Proof.
  intros H.
  unfold adr_supply_end_offset, supply_end_offset, shuttle_end_offset,
    refill_end_offset, resident_refill_start_offset, resident_refill_end_offset,
    adr_refill_start_offset, supply_slots, shuttle_slots, refill_slots,
    resident_slots, adr_slots.
  rewrite H. repeat split; reflexivity.
Qed.

Lemma lag_cases (k : Z) (f : Z -> Z) (t : Z) :
  (0 <= t - k /\ lag k f t = f (t - k)) \/ (t - k < 0 /\ lag k f t = 0).
Proof.
  unfold lag. destruct (Z.leb_spec 0 (t - k)); [left|right]; split; auto.
Qed.

(** A day that starts without trailers and free tractors stays without
    them, and up to each boundary nothing has drawn on them. *)
Lemma dry_day (data : Data) (a : assignment) (d : Z) :
  slot_minutes data = 15 ->
  feasible (build_model data) a = true ->
  0 <= d < n data ->
  a (vFT d 0) = 0 -> a (vET d 0) = 0 -> a (vTf d 0) = 0 ->
  forall t, 0 <= t <= slots_per_day data ->
    a (vFT d t) = 0 /\ a (vET d t) = 0 /\ a (vTf d t) = 0
    /\ (forall t', 0 <= t' < t ->
          S_sum data a d t' = 0 /\ U_sum data a d t' = 0 /\ R_val a d t' = 0)
    /\ (forall t', 0 <= t' -> t' + 6 < t ->
          V_sum data a d t' = 0 /\ A_sum data a d t' = 0).
Proof.
  intros Hslot Hf Hd HFT0 HET0 HTf0 t [Ht0 Ht1]. revert Ht1.
  pattern t. apply natlike_ind; [| |exact Ht0].
  { intros _. repeat split; auto; intros; lia. }
  clear t Ht0. intros t Ht0 IH Ht1. unfold Z.succ in *.
  destruct IH as (IH1 & IH2 & IH3 & IH4 & IH5); [lia|].
  destruct (offsets_15 data Hslot) as (O1 & O2 & O3 & O4 & O5 & O6 & O7 & _).
  destruct (feasible_slot data a d t Hf Hd ltac:(lia)) as
    [A1 A2 A3 A4 HFT HET HTf HTe _ _].
  rewrite O1, O7, O4 in HFT. rewrite O3, O5, O6 in HET. rewrite O1, O3 in HTf.
  destruct (sums_nonneg data a d t Hf Hd ltac:(lia)) as (N1 & N2 & _ & _).
  pose proof (refill_domain data a d t Hf Hd ltac:(lia)) as [N5 _].
  destruct (inventory_domain data a d (t + 1) Hf Hd ltac:(lia)) as
    ((D1 & _) & (D2 & _) & _).
  assert (LS : lag 23 (S_sum data a d) t = 0).
  { destruct (lag_cases 23 (S_sum data a d) t) as [[G ->]|[G ->]]; [|reflexivity].
    apply IH4. lia. }
  assert (LR : lag 2 (R_val a d) t = 0).
  { destruct (lag_cases 2 (R_val a d) t) as [[G ->]|[G ->]]; [|reflexivity].
    apply IH4. lia. }
  assert (LA29 : lag 29 (A_sum data a d) t = 0).
  { destruct (lag_cases 29 (A_sum data a d) t) as [[G ->]|[G ->]]; [|reflexivity].
    apply IH5; lia. }
  assert (LV8 : lag 8 (V_sum data a d) t = 0).
  { destruct (lag_cases 8 (V_sum data a d) t) as [[G ->]|[G ->]]; [|reflexivity].
    apply IH5; lia. }
  assert (LV6 : 0 <= lag 6 (V_sum data a d) t).
  { destruct (lag_cases 6 (V_sum data a d) t) as [[G ->]|[G ->]]; [|lia].
    apply (sums_nonneg data a d (t - 6) Hf Hd). lia. }
  assert (LA6 : 0 <= lag 6 (A_sum data a d) t).
  { destruct (lag_cases 6 (A_sum data a d) t) as [[G ->]|[G ->]]; [|lia].
    apply (sums_nonneg data a d (t - 6) Hf Hd). lia. }
  assert (ES : S_sum data a d t = 0) by lia.
  assert (EU : U_sum data a d t = 0) by lia.
  assert (ER : R_val a d t = 0) by lia.
  assert (EV : lag 6 (V_sum data a d) t = 0) by lia.
  assert (EA : lag 6 (A_sum data a d) t = 0) by lia.
  split; [lia|]. split; [lia|]. split; [lia|]. split.
  - intros t' Ht'. destruct (Z.eq_dec t' t) as [->|Hne]; [auto|apply IH4; lia].
  - intros t' Ht' Hlt. destruct (Z.eq_dec (t' + 6) t) as [E|Hne]; [|apply IH5; lia].
    destruct (lag_cases 6 (V_sum data a d) t) as [[G EV']|[G _]]; [|lia].
    destruct (lag_cases 6 (A_sum data a d) t) as [[_ EA']|[G' _]]; [|lia].
    replace (t - 6) with t' in * by lia. split; congruence.
Qed.

Lemma too_late_L (data : Data) (a : assignment) (d j t : Z) :
  (slots_per_day data < t + resident_slots data ->
   eval a (V_start data d j t) = 0)
  /\ (slots_per_day data < t + adr_slots data ->
      eval a (A_start data d j t) = 0).
Proof.
  unfold V_start, A_start, V_open, A_open.
  split; intros H.
  - destruct (Z.leb_spec (t + resident_slots data) (slots_per_day data)); [lia|].
    rewrite andb_false_r. reflexivity.
  - destruct (Z.leb_spec (t + adr_slots data) (slots_per_day data)); [lia|].
    rewrite andb_false_r. reflexivity.
Qed.

(** On such a day no delivery starts. *)
Lemma dry_day_no_delivery (data : Data) (a : assignment) (d : Z) :
  slot_minutes data = 15 ->
  feasible (build_model data) a = true ->
  0 <= d < n data ->
  a (vFT d 0) = 0 -> a (vET d 0) = 0 -> a (vTf d 0) = 0 ->
  (forall i t, 0 <= i < drivers_T_base data -> 0 <= t < slots_per_day data ->
     eval a (U_start data d i t) = 0)
  /\ (forall j t, 0 <= j < drivers_L_base data -> 0 <= t < slots_per_day data ->
     eval a (V_start data d j t) = 0 /\ eval a (A_start data d j t) = 0).
Proof.
  intros Hslot Hf Hd H1 H2 H3.
  destruct (offsets_15 data Hslot) as (_ & _ & _ & _ & _ & _ & _ & O8 & O9).
  split.
  - intros i t Hi Ht.
    destruct (dry_day data a d Hslot Hf Hd H1 H2 H3 (t + 1) ltac:(lia)) as
      (_ & _ & _ & P & _).
    destruct (P t ltac:(lia)) as (_ & EU & _).
    unfold U_sum in EU.
    apply (zsum_map_zero_inv (fun i => eval a (U_start data d i t))
             (range 0 (drivers_T_base data))); auto; [|now apply In_range].
    intros x Hx. apply In_range in Hx.
    apply (start_domain_T data a d x t); assumption.
  - intros j t Hj Ht.
    destruct (Z_lt_le_dec (t + 6) (slots_per_day data)) as [Hin|Hout].
    + destruct (dry_day data a d Hslot Hf Hd H1 H2 H3 (t + 7) ltac:(lia)) as
        (_ & _ & _ & _ & P).
      destruct (P t ltac:(lia) ltac:(lia)) as (EV & EA).
      unfold V_sum in EV. unfold A_sum in EA. split.
      * apply (zsum_map_zero_inv (fun j => eval a (V_start data d j t))
                 (range 0 (drivers_L_base data))); auto; [|now apply In_range].
        intros x Hx. apply In_range in Hx.
        apply (start_domain_L data a d x t); assumption.
      * apply (zsum_map_zero_inv (fun j => eval a (A_start data d j t))
                 (range 0 (drivers_L_base data))); auto; [|now apply In_range].
        intros x Hx. apply In_range in Hx.
        apply (start_domain_L data a d x t); assumption.
    + split; apply too_late_L; lia.
Qed.

Lemma eval_day_starts_zero (data : Data) (a : assignment)
      (starts : Z -> Z -> Z -> expr) (base d : Z) :
  (forall i t, 0 <= i < base -> 0 <= t < slots_per_day data ->
     eval a (starts d i t) = 0) ->
  eval a (day_starts data starts base d) = 0.
Proof.
  intros H. unfold day_starts. cbn [eval]. apply zsum_zero.
  intros y Hy. apply in_map_iff in Hy as [e [<- He]].
  apply in_flat_map in He as [i [Hi He]].
  apply in_map_iff in He as [t [<- Ht]].
  apply In_range in Hi. apply In_range in Ht. auto.
Qed.

(** No trailer and no free tractor at the start of the horizon: every
    solution has objective 0. *)
Lemma dry_objective (data : Data) (a : assignment) :
  slot_minutes data = 15 -> 0 <= slots_per_day data ->
  init_FT data = 0 -> init_ET data = 0 -> init_Tf data = 0 ->
  feasible (build_model data) a = true ->
  a v_total_deliveries = 0.
Proof.
  intros Hslot Hspd I1 I2 I3 Hf.
  assert (Hdry : forall d, 0 <= d < n data ->
            a (vFT d 0) = 0 /\ a (vET d 0) = 0 /\ a (vTf d 0) = 0).
  { intros d [Hd0 Hd1]. revert Hd1. pattern d.
    apply natlike_ind; [| |exact Hd0].
    - intros Hn. destruct (first_boundary data a Hf Hn) as (E1 & E2 & E3 & _).
      repeat split; congruence.
    - clear d Hd0. intros d Hd0 IH Hd1. unfold Z.succ in *.
      destruct IH as (J1 & J2 & J3); [lia|].
      destruct (next_day_boundary data a (d + 1) Hf ltac:(lia)) as (E1 & E2 & E3 & _).
      replace (d + 1 - 1) with d in * by lia.
      destruct (dry_day data a d Hslot Hf ltac:(lia) J1 J2 J3
                  (slots_per_day data) ltac:(lia)) as (K1 & K2 & K3 & _).
      repeat split; congruence. }
  pose proof (ok_objective _ _ (feasible_blocks _ _ Hf)) as Ho.
  unfold objective, feasible in Ho. cbn [forallb item_ok holds] in Ho.
  rewrite !andb_true_iff in Ho. destruct Ho as (_ & Ho & _).
  apply Z.eqb_eq in Ho. unfold total_deliveries in Ho. cbn [eval] in Ho.
  rewrite Ho. fold (eval a (deliveries_expr data)).
  unfold deliveries_expr. rewrite eval_Sum_map. apply zsum_map_zero.
  intros d Hd. apply In_range in Hd.
  destruct (Hdry d Hd) as (J1 & J2 & J3).
  destruct (dry_day_no_delivery data a d Hslot Hf Hd J1 J2 J3) as (NU & NVA).
  cbn [eval].
  rewrite !eval_day_starts_zero; [reflexivity| | |].
  - intros j t Hj Ht. apply (NVA j t Hj Ht).
  - intros j t Hj Ht. apply (NVA j t Hj Ht).
  - exact NU.
Qed.

Lemma has_solution_status_inv (st : cp_status) :
  has_solution_status (STATUS_MAP st) = true -> st = OPTIMAL \/ st = FEASIBLE.
Proof. destruct st; cbn; intros H; auto; discriminate. Qed.

(** C4, as the model has it.  A one-day request with default parameters
    whose initial state has no full trailer, no empty trailer and no free
    tractor (any engaged tractors, any driver availabilities) is reported
    with [objective_deliveries = 0]: every returned result carries 0, and
    a result is returned whenever the solver has a solution. *)
Theorem dry_request_objective (day : Day) (te : Z) (solver : CpSolver) :
  sound_response (build_model (dry_request day te))
                 (solver (build_model (dry_request day te))) ->
  (forall r, solve solver (dry_request day te) = Ok r ->
             objective_deliveries r = 0)
  /\ (forall a, solution (solver (build_model (dry_request day te))) = Some a ->
      exists r, solve solver (dry_request day te) = Ok r
                /\ objective_deliveries r = 0).
Proof.
  intros Hsound.
  assert (H1 : forall r, solve solver (dry_request day te) = Ok r ->
                         objective_deliveries r = 0).
  { intros r Hr.
    destruct (solve_Ok_inv _ _ _ Hr) as (Hst & _ & Hno & _).
    destruct (has_solution_status (status r)) eqn:Hs; [|auto].
    destruct (sound_solution _ _ _ Hr Hsound Hs) as (a & Ha & Hf & ->).
    apply (dry_objective (dry_request day te) a); try reflexivity;
      [discriminate|exact Hf]. }
  split; [exact H1|].
  intros a Ha.
  destruct (solve_returns (dry_request day te) solver a
              ltac:(reflexivity) ltac:(discriminate) Ha) as (r & Hr & _).
  exists r. split; [exact Hr|apply H1; exact Hr].
Qed.

Lemma dry_request_objective_witness :
  sound_response (build_model dry_sample) (dry_sample_solver (build_model dry_sample))
  /\ forall r, solve dry_sample_solver dry_sample = Ok r ->
               objective_deliveries r = 0.
Proof.
  assert (Hs : sound_response (build_model dry_sample)
                 (dry_sample_solver (build_model dry_sample))).
  { unfold sound_response, dry_sample_solver. cbn [status_code solution].
    eexists. split; [reflexivity|]. vm_compute. reflexivity. }
  split; [exact Hs|].
  exact (proj1 (dry_request_objective (mkDay 739040 1 1) 2 dry_sample_solver Hs)).
Defined.

(** With no trailer on site but one free tractor, a shuttle still runs: a
    solution delivers once, so the reported objective is 1 and no optimum
    is 0. *)
Lemma tractor_only_delivers :
  st_FT (initial_state tractor_only) = 0
  /\ st_ET (initial_state tractor_only) = 0
  /\ options tractor_only = []
  /\ n tractor_only = 1
  /\ feasible (build_model tractor_only) tractor_only_solution = true
  /\ (exists r, solve tractor_only_solver tractor_only = Ok r
                /\ objective_deliveries r = 1)
  /\ (forall a, feasible (build_model tractor_only) a = true ->
        (forall a', feasible (build_model tractor_only) a' = true ->
                    a' v_total_deliveries <= a v_total_deliveries) ->
        1 <= a v_total_deliveries).
Proof.
  assert (Hf : feasible (build_model tractor_only) tractor_only_solution = true)
    by (vm_compute; reflexivity).
  do 4 (split; [reflexivity|]).
  split; [exact Hf|]. split.
  - destruct (solve tractor_only_solver tractor_only) as [r|e] eqn:E.
    + exists r. split; [reflexivity|].
      revert E. vm_compute. intros E. injection E as <-. reflexivity.
    + revert E. vm_compute. discriminate.
  - intros a _ Hmax. exact (Hmax _ Hf).
Qed.

(** ** C9: extended days per week *)




(** *** The week groups *)

Lemma key_eqb_eq (k1 k2 : week_key) : key_eqb k1 k2 = true <-> k1 = k2.
Proof.
  destruct k1 as [y1 w1], k2 as [y2 w2]. unfold key_eqb. cbn [fst snd].
  rewrite andb_true_iff, !Z.eqb_eq. split; [intros [-> ->]; reflexivity|].
  intros [= -> ->]. split; reflexivity.
Qed.

Lemma key_eqb_neq (k1 k2 : week_key) : key_eqb k1 k2 = false <-> k1 <> k2.
Proof.
  rewrite <- key_eqb_eq. destruct (key_eqb k1 k2); split; congruence.
Qed.

Lemma setdefault_keys (w : list (week_key * list Z)) (k : week_key) (d : Z) :
  (In k (map fst w) -> map fst (setdefault_append w k d) = map fst w)
  /\ (~ In k (map fst w) -> map fst (setdefault_append w k d) = map fst w ++ [k]).
Proof.
  induction w as [|[k' l] w IH]; cbn [setdefault_append map fst app].
  - split; [intros []|reflexivity].
  - destruct (key_eqb k' k) eqn:E.
    + apply key_eqb_eq in E. subst k'. split; [reflexivity|].
      intros H. exfalso. apply H. now left.
    + apply key_eqb_neq in E. cbn [map fst]. destruct IH as [IH1 IH2]. split.
      * intros [H|H]; [congruence|]. now rewrite IH1.
      * intros H. rewrite IH2; [reflexivity|]. intros H'. apply H. now right.
Qed.

Lemma setdefault_In (w : list (week_key * list Z)) (k : week_key) (d : Z)
      (key : week_key) (idxs : list Z) :
  NoDup (map fst w) ->
  In (key, idxs) (setdefault_append w k d) ->
  (key <> k /\ In (key, idxs) w)
  \/ (key = k /\ exists old, In (k, old) w /\ idxs = old ++ [d])
  \/ (key = k /\ ~ In k (map fst w) /\ idxs = [d]).
Proof.
  induction w as [|[k' l] w IH]; cbn [setdefault_append map fst]; intros Hnd Hin.
  - destruct Hin as [[= <- <-]|[]]. right; right. repeat split. intros [].
  - inversion Hnd as [|? ? Hk' Hnd']; subst.
    destruct (key_eqb k' k) eqn:E.
    + apply key_eqb_eq in E. subst k'.
      destruct Hin as [[= <- <-]|Hin].
      * right; left. split; [reflexivity|]. exists l. split; [now left|reflexivity].
      * left. split; [|now right]. intros ->. apply Hk'.
        apply in_map_iff. exists (k, idxs). split; [reflexivity|exact Hin].
    + apply key_eqb_neq in E.
      destruct Hin as [[= <- <-]|Hin]; [left; split; [exact E|now left]|].
      destruct (IH Hnd' Hin) as [[H1 H2]|[[H1 [old [H2 H3]]]|[H1 [H2 H3]]]].
      * left. split; [exact H1|now right].
      * right; left. split; [exact H1|]. exists old. split; [now right|exact H3].
      * right; right. split; [exact H1|]. split; [|exact H3].
        intros [H|H]; [congruence|contradiction].
Qed.

Lemma filter_none {A} (f : A -> bool) (l : list A) :
  (forall x, In x l -> f x = false) -> filter f l = [].
Proof.
  induction l as [|x l IH]; intros H; [reflexivity|].
  cbn [filter]. rewrite (H x (or_introl eq_refl)).
  apply IH. intros y Hy. apply H. now right.
Qed.

Lemma enumerate_snoc {A} (l : list A) (x : A) :
  enumerate (l ++ [x]) = enumerate l ++ [(Z.of_nat (length l), x)].
Proof.
  unfold enumerate. rewrite length_app. cbn [length].
  replace (Z.of_nat (length l + 1)) with (Z.of_nat (length l) + 1) by lia.
  rewrite range_snoc by lia.
  assert (H : forall (l1 : list Z) (l2 : list A) a b, length l1 = length l2 ->
            combine (l1 ++ [a]) (l2 ++ [b]) = combine l1 l2 ++ [(a, b)]).
  { induction l1 as [|y l1 IH]; intros [|z l2] a b Hlen; cbn in *;
      try discriminate; [reflexivity|]. f_equal. apply IH. lia. }
  apply H. rewrite length_range. lia.
Qed.

Lemma weeks_of_snoc (ds : list Day) (x : Day) :
  weeks_of (ds ++ [x]) =
  setdefault_append (weeks_of ds) (week_key_of (ds ++ [x]) (Z.of_nat (length ds)))
                    (Z.of_nat (length ds)).
Proof.
  unfold weeks_of. rewrite enumerate_snoc, fold_left_app. cbn [fold_left].
  unfold week_key_of, day_at. rewrite Nat2Z.id, nth_middle.
  destruct (iso_year_week (day_date x)) as [[year week] wd]. reflexivity.
Qed.

Lemma week_key_of_prefix (ds : list Day) (x : Day) (d : Z) :
  0 <= d < Z.of_nat (length ds) ->
  week_key_of (ds ++ [x]) d = week_key_of ds d.
Proof.
  intros H. unfold week_key_of, day_at. rewrite app_nth1 by lia. reflexivity.
Qed.

(** The groups of [weeks]: distinct keys, and under each key the indices
    of the days with that ISO (year, week), in ascending order. *)
Lemma weeks_of_spec (ds : list Day) :
  NoDup (map fst (weeks_of ds))
  /\ (forall d, 0 <= d < Z.of_nat (length ds) ->
        In (week_key_of ds d) (map fst (weeks_of ds)))
  /\ (forall key idxs, In (key, idxs) (weeks_of ds) ->
        idxs = filter (fun d => key_eqb (week_key_of ds d) key)
                      (range 0 (Z.of_nat (length ds)))).
Proof.
  induction ds as [|x ds IH] using rev_ind.
  - cbn. split; [constructor|]. split; [intros d Hd; lia|intros key idxs []].
  - destruct IH as (IH1 & IH2 & IH3).
    rewrite weeks_of_snoc, length_app. cbn [length].
    replace (Z.of_nat (length ds + 1)) with (Z.of_nat (length ds) + 1) by lia.
    set (kx := week_key_of (ds ++ [x]) (Z.of_nat (length ds))).
    set (m := Z.of_nat (length ds)).
    destruct (setdefault_keys (weeks_of ds) kx m) as [K1 K2].
    assert (Hfilter : forall key,
      filter (fun d => key_eqb (week_key_of (ds ++ [x]) d) key) (range 0 (m + 1))
      = filter (fun d => key_eqb (week_key_of ds d) key) (range 0 m)
        ++ (if key_eqb kx key then [m] else [])).
    { intros key. rewrite range_snoc by (unfold m; lia).
      rewrite filter_app. cbn [filter]. fold kx. f_equal.
      apply filter_ext_in. intros d Hd. apply In_range in Hd.
      rewrite week_key_of_prefix by exact Hd. reflexivity. }
    split; [|split].
    + destruct (in_dec (fun a b : week_key =>
                          ltac:(decide equality; apply Z.eq_dec) : {a = b} + {a <> b})
                       kx (map fst (weeks_of ds))) as [Hk|Hk].
      * rewrite K1 by exact Hk. exact IH1.
      * rewrite K2 by exact Hk. apply NoDup_app; [exact IH1|repeat constructor; intros []|].
        intros k Hin [<-|[]]. contradiction.
    + intros d Hd.
      assert (Hsub : forall k, In k (map fst (weeks_of ds)) ->
                In k (map fst (setdefault_append (weeks_of ds) kx m))).
      { intros k Hk.
        destruct (in_dec (fun a b : week_key =>
                          ltac:(decide equality; apply Z.eq_dec) : {a = b} + {a <> b})
                       kx (map fst (weeks_of ds))) as [Hkx|Hkx].
        - rewrite K1 by exact Hkx. exact Hk.
        - rewrite K2 by exact Hkx. apply in_or_app. now left. }
      destruct (Z.eq_dec d m) as [->|Hne].
      * fold kx.
        destruct (in_dec (fun a b : week_key =>
                          ltac:(decide equality; apply Z.eq_dec) : {a = b} + {a <> b})
                       kx (map fst (weeks_of ds))) as [Hkx|Hkx].
        -- rewrite K1 by exact Hkx. exact Hkx.
        -- rewrite K2 by exact Hkx. apply in_or_app. right. now left.
      * rewrite week_key_of_prefix by (fold m; lia).
        apply Hsub, IH2. fold m. lia.
    + intros key idxs Hin. rewrite Hfilter.
      destruct (setdefault_In _ _ _ _ _ IH1 Hin)
        as [[H1 H2]|[[H1 [old [H2 H3]]]|[H1 [H2 H3]]]].
      * assert (E : key_eqb kx key = false) by (apply key_eqb_neq; congruence).
        rewrite E, app_nil_r. apply IH3. exact H2.
      * subst key. assert (E : key_eqb kx kx = true) by (now apply key_eqb_eq).
        rewrite E, H3. f_equal. apply IH3. exact H2.
      * subst key. assert (E : key_eqb kx kx = true) by (now apply key_eqb_eq).
        rewrite E, H3.
        rewrite filter_none; [reflexivity|].
        intros d Hd. apply In_range in Hd. apply key_eqb_neq.
        intros E'. apply H2. rewrite <- E'. apply IH2. exact Hd.
Qed.

Lemma weeks_spec (data : Data) (key : week_key) (idxs : list Z) :
  In (key, idxs) (weeks data) ->
  NoDup idxs
  /\ forall d, In d idxs <->
       0 <= d < n data /\ week_key_of (days data) d = key.
Proof.
  intros Hin. unfold weeks in Hin.
  destruct (weeks_of_spec (days data)) as (_ & _ & H).
  rewrite (H key idxs Hin). split.
  - apply NoDup_filter. unfold range.
    apply Injective_map_NoDup; [|apply seq_NoDup].
    intros x y Hxy. lia.
  - intros d. rewrite filter_In, In_range, key_eqb_eq. unfold n. tauto.
Qed.

(** ** C8: the break rule *)

Lemma skipn_range (k : nat) (lo hi : Z) :
  skipn k (range lo hi) = range (lo + Z.of_nat k) hi.
Proof.
  revert lo. induction k as [|k IH]; intros lo.
  - cbn [skipn]. f_equal. lia.
  - destruct (Z_lt_le_dec lo hi) as [H|H].
    + rewrite (range_cons lo hi H). cbn [skipn]. rewrite IH. f_equal. lia.
    + rewrite !range_empty by lia. reflexivity.
Qed.

Lemma firstn_range (k : nat) (lo hi : Z) :
  firstn k (range lo hi) = range lo (Z.min hi (lo + Z.of_nat k)).
Proof.
  revert lo. induction k as [|k IH]; intros lo.
  - cbn [firstn]. rewrite range_empty by lia. reflexivity.
  - destruct (Z_lt_le_dec lo hi) as [H|H].
    + rewrite (range_cons lo hi H). cbn [firstn]. rewrite IH.
      rewrite (range_cons lo (Z.min hi (lo + Z.of_nat (S k)))) by lia.
      do 2 f_equal. lia.
    + rewrite !range_empty by lia. reflexivity.
Qed.

Lemma py_slice_range {A} (f : Z -> A) (m s e : Z) :
  0 <= s -> s <= e -> e <= m ->
  py_slice (map f (range 0 m)) s e = map f (range s e).
Proof.
  intros Hs He Hm. unfold py_slice.
  rewrite length_map, length_range.
  replace (Z.of_nat (Z.to_nat (m - 0))) with m by lia.
  unfold slice_index.
  destruct (Z.ltb_spec s 0); [lia|]. destruct (Z.ltb_spec e 0); [lia|].
  rewrite !Z.min_l by lia.
  rewrite skipn_map, firstn_map, skipn_range, firstn_range.
  do 2 f_equal; lia.
Qed.

Lemma py_slice_past {A} (l : list A) (s e : Z) :
  Z.of_nat (length l) <= s -> py_slice l s e = [].
Proof.
  intros H. unfold py_slice. cbv zeta.
  assert (E : slice_index (Z.of_nat (length l)) s = Z.of_nat (length l)).
  { unfold slice_index. destruct (Z.ltb_spec s 0); lia. }
  rewrite E, Nat2Z.id, skipn_all. apply firstn_nil.
Qed.

Lemma zsum_map_elem {A} (f : A -> Z) (l : list A) (x : A) :
  (forall y, In y l -> 0 <= f y) -> In x l -> f x <= zsum (map f l).
Proof.
  induction l as [|y l IH]; intros Hn Hx; [destruct Hx|].
  cbn [map zsum fold_right]. fold (zsum (map f l)).
  assert (0 <= zsum (map f l)) by (apply zsum_map_nonneg; intros; apply Hn; now right).
  pose proof (Hn y (or_introl eq_refl)).
  destruct Hx as [<-|Hx]; [lia|].
  assert (f x <= zsum (map f l)) by (apply IH; auto; intros; apply Hn; now right).
  lia.
Qed.

Lemma zsum_map_pos {A} (f : A -> Z) (l : list A) :
  0 < zsum (map f l) -> exists x, In x l /\ f x <> 0.
Proof.
  induction l as [|y l IH]; cbn [map zsum fold_right]; [lia|].
  fold (zsum (map f l)). intros H.
  destruct (Z.eq_dec (f y) 0) as [E|E].
  - destruct IH as [x [Hx Hfx]]; [lia|]. exists x. split; [now right|exact Hfx].
  - exists y. split; [now left|exact E].
Qed.

Lemma in_set_spec (k : Z) (l : list Z) : in_set k l = true <-> In k l.
Proof.
  unfold in_set. rewrite existsb_exists. split.
  - intros [x [Hx E]]. apply Z.eqb_eq in E. now subst.
  - intros H. exists k. split; [exact H|apply Z.eqb_refl].
Qed.

Lemma covering_driving_In (data : Data) (dur : Z) (offsets : list Z) (t t0 : Z) :
  In t0 (covering_driving data dur offsets t) <->
  0 <= t0 < slots_per_day data /\ t0 <= t < t0 + dur
  /\ t0 + dur <= slots_per_day data /\ in_set (t - t0) offsets = true.
Proof.
  unfold covering_driving.
  rewrite filter_In, In_range, andb_true_iff, Z.leb_le.
  split; [intros (H1 & H2 & H3)|intros (H1 & H2 & H3 & H4)];
    repeat split; try assumption; lia.
Qed.

Section BreakRule.

Variables (data : Data) (a : assignment).
Variables (x1 x2 : Z -> expr) (dur1 dur2 : Z) (off1 off2 : list Z).
Variable drv : Z -> var.

Let spd := slots_per_day data.

Hypothesis x1_bool : forall t, 0 <= t < spd -> 0 <= eval a (x1 t) <= 1.
Hypothesis x2_bool : forall t, 0 <= t < spd -> 0 <= eval a (x2 t) <= 1.
Hypothesis x1_fits : forall t, eval a (x1 t) = 1 -> t + dur1 <= spd.
Hypothesis x2_fits : forall t, eval a (x2 t) = 1 -> t + dur2 <= spd.
Hypothesis drv_bool : forall t, 0 <= t < spd -> 0 <= a (drv t) <= 1.
Hypothesis drv_sum : forall t, 0 <= t < spd ->
  a (drv t) = zsum (map (fun t0 => eval a (x1 t0)) (covering_driving data dur1 off1 t))
              + zsum (map (fun t0 => eval a (x2 t0)) (covering_driving data dur2 off2 t)).
Hypothesis windows : break_window_slots data <= spd ->
  forall t0, 0 <= t0 <= spd - break_window_slots data ->
    zsum (map (eval a)
              (py_slice (map (fun t => Var (drv t)) (range 0 spd))
                        t0 (t0 + break_window_slots data)))
    <= break_drive_cap_slots data.

Let driving (t : Z) : bool :=
  drives a x1 dur1 off1 spd t || drives a x2 dur2 off2 spd t.

Lemma drives_spec (x : Z -> expr) (dur : Z) (off : list Z) (t : Z) :
  (forall t0, eval a (x t0) = 1 -> t0 + dur <= spd) ->
  (drives a x dur off spd t = true <->
   exists t0, In t0 (covering_driving data dur off t) /\ eval a (x t0) = 1).
Proof.
  intros Hfit. unfold drives. rewrite existsb_exists. split.
  - intros [t0 [Hin H]]. apply In_range in Hin.
    rewrite !andb_true_iff, Z.eqb_eq, Z.leb_le, Z.ltb_lt in H.
    destruct H as (((H1 & H2) & H3) & H4).
    exists t0. split; [|exact H1]. apply covering_driving_In.
    pose proof (Hfit t0 H1). unfold spd in *.
    repeat split; try assumption; lia.
  - intros [t0 [Hin H1]]. apply covering_driving_In in Hin. fold spd in Hin.
    exists t0. split; [apply In_range; lia|].
    rewrite !andb_true_iff, Z.eqb_eq, Z.leb_le, Z.ltb_lt.
    repeat split; try tauto; lia.
Qed.

Lemma covering_nonneg (x : Z -> expr) (dur : Z) (off : list Z) (t : Z) :
  (forall t0, 0 <= t0 < spd -> 0 <= eval a (x t0) <= 1) ->
  forall t0, In t0 (covering_driving data dur off t) -> 0 <= eval a (x t0) <= 1.
Proof.
  intros Hb t0 Hin. apply covering_driving_In in Hin. apply Hb. fold spd in Hin. lia.
Qed.

(** The indicator [drv] of a solution is 1 exactly in the driving slots. *)
Lemma drv_driving (t : Z) :
  0 <= t < spd -> a (drv t) = if driving t then 1 else 0.
Proof.
  intros Ht. pose proof (drv_bool t Ht) as Hb. pose proof (drv_sum t Ht) as Hs.
  assert (N1 : 0 <= zsum (map (fun t0 => eval a (x1 t0))
                              (covering_driving data dur1 off1 t))).
  { apply zsum_map_nonneg. intros. eapply covering_nonneg; eauto. }
  assert (N2 : 0 <= zsum (map (fun t0 => eval a (x2 t0))
                              (covering_driving data dur2 off2 t))).
  { apply zsum_map_nonneg. intros. eapply covering_nonneg; eauto. }
  unfold driving.
  destruct (drives a x1 dur1 off1 spd t) eqn:E1.
  - apply (drives_spec x1 dur1 off1 t x1_fits) in E1 as [t0 [Hin H1]].
    pose proof (zsum_map_elem (fun t0 => eval a (x1 t0)) _ t0
                  (fun y Hy => proj1 (covering_nonneg x1 dur1 off1 t x1_bool y Hy)) Hin).
    cbv beta in *. cbn [orb]. lia.
  - destruct (drives a x2 dur2 off2 spd t) eqn:E2; cbn [orb].
    + apply (drives_spec x2 dur2 off2 t x2_fits) in E2 as [t0 [Hin H1]].
      pose proof (zsum_map_elem (fun t0 => eval a (x2 t0)) _ t0
                    (fun y Hy => proj1 (covering_nonneg x2 dur2 off2 t x2_bool y Hy)) Hin).
      cbv beta in *. lia.
    + destruct (Z.eq_dec (a (drv t)) 0) as [E|E]; [exact E|exfalso].
      assert (Hpos : 0 < zsum (map (fun t0 => eval a (x1 t0))
                                   (covering_driving data dur1 off1 t))
                     \/ 0 < zsum (map (fun t0 => eval a (x2 t0))
                                      (covering_driving data dur2 off2 t))) by lia.
      destruct Hpos as [Hpos|Hpos]; apply zsum_map_pos in Hpos as [t0 [Hin Hne]].
      * pose proof (covering_nonneg x1 dur1 off1 t x1_bool t0 Hin).
        assert (Ht0 : drives a x1 dur1 off1 spd t = true).
        { apply (drives_spec x1 dur1 off1 t x1_fits). exists t0. split; [exact Hin|lia]. }
        congruence.
      * pose proof (covering_nonneg x2 dur2 off2 t x2_bool t0 Hin).
        assert (Ht0 : drives a x2 dur2 off2 spd t = true).
        { apply (drives_spec x2 dur2 off2 t x2_fits). exists t0. split; [exact Hin|lia]. }
        congruence.
Qed.

(** Every window the model constrains holds at most the cap of driving
    slots. *)
Lemma window_cap (t0 : Z) :
  0 <= t0 <= spd - break_window_slots data ->
  driving_slots driving t0 (break_window_slots data) <= break_drive_cap_slots data.
Proof.
  intros Ht0. assert (Hfit : break_window_slots data <= spd) by lia.
  unfold driving_slots.
  destruct (Z_lt_le_dec (break_window_slots data) 0) as [Hneg|Hpos].
  - rewrite range_empty by lia. cbn [map zsum fold_right].
    pose proof (windows Hfit (spd - break_window_slots data) ltac:(lia)) as H.
    rewrite py_slice_past in H; [exact H|].
    rewrite length_map, length_range. lia.
  - pose proof (windows Hfit t0 Ht0) as H.
    rewrite py_slice_range in H by lia.
    rewrite map_map in H. cbn [eval] in H.
    rewrite (zsum_map_ext _ (fun t => a (drv t))); [exact H|].
    intros t Ht. apply In_range in Ht. symmetry. apply drv_driving. lia.
Qed.

End BreakRule.

Lemma eval_contributors (a : assignment) (x1 x2 : Z -> expr) (l1 l2 : list Z) :
  eval a (Sum (map x1 l1 ++ map x2 l2))
  = zsum (map (fun t0 => eval a (x1 t0)) l1)
    + zsum (map (fun t0 => eval a (x2 t0)) l2).
Proof. cbn [eval]. now rewrite map_app, zsum_app, !map_map. Qed.

Lemma break_windows_ok (data : Data) (a : assignment) (drive_slots : list expr) :
  feasible (break_windows data drive_slots) a = true ->
  break_window_slots data <= slots_per_day data ->
  forall t0, 0 <= t0 <= slots_per_day data - break_window_slots data ->
    zsum (map (eval a) (py_slice drive_slots t0 (t0 + break_window_slots data)))
    <= break_drive_cap_slots data.
Proof.
  intros H Hfit t0 Ht0. unfold break_windows in H.
  destruct (Z.leb_spec (break_window_slots data) (slots_per_day data)); [|lia].
  rewrite feasible_map in H.
  assert (Hin : In t0 (range 0 (slots_per_day data - break_window_slots data + 1)))
    by (apply In_range; lia).
  specialize (H t0 Hin).
  cbn [item_ok holds] in H. apply Z.leb_le in H. exact H.
Qed.

Lemma started_fits_T (data : Data) (a : assignment) (d i t : Z) :
  (eval a (S_start data d i t) = 1 -> t + supply_slots data <= slots_per_day data)
  /\ (eval a (U_start data d i t) = 1 -> t + shuttle_slots data <= slots_per_day data).
Proof.
  unfold S_start, U_start, S_open, U_open. split.
  - destruct (available_T data d i); cbn [andb eval]; [|discriminate].
    destruct (Z.leb_spec (t + supply_slots data) (slots_per_day data));
      [auto|discriminate].
  - destruct (available_T data d i); cbn [andb eval]; [|discriminate].
    destruct (Z.leb_spec (t + shuttle_slots data) (slots_per_day data));
      [auto|discriminate].
Qed.

Lemma started_fits_L (data : Data) (a : assignment) (d j t : Z) :
  (eval a (V_start data d j t) = 1 -> t + resident_slots data <= slots_per_day data)
  /\ (eval a (A_start data d j t) = 1 -> t + adr_slots data <= slots_per_day data).
Proof.
  unfold V_start, A_start, V_open, A_open. split.
  - destruct (available_L data d j); cbn [andb eval]; [|discriminate].
    destruct (Z.leb_spec (t + resident_slots data) (slots_per_day data));
      [auto|discriminate].
  - destruct (available_L data d j); cbn [andb eval]; [|discriminate].
    destruct (Z.leb_spec (t + adr_slots data) (slots_per_day data));
      [auto|discriminate].
Qed.

Lemma tirano_break (data : Data) (a : assignment) (d i t0 : Z) :
  feasible (build_model data) a = true ->
  0 <= d < n data -> 0 <= i < drivers_T_base data ->
  0 <= t0 <= slots_per_day data - break_window_slots data ->
  driving_slots (driving_T data a d i) t0 (break_window_slots data)
    <= break_drive_cap_slots data.
Proof.
  intros Hf Hd Hi Ht0.
  pose proof (tirano_driver_ok data a d i Hf Hd Hi) as H.
  unfold tirano_driver in H. rewrite !feasible_app, !andb_true_iff in H.
  destruct H as (_ & _ & _ & Hdrv & Hwin).
  rewrite feasible_flat_map in Hdrv.
  assert (Hd' : forall t, 0 <= t < slots_per_day data ->
            0 <= a (v_drv_T d i t) <= 1
            /\ a (v_drv_T d i t) = eval a (Sum (contributors_T data d i t))).
  { intros t Ht. specialize (Hdrv t (proj2 (In_range _ _ _) Ht)).
    unfold feasible in Hdrv. cbn [forallb item_ok holds] in Hdrv.
    rewrite !andb_true_iff in Hdrv. destruct Hdrv as (Hb & Heq & _).
    apply Z.eqb_eq in Heq. split; [lia|exact Heq]. }
  apply (window_cap data a (S_start data d i) (U_start data d i)
           (supply_slots data) (shuttle_slots data)
           supply_drive_offsets shuttle_drive_offsets (v_drv_T d i)).
  - intros t Ht. apply (start_domain_T data a d i t); assumption.
  - intros t Ht. apply (start_domain_T data a d i t); assumption.
  - intros t. apply started_fits_T.
  - intros t. apply started_fits_T.
  - intros t Ht. apply Hd'. exact Ht.
  - intros t Ht. destruct (Hd' t Ht) as [_ ->].
    unfold contributors_T. apply eval_contributors.
  - apply (break_windows_ok data a (drive_slots_T data d i) Hwin).
  - exact Ht0.
Qed.

Lemma livigno_break (data : Data) (a : assignment) (d j t0 : Z) :
  feasible (build_model data) a = true ->
  0 <= d < n data -> 0 <= j < drivers_L_base data ->
  0 <= t0 <= slots_per_day data - break_window_slots data ->
  driving_slots (driving_L data a d j) t0 (break_window_slots data)
    <= break_drive_cap_slots data.
Proof.
  intros Hf Hd Hj Ht0.
  pose proof (livigno_driver_ok data a d j Hf Hd Hj) as H.
  unfold livigno_driver in H. rewrite !feasible_app, !andb_true_iff in H.
  destruct H as (_ & _ & _ & Hdrv & Hwin & _).
  rewrite feasible_flat_map in Hdrv.
  assert (Hd' : forall t, 0 <= t < slots_per_day data ->
            0 <= a (v_drv_L d j t) <= 1
            /\ a (v_drv_L d j t) = eval a (Sum (contributors_L data d j t))).
  { intros t Ht. specialize (Hdrv t (proj2 (In_range _ _ _) Ht)).
    unfold feasible in Hdrv. cbn [forallb item_ok holds] in Hdrv.
    rewrite !andb_true_iff in Hdrv. destruct Hdrv as (Hb & Heq & _).
    apply Z.eqb_eq in Heq. split; [lia|exact Heq]. }
  apply (window_cap data a (V_start data d j) (A_start data d j)
           (resident_slots data) (adr_slots data)
           resident_drive_offsets adr_drive_offsets (v_drv_L d j)).
  - intros t Ht. apply (start_domain_L data a d j t); assumption.
  - intros t Ht. apply (start_domain_L data a d j t); assumption.
  - intros t. apply started_fits_L.
  - intros t. apply started_fits_L.
  - intros t Ht. apply Hd'. exact Ht.
  - intros t Ht. destruct (Hd' t Ht) as [_ ->].
    unfold contributors_L. apply eval_contributors.
  - apply (break_windows_ok data a (drive_slots_L data d j) Hwin).
  - exact Ht0.
Qed.

(** C8. In every solution, for every driver and every window of
    [break_window_slots] consecutive slots that starts at a slot [t0] of
    [0 .. slots_per_day - break_window_slots], the number of slots of the
    window in which the driver is at the wheel is at most
    [break_drive_cap_slots]; with default parameters the window has 21
    slots (315 minutes) and holds at most 270 driving minutes. *)
Theorem break_rule (data : Data) (a : assignment) (d t0 : Z) :
  feasible (build_model data) a = true ->
  0 <= d < n data ->
  0 <= t0 <= slots_per_day data - break_window_slots data ->
  (forall i, 0 <= i < drivers_T_base data ->
     driving_slots (driving_T data a d i) t0 (break_window_slots data)
       <= break_drive_cap_slots data)
  /\ (forall j, 0 <= j < drivers_L_base data ->
     driving_slots (driving_L data a d j) t0 (break_window_slots data)
       <= break_drive_cap_slots data)
  /\ (options data = [] ->
      slot_minutes data * 21 = 315
      /\ (forall i, 0 <= i < drivers_T_base data ->
            slot_minutes data * driving_slots (driving_T data a d i) t0 21 <= 270)
      /\ (forall j, 0 <= j < drivers_L_base data ->
            slot_minutes data * driving_slots (driving_L data a d j) t0 21 <= 270)).
Proof.
  intros Hf Hd Ht0.
  split; [intros i Hi; apply tirano_break; assumption|].
  split; [intros j Hj; apply livigno_break; assumption|].
  intros Hopt.
  assert (E1 : slot_minutes data = 15)
    by (unfold slot_minutes, get; rewrite Hopt; reflexivity).
  assert (E2 : break_window_slots data = 21).
  { unfold break_window_slots, break_window_minutes, get.
    rewrite E1, Hopt. reflexivity. }
  assert (E3 : break_drive_cap_slots data = 18).
  { unfold break_drive_cap_slots, break_drive_cap_minutes, get.
    rewrite E1, Hopt. reflexivity. }
  rewrite E1. split; [reflexivity|]. split.
  - intros i Hi. pose proof (tirano_break data a d i t0 Hf Hd Hi Ht0) as H.
    rewrite E2, E3 in H. lia.
  - intros j Hj. pose proof (livigno_break data a d j t0 Hf Hd Hj Ht0) as H.
    rewrite E2, E3 in H. lia.
Qed.

(** On the supply day the window of slots 13..33 holds the last ten
    driving slots of the supply trip and the first eight of the shuttle. *)
Lemma break_rule_witness :
  feasible (build_model supply_day) supply_day_solution = true
  /\ driving_slots (driving_T supply_day supply_day_solution 0 0) 13 21 = 18
  /\ driving_slots (driving_T supply_day supply_day_solution 0 0) 13
       (break_window_slots supply_day)
     <= break_drive_cap_slots supply_day.
Proof.
  split; [vm_compute; reflexivity|]. split; [vm_compute; reflexivity|].
  apply (proj1 (break_rule supply_day supply_day_solution 0 13
                  ltac:(vm_compute; reflexivity)
                  ltac:(split; [lia|reflexivity])
                  ltac:(split; [lia|discriminate]))).
  split; [lia|reflexivity].
Defined.

(** ** C10: the day builder *)

Lemma day_value_Ok (av : availability) (c : date) (idx : Z) :
  0 <= idx -> day_value av c idx = Ok (availability_at av c idx).
Proof.
  intros Hidx. destruct av as [kv|xs]; cbn [day_value availability_at];
    [reflexivity|].
  destruct (Z.ltb_spec idx (Z.of_nat (length xs))) as [H|H].
  - unfold subscript.
    destruct (nth_error xs (Z.to_nat idx)) as [x|] eqn:E.
    + rewrite (nth_error_nth _ _ 0 E). reflexivity.
    + apply nth_error_None in E. lia.
  - rewrite nth_overflow by lia. reflexivity.
Qed.

Lemma day_records_nil (d_t d_l : availability) (idx : Z) :
  day_records d_t d_l [] idx = [].
Proof. unfold day_records. cbn [length]. rewrite range_empty by lia. reflexivity. Qed.

Lemma day_records_cons (d_t d_l : availability) (c : date) (rest : list date)
      (idx : Z) :
  day_records d_t d_l (c :: rest) idx
  = mkDay c (availability_at d_t c idx) (availability_at d_l c idx)
    :: day_records d_t d_l rest (idx + 1).
Proof.
  unfold day_records. cbn [length].
  rewrite (range_cons idx) by lia. cbn [combine map fst snd].
  replace (idx + Z.of_nat (S (length rest)))
    with (idx + 1 + Z.of_nat (length rest)) by lia.
  reflexivity.
Qed.

Lemma kept_dates_step (incl : bool) (cur end_ : date) :
  cur <= end_ ->
  kept_dates incl cur end_ =
  if negb incl && (5 <=? weekday cur) then kept_dates incl (cur + 1) end_
  else cur :: kept_dates incl (cur + 1) end_.
Proof.
  intros H. unfold kept_dates. rewrite (range_cons cur) by lia.
  cbn [filter]. unfold kept.
  destruct incl; cbn [negb andb orb]; [reflexivity|].
  destruct (Z.ltb_spec (weekday cur) 5), (Z.leb_spec 5 (weekday cur));
    try lia; reflexivity.
Qed.

(** The loop returns, and appends the records of the kept dates. *)
Lemma build_days_loop_spec (end_ : date) (d_t d_l : availability) (incl : bool)
      (fuel : nat) :
  end_ < MAXORDINAL ->
  forall cur idx acc,
    (Z.to_nat (end_ + 1 - cur) <= fuel)%nat -> 1 <= cur -> 0 <= idx ->
    build_days_loop end_ d_t d_l incl cur idx acc
    = Ok (acc ++ day_records d_t d_l (kept_dates incl cur end_) idx).
Proof.
  intros Hmax. induction fuel as [|fuel IH]; intros cur idx acc Hfuel Hcur Hidx;
    rewrite build_days_loop_equation_1;
    destruct (Z_le_gt_dec cur end_) as [Hle|Hgt]; try lia.
  - rewrite build_days_loop_clause_1_equation_2.
    unfold kept_dates. rewrite range_empty by lia. cbn [filter].
    rewrite day_records_nil, app_nil_r. reflexivity.
  - rewrite build_days_loop_clause_1_equation_1. cbv zeta.
    rewrite (kept_dates_step incl cur end_ Hle).
    assert (Hin : date_out_of_range (cur + 1) = false).
    { unfold date_out_of_range.
      destruct (Z.ltb_spec 0 (cur + 1)), (Z.leb_spec (cur + 1) MAXORDINAL);
        try lia; reflexivity. }
    rewrite Hin.
    destruct (negb incl && (5 <=? weekday cur)).
    + apply IH; lia.
    + rewrite !day_value_Ok by exact Hidx.
      rewrite IH by lia. rewrite day_records_cons, <- app_assoc. reflexivity.
  - rewrite build_days_loop_clause_1_equation_2.
    unfold kept_dates. rewrite range_empty by lia. cbn [filter].
    rewrite day_records_nil, app_nil_r. reflexivity.
Qed.

(** At the last representable date the step past it overflows. *)
Lemma build_days_loop_overflow (d_t d_l : availability) (incl : bool) (fuel : nat) :
  forall cur idx acc,
    (Z.to_nat (MAXORDINAL + 1 - cur) <= fuel)%nat ->
    1 <= cur <= MAXORDINAL -> 0 <= idx ->
    build_days_loop MAXORDINAL d_t d_l incl cur idx acc = Raise OverflowError.
Proof.
  induction fuel as [|fuel IH]; intros cur idx acc Hfuel Hcur Hidx; [lia|].
  rewrite build_days_loop_equation_1.
  destruct (Z_le_gt_dec cur MAXORDINAL) as [Hle|Hgt]; [|lia].
  rewrite build_days_loop_clause_1_equation_1. cbv zeta.
  rewrite !day_value_Ok by exact Hidx.
  destruct (Z.eq_dec cur MAXORDINAL) as [->|Hne].
  - destruct (negb incl && _); reflexivity.
  - assert (Hin : date_out_of_range (cur + 1) = false).
    { unfold date_out_of_range.
      destruct (Z.ltb_spec 0 (cur + 1)), (Z.leb_spec (cur + 1) MAXORDINAL);
        try lia; reflexivity. }
    rewrite Hin. destruct (negb incl && _); apply IH; lia.
Qed.

Lemma ascending_range (lo hi : Z) : ascending (range lo hi).
Proof.
  remember (Z.to_nat (hi - lo)) as k eqn:Hk. revert lo Hk.
  induction k as [|k IH]; intros lo Hk.
  - rewrite range_empty by lia. exact I.
  - rewrite range_cons by lia. cbn [ascending]. split.
    + intros y Hy. apply In_range in Hy. lia.
    + apply IH. lia.
Qed.

Lemma ascending_filter (f : date -> bool) (l : list date) :
  ascending l -> ascending (filter f l).
Proof.
  induction l as [|x l IH]; [auto|]. cbn [ascending filter]. intros [Hx Hl].
  destruct (f x); [|auto]. cbn [ascending]. split; [|auto].
  intros y Hy. apply filter_In in Hy as [Hy _]. auto.
Qed.

Lemma day_records_dates (d_t d_l : availability) (dates : list date) (idx : Z) :
  map day_date (day_records d_t d_l dates idx) = dates.
Proof.
  revert idx. induction dates as [|c rest IH]; intros idx.
  - now rewrite day_records_nil.
  - rewrite day_records_cons. cbn [map day_date]. now rewrite IH.
Qed.

Lemma day_records_nth (d_t d_l : availability) (dates : list date) (idx : Z)
      (k : nat) (day : Day) :
  nth_error (day_records d_t d_l dates idx) k = Some day ->
  D_T day = availability_at d_t (day_date day) (idx + Z.of_nat k)
  /\ D_L day = availability_at d_l (day_date day) (idx + Z.of_nat k).
Proof.
  revert idx k. induction dates as [|c rest IH]; intros idx k.
  - rewrite day_records_nil. destruct k; discriminate.
  - rewrite day_records_cons. destruct k as [|k]; cbn [nth_error].
    + intros [= <-]. cbn [D_T D_L day_date].
      replace (idx + Z.of_nat 0) with idx by lia. split; reflexivity.
    + intros H. apply IH in H.
      replace (idx + Z.of_nat (S k)) with (idx + 1 + Z.of_nat k) by lia. exact H.
Qed.

Lemma dict_get_missing (kv : list (date * Z)) (c : date) :
  (forall p, In p kv -> fst p <> c) -> dict_get kv c 0 = 0.
Proof.
  intros H. unfold dict_get.
  destruct (find (fun p => fst p =? c) kv) as [p|] eqn:E; [|reflexivity].
  apply find_some in E as [Hin Heq]. apply Z.eqb_eq in Heq.
  exfalso. exact (H p Hin Heq).
Qed.

Lemma uncovered_zero (av : availability) (c : date) (k : nat) :
  (forall xs, av = AvSeq xs -> (length xs <= k)%nat ->
     availability_at av c (Z.of_nat k) = 0)
  /\ (forall kv, av = AvDict kv -> (forall p, In p kv -> fst p <> c) ->
     availability_at av c (Z.of_nat k) = 0).
Proof.
  split.
  - intros xs -> H. cbn [availability_at]. rewrite Nat2Z.id.
    apply nth_overflow. exact H.
  - intros kv -> H. cbn [availability_at]. apply dict_get_missing. exact H.
Qed.

(** C10. For every date range with [start_date <= end_date], [build_days]
    does not fail for want of availability data: whatever [D_T] and [D_L]
    are, it returns one record per date of the range (per weekday when
    weekends are left out), in strictly ascending date order, each with
    the availability of its date or position, and 0 where a sequence is
    too short or a mapping has no entry for the date.  Its only failure on
    such a range is the overflow of the date after 9999-12-31. *)
Theorem build_days_total (start_date end_date : date) (d_t d_l : availability)
        (include_weekend : bool) :
  valid_date start_date -> valid_date end_date -> start_date <= end_date ->
  (end_date < MAXORDINAL ->
   exists ds,
     build_days start_date end_date d_t d_l include_weekend = Ok ds
     /\ ascending (map day_date ds)
     /\ (forall c, In c (map day_date ds) <->
           start_date <= c <= end_date
           /\ (include_weekend = true \/ weekday c < 5))
     /\ (forall k day, nth_error ds k = Some day ->
           D_T day = availability_at d_t (day_date day) (Z.of_nat k)
           /\ D_L day = availability_at d_l (day_date day) (Z.of_nat k)
           /\ (forall xs, d_t = AvSeq xs -> (length xs <= k)%nat -> D_T day = 0)
           /\ (forall kv, d_t = AvDict kv ->
                 (forall p, In p kv -> fst p <> day_date day) -> D_T day = 0)
           /\ (forall xs, d_l = AvSeq xs -> (length xs <= k)%nat -> D_L day = 0)
           /\ (forall kv, d_l = AvDict kv ->
                 (forall p, In p kv -> fst p <> day_date day) -> D_L day = 0)))
  /\ (end_date = MAXORDINAL ->
      build_days start_date end_date d_t d_l include_weekend = Raise OverflowError).
Proof.
  intros [Hs0 Hs1] [He0 He1] Hle. unfold build_days. cbv zeta.
  destruct (Z.ltb_spec end_date start_date) as [H|_]; [lia|]. split.
  - intros Hmax.
    rewrite (build_days_loop_spec end_date d_t d_l include_weekend
               (Z.to_nat (end_date + 1 - start_date)) Hmax start_date 0 [])
      by lia.
    cbn [app]. eexists. split; [reflexivity|].
    rewrite day_records_dates. split; [|split].
    + apply ascending_filter, ascending_range.
    + intros c. unfold kept_dates, kept.
      rewrite filter_In, In_range, orb_true_iff, Z.ltb_lt. intuition lia.
    + intros k day Hday.
      destruct (day_records_nth _ _ _ _ _ _ Hday) as [E1 E2].
      cbn [Z.add] in E1, E2.
      destruct (uncovered_zero d_t (day_date day) k) as [Z1 Z2].
      destruct (uncovered_zero d_l (day_date day) k) as [Z3 Z4].
      repeat split; try assumption; intros; try rewrite E1; try rewrite E2; eauto.
  - intros ->.
    apply (build_days_loop_overflow d_t d_l include_weekend
             (Z.to_nat (MAXORDINAL + 1 - start_date))); lia.
Qed.

(** Eleven days from Monday 2024-06-03, weekends left out, [D_T] a
    sequence of three entries and [D_L] a mapping with one date. *)
Lemma build_days_total_witness :
  valid_date 739040 /\ valid_date 739050 /\ 739040 <= 739050
  /\ build_days 739040 739050 (AvSeq [1; 2; 3]) (AvDict [(739041, 7)]) false
     = Ok [mkDay 739040 1 0; mkDay 739041 2 7; mkDay 739042 3 0;
           mkDay 739043 0 0; mkDay 739044 0 0; mkDay 739047 0 0;
           mkDay 739048 0 0; mkDay 739049 0 0; mkDay 739050 0 0]
  /\ exists ds,
       build_days 739040 739050 (AvSeq [1; 2; 3]) (AvDict [(739041, 7)]) false
       = Ok ds
       /\ ascending (map day_date ds).
Proof.
  assert (V1 : valid_date 739040) by (split; discriminate).
  assert (V2 : valid_date 739050) by (split; discriminate).
  assert (L : 739040 <= 739050) by discriminate.
  split; [exact V1|]. split; [exact V2|]. split; [exact L|].
  split; [vm_compute; reflexivity|].
  destruct (proj1 (build_days_total 739040 739050 (AvSeq [1; 2; 3])
                     (AvDict [(739041, 7)]) false V1 V2 L)
              ltac:(reflexivity)) as (ds & Hds & Hasc & _).
  exists ds. split; assumption.
Defined.

(* ================================================================== *)
(** * Further properties of the model *)

(** ** No overlap per driver *)

Lemma NoDup_range (lo hi : Z) : NoDup (range lo hi).
Proof.
  unfold range. apply Injective_map_NoDup; [|apply seq_NoDup].
  intros x y Hxy. lia.
Qed.

Lemma covering_In (data : Data) (dur t t0 : Z) :
  In t0 (covering data dur t) <->
  0 <= t0 < slots_per_day data /\ t0 <= t < t0 + dur
  /\ t0 + dur <= slots_per_day data.
Proof.
  unfold covering. rewrite filter_In, In_range, Z.leb_le. lia.
Qed.

Lemma NoDup_covering (data : Data) (dur t : Z) : NoDup (covering data dur t).
Proof. apply NoDup_filter, NoDup_range. Qed.


Section NoOverlap.

Variables (data : Data) (a : assignment).
Variables (x1 x2 : Z -> expr) (dur1 dur2 : Z).

Let spd := slots_per_day data.

Hypothesis x1_bool : forall t, 0 <= t < spd -> 0 <= eval a (x1 t) <= 1.
Hypothesis x2_bool : forall t, 0 <= t < spd -> 0 <= eval a (x2 t) <= 1.
Hypothesis x1_fits : forall t, eval a (x1 t) = 1 -> t + dur1 <= spd.
Hypothesis x2_fits : forall t, eval a (x2 t) = 1 -> t + dur2 <= spd.
Hypothesis cover : forall t, 0 <= t < spd ->
  zsum (map (fun t0 => eval a (x1 t0)) (covering data dur1 t))
  + zsum (map (fun t0 => eval a (x2 t0)) (covering data dur2 t)) <= 1.





End NoOverlap.

Lemma cover_T_ok (data : Data) (a : assignment) (d i t : Z) :
  feasible (build_model data) a = true ->
  0 <= d < n data -> 0 <= i < drivers_T_base data ->
  0 <= t < slots_per_day data ->
  zsum (map (fun t0 => eval a (S_start data d i t0)) (covering data (supply_slots data) t))
  + zsum (map (fun t0 => eval a (U_start data d i t0)) (covering data (shuttle_slots data) t))
  <= 1.
Proof.
  intros Hf Hd Hi Ht.
  pose proof (tirano_driver_ok data a d i Hf Hd Hi) as H.
  unfold tirano_driver in H. rewrite !feasible_app, !andb_true_iff in H.
  destruct H as (_ & H & _). rewrite feasible_map in H.
  specialize (H t (proj2 (In_range _ _ _) Ht)).
  cbn [item_ok holds] in H. apply Z.leb_le in H.
  unfold cover_T in H. rewrite eval_contributors in H. exact H.
Qed.

Lemma cover_L_ok (data : Data) (a : assignment) (d j t : Z) :
  feasible (build_model data) a = true ->
  0 <= d < n data -> 0 <= j < drivers_L_base data ->
  0 <= t < slots_per_day data ->
  zsum (map (fun t0 => eval a (V_start data d j t0)) (covering data (resident_slots data) t))
  + zsum (map (fun t0 => eval a (A_start data d j t0)) (covering data (adr_slots data) t))
  <= 1.
Proof.
  intros Hf Hd Hj Ht.
  pose proof (livigno_driver_ok data a d j Hf Hd Hj) as H.
  unfold livigno_driver in H. rewrite !feasible_app, !andb_true_iff in H.
  destruct H as (_ & H & _). rewrite feasible_map in H.
  specialize (H t (proj2 (In_range _ _ _) Ht)).
  cbn [item_ok holds] in H. apply Z.leb_le in H.
  unfold cover_L in H. rewrite eval_contributors in H. exact H.
Qed.




(** A second supply trip from slot 10, inside the first, is no solution. *)
Example overlapping_starts_rejected :
  feasible (build_model supply_day) supply_day_clash = false.
Proof. vm_compute. reflexivity. Qed.

(** ** Driving minutes and trip caps *)

Lemma drive_minutes_T_counts (data : Data) (a : assignment) (i d : Z) :
  drive_minutes_T data a i d
  = 300 * starts_count data a K_S d i + 210 * starts_count data a K_U d i.
Proof. reflexivity. Qed.

Lemma drive_minutes_L_counts (data : Data) (a : assignment) (j d : Z) :
  drive_minutes_L data a j d
  = 210 * starts_count data a K_V d j + 510 * starts_count data a K_A d j.
Proof. reflexivity. Qed.

Lemma daily_limit_T (data : Data) (a : assignment) (d i : Z) :
  feasible (build_model data) a = true ->
  0 <= d < n data -> 0 <= i < drivers_T_base data ->
  0 <= drive_minutes_T data a i d <= drive_minutes_extended data
  /\ (ext_flag_T data a d i = 0 \/ ext_flag_T data a d i = 1)
  /\ drive_minutes_T data a i d
     <= drive_minutes_daily data
        + ext_flag_T data a d i * (drive_minutes_extended data - drive_minutes_daily data).
Proof.
  intros Hf Hd Hi.
  pose proof (tirano_driver_ok data a d i Hf Hd Hi) as H.
  unfold tirano_driver in H. rewrite !feasible_app, !andb_true_iff in H.
  destruct H as (_ & _ & H & _).
  unfold feasible in H. cbn [forallb] in H.
  rewrite !andb_true_iff in H. destruct H as (Hdom & Hext & Heq & Hle & _).
  cbn [item_ok holds] in Hdom, Heq, Hle.
  apply Z.eqb_eq in Heq. apply Z.leb_le in Hle.
  change (eval a (Var (v_drive_T d i))) with (a (v_drive_T d i)) in Heq, Hle.
  rewrite drive_expr_T_minutes in Heq.
  unfold ext_flag_T.
  destruct (available_T data d i); cbn [new_start item_ok eval] in Hext, Hle;
    rewrite <- Heq; split; try lia; split; try lia.
Qed.

Lemma daily_limit_L (data : Data) (a : assignment) (d j : Z) :
  feasible (build_model data) a = true ->
  0 <= d < n data -> 0 <= j < drivers_L_base data ->
  0 <= drive_minutes_L data a j d <= drive_minutes_extended data
  /\ (ext_flag_L data a d j = 0 \/ ext_flag_L data a d j = 1)
  /\ drive_minutes_L data a j d
     <= drive_minutes_daily data
        + ext_flag_L data a d j * (drive_minutes_extended data - drive_minutes_daily data).
Proof.
  intros Hf Hd Hj.
  pose proof (livigno_driver_ok data a d j Hf Hd Hj) as H.
  unfold livigno_driver in H. rewrite !feasible_app, !andb_true_iff in H.
  destruct H as (_ & _ & H & _).
  unfold feasible in H. cbn [forallb] in H.
  rewrite !andb_true_iff in H. destruct H as (Hdom & Hext & Heq & Hle & _).
  cbn [item_ok holds] in Hdom, Heq, Hle.
  apply Z.eqb_eq in Heq. apply Z.leb_le in Hle.
  change (eval a (Var (v_drive_L d j))) with (a (v_drive_L d j)) in Heq, Hle.
  rewrite drive_expr_L_minutes in Heq.
  unfold ext_flag_L.
  destruct (available_L data d j); cbn [new_start item_ok eval] in Hext, Hle;
    rewrite <- Heq; split; try lia; split; try lia.
Qed.

(** X2. In every solution the driving minutes of a driver on a day, 300
    per supply trip and 210 per shuttle at Tirano, 210 per resident trip
    and 510 per ADR trip at Livigno, lie between 0 and
    [drive_minutes_extended], and within [drive_minutes_daily] unless the
    0/1 extended-day flag of the driver is set. *)
Theorem daily_driving_limit (data : Data) (a : assignment) (d : Z) :
  feasible (build_model data) a = true ->
  0 <= d < n data ->
  (forall i, 0 <= i < drivers_T_base data ->
     let m := 300 * starts_count data a K_S d i + 210 * starts_count data a K_U d i in
     0 <= m <= drive_minutes_extended data
     /\ (ext_flag_T data a d i = 0 \/ ext_flag_T data a d i = 1)
     /\ (ext_flag_T data a d i = 0 -> m <= drive_minutes_daily data))
  /\ (forall j, 0 <= j < drivers_L_base data ->
     let m := 210 * starts_count data a K_V d j + 510 * starts_count data a K_A d j in
     0 <= m <= drive_minutes_extended data
     /\ (ext_flag_L data a d j = 0 \/ ext_flag_L data a d j = 1)
     /\ (ext_flag_L data a d j = 0 -> m <= drive_minutes_daily data)).
Proof.
  intros Hf Hd. split.
  - intros i Hi. cbv zeta. rewrite <- drive_minutes_T_counts.
    destruct (daily_limit_T data a d i Hf Hd Hi) as (H1 & H2 & H3).
    split; [exact H1|]. split; [exact H2|]. intros E. rewrite E in H3. lia.
  - intros j Hj. cbv zeta. rewrite <- drive_minutes_L_counts.
    destruct (daily_limit_L data a d j Hf Hd Hj) as (H1 & H2 & H3).
    split; [exact H1|]. split; [exact H2|]. intros E. rewrite E in H3. lia.
Qed.

Lemma daily_driving_limit_witness :
  feasible (build_model supply_day) supply_day_solution = true
  /\ 300 * starts_count supply_day supply_day_solution K_S 0 0
     + 210 * starts_count supply_day supply_day_solution K_U 0 0 = 510
  /\ 300 * starts_count supply_day supply_day_solution K_S 0 0
     + 210 * starts_count supply_day supply_day_solution K_U 0 0
     <= drive_minutes_daily supply_day.
Proof.
  assert (Hf : feasible (build_model supply_day) supply_day_solution = true)
    by (vm_compute; reflexivity).
  split; [exact Hf|]. split; [vm_compute; reflexivity|].
  destruct (proj1 (daily_driving_limit supply_day supply_day_solution 0 Hf
                     ltac:(split; [lia|reflexivity])) 0
              ltac:(split; [lia|reflexivity])) as (_ & _ & H).
  apply H. reflexivity.
Defined.

(** X3. In every solution a Livigno driver starts at most
    [max_resident_trips] resident trips and at most [max_adr_trips] ADR
    trips on a day, each cap being in force when it is not negative. *)
Theorem trip_caps (data : Data) (a : assignment) (d j : Z) :
  feasible (build_model data) a = true ->
  0 <= d < n data -> 0 <= j < drivers_L_base data ->
  (0 <= max_resident_trips data ->
   starts_count data a K_V d j <= max_resident_trips data)
  /\ (0 <= max_adr_trips data ->
      starts_count data a K_A d j <= max_adr_trips data).
Proof.
  intros Hf Hd Hj.
  pose proof (livigno_driver_ok data a d j Hf Hd Hj) as H.
  unfold livigno_driver in H. rewrite !feasible_app, !andb_true_iff in H.
  destruct H as (_ & _ & _ & _ & _ & HV & HA).
  unfold trip_cap in HV, HA. unfold starts_count. cbn [start_entry].
  split; intros Hcap.
  - destruct (Z.leb_spec 0 (max_resident_trips data)); [|lia].
    unfold feasible in HV. cbn [forallb item_ok holds] in HV.
    rewrite andb_true_r in HV. apply Z.leb_le in HV.
    rewrite eval_Sum_map in HV. exact HV.
  - destruct (Z.leb_spec 0 (max_adr_trips data)); [|lia].
    unfold feasible in HA. cbn [forallb item_ok holds] in HA.
    rewrite andb_true_r in HA. apply Z.leb_le in HA.
    rewrite eval_Sum_map in HA. exact HA.
Qed.

Lemma trip_caps_witness :
  feasible (build_model resident_day) resident_day_solution = true
  /\ starts_count resident_day resident_day_solution K_V 0 0 = 1
  /\ starts_count resident_day resident_day_solution K_V 0 0
     <= max_resident_trips resident_day.
Proof.
  assert (Hf : feasible (build_model resident_day) resident_day_solution = true)
    by (vm_compute; reflexivity).
  split; [exact Hf|]. split; [vm_compute; reflexivity|].
  apply (proj1 (trip_caps resident_day resident_day_solution 0 0 Hf
                  ltac:(split; [lia|reflexivity])
                  ltac:(split; [lia|reflexivity]))).
  discriminate.
Defined.

(** ** Weekly accumulations *)

Lemma eval_starts_A (data : Data) (a : assignment) (d j : Z) :
  eval a (Sum (map (A_start data d j) (range 0 (slots_per_day data))))
  = starts_count data a K_A d j.
Proof. rewrite eval_Sum_map. reflexivity. Qed.

(** X4. When [adr_weekly_cap >= 0], in every solution a Livigno driver
    starts at most [adr_weekly_cap] ADR trips over the days of a week
    group. *)
Theorem adr_weekly_limit (data : Data) (a : assignment)
        (key : week_key) (idxs : list Z) (j : Z) :
  0 <= adr_weekly_cap data ->
  feasible (build_model data) a = true ->
  In (key, idxs) (weeks data) ->
  0 <= j < drivers_L_base data ->
  zsum (map (fun d => starts_count data a K_A d j) idxs) <= adr_weekly_cap data.
Proof.
  intros Hcap Hf Hin Hj.
  pose proof (ok_adr_weekly _ _ (feasible_blocks _ _ Hf)) as H.
  unfold adr_weekly in H.
  destruct (Z.leb_spec 0 (adr_weekly_cap data)); [|lia].
  rewrite feasible_flat_map in H.
  specialize (H j (proj2 (In_range _ _ _) Hj)).
  rewrite feasible_map in H. specialize (H _ Hin).
  cbn [item_ok holds snd] in H. apply Z.leb_le in H.
  rewrite eval_Sum_map in H.
  rewrite (zsum_map_ext _ (fun d => starts_count data a K_A d j)) in H; [exact H|].
  intros d _. apply eval_starts_A.
Qed.

Lemma adr_weekly_limit_witness :
  0 <= adr_weekly_cap adr_day
  /\ feasible (build_model adr_day) adr_day_solution = true
  /\ In ((2024, 23), [0]) (weeks adr_day)
  /\ zsum (map (fun d => starts_count adr_day adr_day_solution K_A d 0) [0]) = 1
  /\ zsum (map (fun d => starts_count adr_day adr_day_solution K_A d 0) [0])
     <= adr_weekly_cap adr_day.
Proof.
  assert (Hf : feasible (build_model adr_day) adr_day_solution = true)
    by (vm_compute; reflexivity).
  split; [discriminate|]. split; [exact Hf|]. split; [left; reflexivity|].
  split; [vm_compute; reflexivity|].
  apply (adr_weekly_limit adr_day adr_day_solution (2024, 23) [0] 0
           ltac:(discriminate) Hf ltac:(left; reflexivity)
           ltac:(split; [lia|reflexivity])).
Defined.

Lemma drive_limit_ok (a : assignment) (limit : Z) (drive : Z -> expr) (idxs : list Z) :
  item_ok a (drive_limit limit drive idxs) = true ->
  zsum (map (fun d => eval a (drive d)) idxs) <= limit.
Proof.
  unfold drive_limit. cbn [item_ok holds]. intros H. apply Z.leb_le in H.
  rewrite eval_Sum_map in H. exact H.
Qed.

(** X5. When [weekly_drive_limit_minutes >= 0], in every solution the
    driving minutes of a driver summed over the days of a week group are
    at most the limit. *)
Theorem weekly_driving_limit (data : Data) (a : assignment)
        (key : week_key) (idxs : list Z) :
  0 <= weekly_drive_limit_minutes data ->
  feasible (build_model data) a = true ->
  In (key, idxs) (weeks data) ->
  (forall i, 0 <= i < drivers_T_base data ->
     zsum (map (drive_minutes_T data a i) idxs) <= weekly_drive_limit_minutes data)
  /\ (forall j, 0 <= j < drivers_L_base data ->
     zsum (map (drive_minutes_L data a j) idxs) <= weekly_drive_limit_minutes data).
Proof.
  intros Hcap Hf Hin.
  pose proof (ok_weekly_drive _ _ (feasible_blocks _ _ Hf)) as H.
  unfold weekly_drive in H.
  destruct (Z.leb_spec 0 (weekly_drive_limit_minutes data)); [|lia].
  rewrite feasible_app, andb_true_iff, !feasible_flat_map in H.
  destruct H as [HT HL]. split.
  - intros i Hi. specialize (HT i (proj2 (In_range _ _ _) Hi)).
    rewrite feasible_map in HT. specialize (HT _ Hin). cbn [snd] in HT.
    pose proof (drive_limit_ok _ _ _ _ HT) as Hle.
    rewrite (zsum_map_ext _ (drive_minutes_T data a i)) in Hle
      by (intros d _; apply drive_expr_T_minutes).
    exact Hle.
  - intros j Hj. specialize (HL j (proj2 (In_range _ _ _) Hj)).
    rewrite feasible_map in HL. specialize (HL _ Hin). cbn [snd] in HL.
    pose proof (drive_limit_ok _ _ _ _ HL) as Hle.
    rewrite (zsum_map_ext _ (drive_minutes_L data a j)) in Hle
      by (intros d _; apply drive_expr_L_minutes).
    exact Hle.
Qed.

Lemma weekly_driving_limit_witness :
  0 <= weekly_drive_limit_minutes two_weeks
  /\ feasible (build_model two_weeks) two_weeks_solution = true
  /\ In ((2024, 24), [1]) (weeks two_weeks)
  /\ zsum (map (drive_minutes_L two_weeks two_weeks_solution 0) [1]) = 210
  /\ zsum (map (drive_minutes_L two_weeks two_weeks_solution 0) [1])
     <= weekly_drive_limit_minutes two_weeks.
Proof.
  assert (Hf : feasible (build_model two_weeks) two_weeks_solution = true)
    by (vm_compute; reflexivity).
  split; [discriminate|]. split; [exact Hf|].
  split; [right; left; reflexivity|]. split; [vm_compute; reflexivity|].
  apply (proj2 (weekly_driving_limit two_weeks two_weeks_solution (2024, 24) [1]
                  ltac:(discriminate) Hf ltac:(right; left; reflexivity))).
  split; [lia|reflexivity].
Defined.

(** *** Adjacent weeks *)

Lemma key_leb_spec (k1 k2 : week_key) :
  key_leb k1 k2 = true <-> key_lt k1 k2 \/ k1 = k2.
Proof.
  destruct k1 as [y1 w1], k2 as [y2 w2]. unfold key_leb, key_lt. cbn [fst snd].
  rewrite orb_true_iff, andb_true_iff, Z.ltb_lt, Z.eqb_eq, Z.leb_le. split.
  - intros [H|[-> H]]; [left; now left|].
    destruct (Z.eq_dec w1 w2) as [->|Hne]; [now right|left; right; lia].
  - intros [[H|[H1 H2]]|[= -> ->]]; [now left|right; lia|right; lia].
Qed.

Lemma key_leb_false (k1 k2 : week_key) : key_leb k1 k2 = false -> key_lt k2 k1.
Proof.
  destruct k1 as [y1 w1], k2 as [y2 w2]. unfold key_leb, key_lt. cbn [fst snd].
  rewrite orb_false_iff, andb_false_iff, Z.ltb_ge, Z.eqb_neq, Z.leb_gt. lia.
Qed.

Lemma key_lt_trans (k1 k2 k3 : week_key) : key_lt k1 k2 -> key_lt k2 k3 -> key_lt k1 k3.
Proof. unfold key_lt. lia. Qed.

Lemma key_lt_irrefl (k : week_key) : ~ key_lt k k.
Proof. unfold key_lt. lia. Qed.

Lemma key_leb_trans (k1 k2 k3 : week_key) :
  key_leb k1 k2 = true -> key_leb k2 k3 = true -> key_leb k1 k3 = true.
Proof.
  rewrite !key_leb_spec. intros [H1| ->] [H2| ->]; auto.
  left. eapply key_lt_trans; eauto.
Qed.

Lemma insert_key_In (k x : week_key) (l : list week_key) :
  In x (insert_key k l) <-> x = k \/ In x l.
Proof.
  induction l as [|h rest IH]; cbn [insert_key In]; [intuition|].
  destruct (key_leb k h); cbn [In]; [intuition|]. rewrite IH. intuition.
Qed.

Lemma insert_key_ascending (k : week_key) (l : list week_key) :
  keys_ascending l -> keys_ascending (insert_key k l).
Proof.
  induction l as [|h rest IH]; cbn [insert_key keys_ascending].
  - intros _. split; [intros k' []|exact I].
  - intros [Hh Hrest]. destruct (key_leb k h) eqn:E; cbn [keys_ascending].
    + split; [|split; assumption].
      intros k' [<-|Hk']; [exact E|].
      apply (key_leb_trans k h k' E). apply Hh. exact Hk'.
    + split; [|apply IH; exact Hrest].
      intros k' Hk'. apply insert_key_In in Hk' as [->|Hk']; [|apply Hh; exact Hk'].
      apply key_leb_spec. left. apply key_leb_false. exact E.
Qed.

Lemma insert_key_NoDup (k : week_key) (l : list week_key) :
  ~ In k l -> NoDup l -> NoDup (insert_key k l).
Proof.
  induction l as [|h rest IH]; cbn [insert_key]; intros Hk Hnd.
  - constructor; [intros []|constructor].
  - destruct (key_leb k h); [constructor; assumption|].
    inversion Hnd as [|? ? Hh Hnd']; subst. constructor.
    + rewrite insert_key_In. intros [->|H]; [apply Hk; now left|contradiction].
    + apply IH; [intros H; apply Hk; now right|exact Hnd'].
Qed.

(** [sorted(keys)] holds the same keys, in ascending order. *)
Lemma sorted_keys_spec (l : list week_key) :
  (forall k, In k (sorted_keys l) <-> In k l)
  /\ keys_ascending (sorted_keys l)
  /\ (NoDup l -> NoDup (sorted_keys l)).
Proof.
  induction l as [|h rest (IH1 & IH2 & IH3)]; cbn [sorted_keys fold_right].
  - split; [tauto|]. split; [exact I|auto].
  - fold (sorted_keys rest). split; [|split].
    + intros k. rewrite insert_key_In, IH1. cbn [In]. intuition.
    + apply insert_key_ascending. exact IH2.
    + intros Hnd. inversion Hnd as [|? ? Hh Hnd']; subst.
      apply insert_key_NoDup; [rewrite IH1; exact Hh|auto].
Qed.

(** In an ascending list without repetition, two keys with none of the
    list strictly between them are neighbours. *)
Lemma adjacent_complete (l : list week_key) (k1 k2 : week_key) :
  keys_ascending l -> NoDup l ->
  In k1 l -> In k2 l -> key_lt k1 k2 ->
  (forall k, In k l -> ~ (key_lt k1 k /\ key_lt k k2)) ->
  In (k1, k2) (adjacent l).
Proof.
  induction l as [|h rest IH]; [intros _ _ []|].
  intros [Hh Hasc] Hnd H1 H2 Hlt Hbetween.
  inversion Hnd as [|? ? Hnotin Hnd']; subst.
  assert (Hh2 : forall k, In k rest -> key_lt h k).
  { intros k Hk. destruct (proj1 (key_leb_spec h k) (Hh k Hk)) as [H|H]; [exact H|].
    subst. contradiction. }
  destruct rest as [|h2 rest'].
  - destruct H1 as [<-|[]], H2 as [<-|[]]. exfalso. exact (key_lt_irrefl _ Hlt).
  - cbn [adjacent]. destruct H1 as [<-|H1].
    + destruct H2 as [<-|H2]; [exfalso; exact (key_lt_irrefl _ Hlt)|].
      destruct H2 as [<-|H2]; [now left|].
      exfalso. apply (Hbetween h2); [right; now left|].
      split; [apply Hh2; now left|].
      destruct Hasc as [Hh2' _].
      destruct (proj1 (key_leb_spec h2 k2) (Hh2' k2 H2)) as [H|H]; [exact H|].
      subst. inversion Hnd' as [|? ? Hn _]. contradiction.
    + right. apply IH; auto.
      * destruct H2 as [<-|H2]; [|exact H2].
        exfalso. pose proof (Hh2 k1 H1) as H. exact (key_lt_irrefl _ (key_lt_trans _ _ _ Hlt H)).
      * intros k Hk. apply Hbetween. now right.
Qed.

Lemma NoDup_fst_unique {A B} (l : list (A * B)) (k : A) (x y : B) :
  NoDup (map fst l) -> In (k, x) l -> In (k, y) l -> x = y.
Proof.
  induction l as [|[k' z] l IH]; cbn [map fst]; intros Hnd Hx Hy; [destruct Hx|].
  inversion Hnd as [|? ? Hk Hnd']; subst.
  destruct Hx as [[= -> ->]|Hx], Hy as [[= <-]|Hy]; auto.
  - subst. exfalso. apply Hk. apply in_map_iff. exists (k, y). auto.
  - exfalso. apply Hk. apply in_map_iff. exists (k', x). auto.
Qed.

(** [weeks[key]] is the group stored under the key. *)
Lemma week_days_spec (data : Data) (key : week_key) (idxs : list Z) :
  In (key, idxs) (weeks data) -> week_days data key = idxs.
Proof.
  intros Hin. unfold week_days.
  destruct (find _ (weeks data)) as [[k' l]|] eqn:E.
  - apply find_some in E as [Hin' Heq]. cbn [fst snd] in *.
    apply key_eqb_eq in Heq. subst k'.
    destruct (weeks_of_spec (days data)) as (Hnd & _).
    exact (NoDup_fst_unique _ _ _ _ Hnd Hin' Hin).
  - exfalso. apply (find_none _ _ E) in Hin. cbn [fst] in Hin.
    assert (key_eqb key key = true) by (now apply key_eqb_eq). congruence.
Qed.

(** X6. When [biweekly_drive_limit_minutes >= 0], in every solution the
    driving minutes of a driver over the days of two week groups that are
    neighbours in key order (no group of the horizon lies strictly between
    them) are together at most the limit. *)
Theorem biweekly_driving_limit (data : Data) (a : assignment)
        (k1 k2 : week_key) (idxs1 idxs2 : list Z) :
  0 <= biweekly_drive_limit_minutes data ->
  feasible (build_model data) a = true ->
  In (k1, idxs1) (weeks data) -> In (k2, idxs2) (weeks data) ->
  key_lt k1 k2 ->
  (forall k idxs, In (k, idxs) (weeks data) -> ~ (key_lt k1 k /\ key_lt k k2)) ->
  (forall i, 0 <= i < drivers_T_base data ->
     zsum (map (drive_minutes_T data a i) (idxs1 ++ idxs2))
       <= biweekly_drive_limit_minutes data)
  /\ (forall j, 0 <= j < drivers_L_base data ->
     zsum (map (drive_minutes_L data a j) (idxs1 ++ idxs2))
       <= biweekly_drive_limit_minutes data).
Proof.
  intros Hcap Hf H1 H2 Hlt Hbetween.
  pose proof (ok_biweekly_drive _ _ (feasible_blocks _ _ Hf)) as H.
  unfold biweekly_drive in H.
  destruct (Z.leb_spec 0 (biweekly_drive_limit_minutes data)); [|lia].
  assert (Hlen : 1 < Z.of_nat (length (weeks data))).
  { destruct (weeks data) as [|e1 [|e2 rest]]; cbn [length]; try lia.
    - destruct H1.
    - destruct H1 as [->|[]], H2 as [[= -> _]|[]].
      exfalso. exact (key_lt_irrefl _ Hlt). }
  destruct (Z.ltb_spec 1 (Z.of_nat (length (weeks data)))); [|lia].
  cbn [andb] in H. cbv zeta in H.
  destruct (weeks_of_spec (days data)) as (Hnd & _). fold (weeks data) in Hnd.
  destruct (sorted_keys_spec (map fst (weeks data))) as (S1 & S2 & S3).
  assert (Hadj : In (k1, k2) (adjacent (sorted_keys (map fst (weeks data))))).
  { apply adjacent_complete; auto.
    - apply S1, in_map_iff. exists (k1, idxs1). auto.
    - apply S1, in_map_iff. exists (k2, idxs2). auto.
    - intros k Hk. apply S1, in_map_iff in Hk as [[k' l] [<- Hk]].
      cbn [fst]. exact (Hbetween k' l Hk). }
  rewrite feasible_app, andb_true_iff, !feasible_flat_map in H.
  destruct H as [HT HL]. split.
  - intros i Hi. specialize (HT i (proj2 (In_range _ _ _) Hi)).
    rewrite feasible_map in HT. specialize (HT _ Hadj). cbn [fst snd] in HT.
    rewrite (week_days_spec data k1 idxs1 H1), (week_days_spec data k2 idxs2 H2) in HT.
    pose proof (drive_limit_ok _ _ _ _ HT) as Hle.
    rewrite (zsum_map_ext _ (drive_minutes_T data a i)) in Hle
      by (intros d _; apply drive_expr_T_minutes).
    exact Hle.
  - intros j Hj. specialize (HL j (proj2 (In_range _ _ _) Hj)).
    rewrite feasible_map in HL. specialize (HL _ Hadj). cbn [fst snd] in HL.
    rewrite (week_days_spec data k1 idxs1 H1), (week_days_spec data k2 idxs2 H2) in HL.
    pose proof (drive_limit_ok _ _ _ _ HL) as Hle.
    rewrite (zsum_map_ext _ (drive_minutes_L data a j)) in Hle
      by (intros d _; apply drive_expr_L_minutes).
    exact Hle.
Qed.

Lemma biweekly_driving_limit_witness :
  0 <= biweekly_drive_limit_minutes two_weeks
  /\ feasible (build_model two_weeks) two_weeks_solution = true
  /\ weeks two_weeks = [((2024, 23), [0]); ((2024, 24), [1])]
  /\ zsum (map (drive_minutes_L two_weeks two_weeks_solution 0) ([0] ++ [1])) = 420
  /\ zsum (map (drive_minutes_L two_weeks two_weeks_solution 0) ([0] ++ [1]))
     <= biweekly_drive_limit_minutes two_weeks.
Proof.
  assert (Hf : feasible (build_model two_weeks) two_weeks_solution = true)
    by (vm_compute; reflexivity).
  assert (Hw : weeks two_weeks = [((2024, 23), [0]); ((2024, 24), [1])])
    by (vm_compute; reflexivity).
  split; [discriminate|]. split; [exact Hf|]. split; [exact Hw|].
  split; [vm_compute; reflexivity|].
  assert (Hb : forall k idxs, In (k, idxs) (weeks two_weeks) ->
                 ~ (key_lt (2024, 23) k /\ key_lt k (2024, 24))).
  { intros k idxs Hin [A B]. rewrite Hw in Hin.
    destruct Hin as [[= <- _]|[[= <- _]|[]]].
    - exact (key_lt_irrefl _ A).
    - exact (key_lt_irrefl _ B). }
  apply (proj2 (biweekly_driving_limit two_weeks two_weeks_solution
                  (2024, 23) (2024, 24) [0] [1]
                  ltac:(discriminate) Hf
                  ltac:(rewrite Hw; left; reflexivity)
                  ltac:(rewrite Hw; right; left; reflexivity)
                  ltac:(right; split; [reflexivity|reflexivity]) Hb)).
  split; [lia|reflexivity].
Defined.

(* ================================================================== *)
(** * The reporter *)

Lemma day_out_eq (data : Data) (r : Response) (a : assignment) (d : Z) :
  solution r = Some a -> day_out data r d = Ok (day_report data a d).
Proof.
  intros H. rewrite day_out_reading. unfold reading. now rewrite H.
Qed.

(** The shape of a returned result. *)
Lemma solve_Ok_days (data : Data) (solver : CpSolver) (r : SolveResult) :
  solve solver data = Ok r ->
  slot_minutes data <> 0
  /\ subscript_out_of_range data = false
  /\ mapM (day_out data (solver (build_model data))) (range 0 (n data))
     = Ok (result_days r).
Proof.
  unfold solve.
  destruct (Z.eqb_spec (slot_minutes data) 0); [discriminate|].
  destruct (subscript_out_of_range data); [discriminate|].
  cbv zeta. destruct (mapM _ _) as [os|e]; [|discriminate]. cbn [bind].
  destruct (has_solution_status _).
  - destruct (value _ _); [|discriminate]. cbn [bind]. intros [= <-].
    repeat split; auto.
  - cbn [bind]. intros [= <-]. repeat split; auto.
Qed.

Lemma mapM_Ok_inv {A B} (f : A -> result B) (l : list A) (ys : list B) :
  mapM f l = Ok ys ->
  length ys = length l
  /\ forall k x, nth_error l k = Some x ->
       exists y, nth_error ys k = Some y /\ f x = Ok y.
Proof.
  revert ys. induction l as [|x l IH]; intros ys; cbn [mapM].
  - intros [= <-]. split; [reflexivity|]. intros [|k] y; discriminate.
  - destruct (f x) as [y|e] eqn:E; [|discriminate]. cbn [bind].
    destruct (mapM f l) as [ys'|e]; [|discriminate]. cbn [bind].
    intros [= <-]. destruct (IH ys' eq_refl) as [Hlen Hnth].
    split; [cbn [length]; lia|].
    intros [|k] x'; cbn [nth_error].
    + intros [= <-]. exists y. split; [reflexivity|exact E].
    + apply Hnth.
Qed.

Lemma nth_error_range (lo hi : Z) (k : nat) :
  lo + Z.of_nat k < hi -> nth_error (range lo hi) k = Some (lo + Z.of_nat k).
Proof.
  intros H. unfold range. rewrite nth_error_map.
  rewrite nth_error_seq.
  destruct (Nat.ltb_spec k (Z.to_nat (hi - lo))); [reflexivity|lia].
Qed.

(** A result returned with status OPTIMAL or FEASIBLE by a sound solver is
    the report of a solution of the model. *)
Lemma solve_report (data : Data) (solver : CpSolver) (r : SolveResult) :
  solve solver data = Ok r ->
  sound_response (build_model data) (solver (build_model data)) ->
  has_solution_status (status r) = true ->
  exists a, feasible (build_model data) a = true
    /\ result_days r = map (day_report data a) (range 0 (n data))
    /\ objective_deliveries r = a v_total_deliveries
    /\ (0 < n data -> 0 <= slots_per_day data)
    /\ solution (solver (build_model data)) = Some a.
Proof.
  intros Hr Hsound Hs.
  destruct (sound_solution _ _ _ Hr Hsound Hs) as (a & Ha & Hf & Hobj).
  destruct (solve_Ok_days _ _ _ Hr) as (_ & Hsub & Hm).
  exists a. split; [exact Hf|]. split; [|split; [exact Hobj|split; [|exact Ha]]].
  - rewrite (mapM_Ok _ (day_report data a)) in Hm.
    + now injection Hm as <-.
    + intros d _. apply day_out_eq. exact Ha.
  - intros Hn. unfold subscript_out_of_range in Hsub.
    destruct (Z.ltb_spec 0 (n data)); [|lia].
    destruct (Z.ltb_spec (slots_per_day data) 0); [discriminate Hsub|lia].
Qed.

(** X7. A returned result has one record per input day, in the order of
    the input, each echoing the day's date, [D_T] and [D_L]. *)
Theorem report_echoes_days (data : Data) (solver : CpSolver) (r : SolveResult) :
  solve solver data = Ok r ->
  length (result_days r) = length (days data)
  /\ forall k day, nth_error (days data) k = Some day ->
       exists o, nth_error (result_days r) k = Some o
         /\ out_date o = day_date day
         /\ out_D_T o = D_T day /\ out_D_L o = D_L day.
Proof.
  intros Hr. destruct (solve_Ok_days _ _ _ Hr) as (_ & _ & Hm).
  destruct (mapM_Ok_inv _ _ _ Hm) as [Hlen Hnth].
  rewrite length_range in Hlen. unfold n in Hlen.
  split; [lia|].
  intros k day Hday.
  assert (Hk : (k < length (days data))%nat)
    by (apply nth_error_Some; congruence).
  destruct (Hnth k (Z.of_nat k)) as (o & Ho & Hout).
  { rewrite nth_error_range by (unfold n; lia). f_equal. }
  exists o. split; [exact Ho|].
  assert (Hat : day_at (days data) (Z.of_nat k) = day).
  { unfold day_at. rewrite Nat2Z.id. apply nth_error_nth. exact Hday. }
  rewrite day_out_reading in Hout. injection Hout as <-.
  cbn [day_report out_date out_D_T out_D_L]. rewrite Hat. auto.
Qed.

Lemma report_echoes_days_witness :
  exists r, solve two_weeks_solver two_weeks = Ok r
    /\ length (result_days r) = 2%nat
    /\ map out_date (result_days r) = [739040; 739047].
Proof.
  destruct (solve two_weeks_solver two_weeks) as [r|e] eqn:E.
  - exists r. split; [reflexivity|].
    destruct (report_echoes_days two_weeks two_weeks_solver r E) as [Hlen _].
    split; [exact Hlen|].
    revert E. vm_compute. intros E. injection E as <-. reflexivity.
  - exfalso. vm_compute in E. discriminate E.
Defined.

Lemma nth_error_map_range {B} (f : Z -> B) (m : Z) (k : nat) (o : B) :
  nth_error (map f (range 0 m)) k = Some o ->
  Z.of_nat k < m /\ o = f (Z.of_nat k).
Proof.
  intros H. rewrite nth_error_map in H.
  destruct (nth_error (range 0 m) k) as [d|] eqn:E; [|discriminate].
  injection H as <-.
  assert (Hk : (k < length (range 0 m))%nat) by (apply nth_error_Some; congruence).
  rewrite length_range in Hk.
  rewrite nth_error_range in E by lia. injection E as <-.
  split; [lia|f_equal].
Qed.

(** X8. In a result returned with status OPTIMAL or FEASIBLE by a sound
    solver, the first day starts with the initial inventory and every
    later day starts with the inventory the day before ended with. *)
Theorem report_inventory_chain (data : Data) (solver : CpSolver) (r : SolveResult) :
  solve solver data = Ok r ->
  sound_response (build_model data) (solver (build_model data)) ->
  has_solution_status (status r) = true ->
  (forall o, nth_error (result_days r) 0 = Some o ->
     FT_start o = init_FT data /\ ET_start o = init_ET data
     /\ Tf_start o = init_Tf data /\ Te_start o = init_Te data)
  /\ (forall k o1 o2,
        nth_error (result_days r) k = Some o1 ->
        nth_error (result_days r) (S k) = Some o2 ->
        FT_start o2 = FT_end o1 /\ ET_start o2 = ET_end o1
        /\ Tf_start o2 = Tf_end o1 /\ Te_start o2 = Te_end o1).
Proof.
  intros Hr Hsound Hs.
  destruct (solve_report data solver r Hr Hsound Hs) as (a & Hf & Hdays & _ & _).
  rewrite Hdays. split.
  - intros o Ho. apply nth_error_map_range in Ho as [Hn ->].
    cbn [day_report FT_start ET_start Tf_start Te_start].
    apply (first_boundary data a Hf). lia.
  - intros k o1 o2 H1 H2.
    apply nth_error_map_range in H1 as [Hn1 ->].
    apply nth_error_map_range in H2 as [Hn2 ->].
    cbn [day_report FT_start ET_start Tf_start Te_start FT_end ET_end Tf_end Te_end].
    destruct (next_day_boundary data a (Z.of_nat (S k)) Hf ltac:(lia))
      as (E1 & E2 & E3 & E4).
    replace (Z.of_nat (S k) - 1) with (Z.of_nat k) in * by lia.
    auto.
Qed.

Lemma report_inventory_chain_witness :
  exists r, solve two_weeks_solver two_weeks = Ok r
    /\ map (fun o => (FT_start o, ET_start o)) (result_days r) = [(2, 0); (1, 1)]
    /\ map (fun o => (FT_end o, ET_end o)) (result_days r) = [(1, 1); (0, 2)]
    /\ forall o, nth_error (result_days r) 0 = Some o ->
         FT_start o = init_FT two_weeks.
Proof.
  destruct (solve two_weeks_solver two_weeks) as [r|e] eqn:E.
  - exists r. split; [reflexivity|].
    assert (Hs : has_solution_status (status r) = true).
    { revert E. vm_compute. intros E. injection E as <-. reflexivity. }
    assert (Hsound : sound_response (build_model two_weeks)
                       (two_weeks_solver (build_model two_weeks))).
    { unfold sound_response, two_weeks_solver. cbn [status_code solution].
      eexists. split; [reflexivity|]. vm_compute. reflexivity. }
    split; [revert E; vm_compute; intros E; injection E as <-; reflexivity|].
    split; [revert E; vm_compute; intros E; injection E as <-; reflexivity|].
    intros o Ho.
    apply (proj1 (report_inventory_chain two_weeks two_weeks_solver r E Hsound Hs) o Ho).
  - exfalso. vm_compute in E. discriminate E.
Defined.

Lemma total_deliveries_eq (data : Data) (a : assignment) :
  feasible (build_model data) a = true ->
  a v_total_deliveries
  = zsum (map (fun d => out_U (day_report data a d) + out_V (day_report data a d)
                        + out_A (day_report data a d))
              (range 0 (n data)))
  /\ 0 <= a v_total_deliveries <= n data * slots_per_day data.
Proof.
  intros Hf.
  pose proof (ok_objective _ _ (feasible_blocks _ _ Hf)) as Ho.
  unfold objective, feasible in Ho. cbn [forallb item_ok holds] in Ho.
  rewrite !andb_true_iff in Ho. destruct Ho as (Hdom & Ho & _).
  apply Z.eqb_eq in Ho. unfold total_deliveries in Ho.
  change (eval a (Var v_total_deliveries)) with (a v_total_deliveries) in Ho.
  split; [|lia].
  rewrite Ho. unfold deliveries_expr. rewrite eval_Sum_map. reflexivity.
Qed.

(** X9. In a result returned with status OPTIMAL or FEASIBLE by a sound
    solver, [objective_deliveries] is the sum over the days of the
    reported U, V and A counts, it lies between 0 and the number of days
    times [slots_per_day], and [objective_liters] is [liters_per_unit]
    times it. *)
Theorem objective_matches_report (data : Data) (solver : CpSolver) (r : SolveResult) :
  solve solver data = Ok r ->
  sound_response (build_model data) (solver (build_model data)) ->
  has_solution_status (status r) = true ->
  objective_deliveries r
    = zsum (map (fun o => out_U o + out_V o + out_A o) (result_days r))
  /\ 0 <= objective_deliveries r <= n data * slots_per_day data
  /\ objective_liters r = objective_deliveries r * liters_per_unit data.
Proof.
  intros Hr Hsound Hs.
  destruct (solve_report data solver r Hr Hsound Hs) as (a & Hf & Hdays & Hobj & _).
  destruct (total_deliveries_eq data a Hf) as [Heq Hdom].
  destruct (solve_Ok_inv _ _ _ Hr) as (_ & Hl & _).
  rewrite Hobj, Hdays, map_map. split; [exact Heq|]. split; [exact Hdom|].
  rewrite Hl, Hobj. reflexivity.
Qed.

Lemma objective_matches_report_witness :
  exists r, solve two_weeks_solver two_weeks = Ok r
    /\ objective_deliveries r = 2
    /\ objective_deliveries r
       = zsum (map (fun o => out_U o + out_V o + out_A o) (result_days r)).
Proof.
  destruct (solve two_weeks_solver two_weeks) as [r|e] eqn:E.
  - exists r. split; [reflexivity|].
    assert (Hs : has_solution_status (status r) = true).
    { revert E. vm_compute. intros E. injection E as <-. reflexivity. }
    assert (Hsound : sound_response (build_model two_weeks)
                       (two_weeks_solver (build_model two_weeks))).
    { unfold sound_response, two_weeks_solver. cbn [status_code solution].
      eexists. split; [reflexivity|]. vm_compute. reflexivity. }
    split; [revert E; vm_compute; intros E; injection E as <-; reflexivity|].
    apply (proj1 (objective_matches_report two_weeks two_weeks_solver r E Hsound Hs)).
  - exfalso. vm_compute in E. discriminate E.
Defined.

(** *** The start lists *)

Lemma driver_report_In (a : assignment) (k1 k2 : string) (x1 x2 : Z -> expr)
      (spd : Z) (s : Start) :
  In s (driver_report a k1 k2 x1 x2 spd) <->
  0 <= slot s < spd
  /\ ((task s = k1 /\ eval a (x1 (slot s)) <> 0)
      \/ (task s = k2 /\ eval a (x2 (slot s)) <> 0)).
Proof.
  unfold driver_report. rewrite in_concat. split.
  - intros [l [Hl Hs]]. apply in_map_iff in Hl as [t [<- Ht]].
    apply In_range in Ht. apply in_app_iff in Hs.
    destruct Hs as [Hs|Hs].
    + destruct (Z.eqb_spec (eval a (x1 t)) 0); [destruct Hs|].
      destruct Hs as [<-|[]]. cbn [slot task]. auto.
    + destruct (Z.eqb_spec (eval a (x2 t)) 0); [destruct Hs|].
      destruct Hs as [<-|[]]. cbn [slot task]. auto.
  - intros [Ht Hs]. destruct s as [k t]. cbn [slot task] in *.
    eexists. split; [apply in_map_iff; exists t; split;
                     [reflexivity|apply In_range; exact Ht]|].
    apply in_app_iff. destruct Hs as [[-> Hne]|[-> Hne]]; [left|right].
    + destruct (Z.eqb_spec (eval a (x1 t)) 0); [contradiction|now left].
    + destruct (Z.eqb_spec (eval a (x2 t)) 0); [contradiction|now left].
Qed.

Lemma nondecreasing_app (l1 l2 : list Z) :
  nondecreasing l1 -> nondecreasing l2 ->
  (forall x y, In x l1 -> In y l2 -> x <= y) ->
  nondecreasing (l1 ++ l2).
Proof.
  induction l1 as [|x l1 IH]; cbn [app nondecreasing]; [auto|].
  intros [Hx H1] H2 H12. split.
  - intros y Hy. apply in_app_iff in Hy as [Hy|Hy]; [auto|].
    apply H12; [now left|exact Hy].
  - apply IH; auto. intros x' y Hx' Hy. apply H12; [now right|exact Hy].
Qed.

Lemma slots_in_order (f : Z -> list Start) (lo hi : Z) :
  (forall t s, In s (f t) -> slot s = t) ->
  nondecreasing (start_slots (concat (map f (range lo hi))))
  /\ forall s, In s (concat (map f (range lo hi))) -> lo <= slot s.
Proof.
  intros Hf. remember (Z.to_nat (hi - lo)) as k eqn:Hk. revert lo Hk.
  induction k as [|k IH]; intros lo Hk.
  - rewrite range_empty by lia. cbn. split; [exact I|intros s []].
  - rewrite range_cons by lia. cbn [map concat].
    destruct (IH (lo + 1) ltac:(lia)) as [IH1 IH2].
    unfold start_slots in *. rewrite map_app. split.
    + apply nondecreasing_app; [|exact IH1|].
      * assert (H : forall l, (forall s, In s l -> slot s = lo) ->
                     nondecreasing (map slot l)).
        { induction l as [|s l IHl]; cbn [map nondecreasing]; [auto|].
          intros Hl. split; [|apply IHl; intros; apply Hl; now right].
          intros y Hy. apply in_map_iff in Hy as [s' [<- Hs']].
          rewrite (Hl s (or_introl eq_refl)), (Hl s' (or_intror Hs')). lia. }
        apply H. intros s Hs. exact (Hf lo s Hs).
      * intros x y Hx Hy.
        apply in_map_iff in Hx as [s [<- Hs]].
        apply in_map_iff in Hy as [s' [<- Hs']].
        rewrite (Hf lo s Hs). pose proof (IH2 s' Hs'). lia.
    + intros s Hs. apply in_app_iff in Hs as [Hs|Hs].
      * rewrite (Hf lo s Hs). lia.
      * pose proof (IH2 s Hs). lia.
Qed.

Lemma driver_report_sorted (a : assignment) (k1 k2 : string) (x1 x2 : Z -> expr)
      (spd : Z) :
  nondecreasing (start_slots (driver_report a k1 k2 x1 x2 spd)).
Proof.
  unfold driver_report. apply slots_in_order.
  intros t s Hs. apply in_app_iff in Hs.
  destruct Hs as [Hs|Hs].
  - destruct (eval a (x1 t) =? 0); [destruct Hs|]. destruct Hs as [<-|[]]. reflexivity.
  - destruct (eval a (x2 t) =? 0); [destruct Hs|]. destruct Hs as [<-|[]]. reflexivity.
Qed.

Lemma driver_report_length_from (a : assignment) (k1 k2 : string)
      (x1 x2 : Z -> expr) (lo spd : Z) :
  (forall t, lo <= t < spd -> 0 <= eval a (x1 t) <= 1 /\ 0 <= eval a (x2 t) <= 1) ->
  Z.of_nat (length (concat (map (fun t =>
                 (if eval a (x1 t) =? 0 then [] else [mkStart k1 t])
                 ++ (if eval a (x2 t) =? 0 then [] else [mkStart k2 t]))
              (range lo spd))))
  = zsum (map (fun t => eval a (x1 t)) (range lo spd))
    + zsum (map (fun t => eval a (x2 t)) (range lo spd)).
Proof.
  remember (Z.to_nat (spd - lo)) as k eqn:Hk. revert lo Hk.
  induction k as [|k IH]; intros lo Hk Hb.
  - rewrite range_empty by lia. reflexivity.
  - rewrite range_cons by lia. cbn [map concat zsum fold_right].
    rewrite length_app, Nat2Z.inj_add.
    rewrite (IH (lo + 1)) by (try lia; intros; apply Hb; lia).
    fold (zsum (map (fun t => eval a (x1 t)) (range (lo + 1) spd))).
    fold (zsum (map (fun t => eval a (x2 t)) (range (lo + 1) spd))).
    destruct (Hb lo ltac:(lia)) as [B1 B2].
    rewrite length_app.
    destruct (Z.eqb_spec (eval a (x1 lo)) 0), (Z.eqb_spec (eval a (x2 lo)) 0);
      cbn [length]; lia.
Qed.

Lemma driver_report_length (a : assignment) (k1 k2 : string) (x1 x2 : Z -> expr)
      (spd : Z) :
  (forall t, 0 <= t < spd -> 0 <= eval a (x1 t) <= 1 /\ 0 <= eval a (x2 t) <= 1) ->
  Z.of_nat (length (driver_report a k1 k2 x1 x2 spd))
  = zsum (map (fun t => eval a (x1 t)) (range 0 spd))
    + zsum (map (fun t => eval a (x2 t)) (range 0 spd)).
Proof. apply driver_report_length_from. Qed.

Lemma tirano_start_list (data : Data) (a : assignment) (d i : Z) :
  feasible (build_model data) a = true ->
  0 <= d < n data -> 0 <= i < drivers_T_base data ->
  let l := driver_report a "S" "U" (S_start data d i) (U_start data d i)
             (slots_per_day data) in
  (forall s, In s l <->
     0 <= slot s < slots_per_day data
     /\ ((task s = "S"%string /\ started data a K_S d i (slot s))
         \/ (task s = "U"%string /\ started data a K_U d i (slot s))))
  /\ nondecreasing (start_slots l)
  /\ Z.of_nat (length l)
     = starts_count data a K_S d i + starts_count data a K_U d i.
Proof.
  intros Hf Hd Hi l. subst l. split; [|split].
  - intros s. rewrite driver_report_In. unfold started. cbn [start_entry].
    split; intros [Ht Hs]; (split; [exact Ht|]);
      destruct (start_domain_T data a d i (slot s) Hf Hd Hi Ht) as [B1 B2];
      destruct Hs as [[E H]|[E H]]; [left|right|left|right]; split; auto; lia.
  - apply driver_report_sorted.
  - rewrite driver_report_length; [reflexivity|].
    intros t Ht. apply (start_domain_T data a d i t); assumption.
Qed.

Lemma livigno_start_list (data : Data) (a : assignment) (d j : Z) :
  feasible (build_model data) a = true ->
  0 <= d < n data -> 0 <= j < drivers_L_base data ->
  let l := driver_report a "V" "A" (V_start data d j) (A_start data d j)
             (slots_per_day data) in
  (forall s, In s l <->
     0 <= slot s < slots_per_day data
     /\ ((task s = "V"%string /\ started data a K_V d j (slot s))
         \/ (task s = "A"%string /\ started data a K_A d j (slot s))))
  /\ nondecreasing (start_slots l)
  /\ Z.of_nat (length l)
     = starts_count data a K_V d j + starts_count data a K_A d j.
Proof.
  intros Hf Hd Hj l. subst l. split; [|split].
  - intros s. rewrite driver_report_In. unfold started. cbn [start_entry].
    split; intros [Ht Hs]; (split; [exact Ht|]);
      destruct (start_domain_L data a d j (slot s) Hf Hd Hj Ht) as [B1 B2];
      destruct Hs as [[E H]|[E H]]; [left|right|left|right]; split; auto; lia.
  - apply driver_report_sorted.
  - rewrite driver_report_length; [reflexivity|].
    intros t Ht. apply (start_domain_L data a d j t); assumption.
Qed.

(** X10. In a result returned with status OPTIMAL or FEASIBLE by a sound
    solver, the [starts] list of a driver on a day holds exactly the tasks
    the solution starts for that driver on that day (kind and slot), in
    order of slot, and as many entries as the driver has starts. *)
Theorem report_start_lists (data : Data) (solver : CpSolver) (r : SolveResult) :
  solve solver data = Ok r ->
  sound_response (build_model data) (solver (build_model data)) ->
  has_solution_status (status r) = true ->
  exists a, solution (solver (build_model data)) = Some a
    /\ feasible (build_model data) a = true
    /\ forall k o, nth_error (result_days r) k = Some o ->
       (forall i l, nth_error (drivers_T o) i = Some l ->
          (forall s, In s l <->
             0 <= slot s < slots_per_day data
             /\ ((task s = "S"%string
                  /\ started data a K_S (Z.of_nat k) (Z.of_nat i) (slot s))
                 \/ (task s = "U"%string
                     /\ started data a K_U (Z.of_nat k) (Z.of_nat i) (slot s))))
          /\ nondecreasing (start_slots l)
          /\ Z.of_nat (length l)
             = starts_count data a K_S (Z.of_nat k) (Z.of_nat i)
               + starts_count data a K_U (Z.of_nat k) (Z.of_nat i))
       /\ (forall j l, nth_error (drivers_L o) j = Some l ->
          (forall s, In s l <->
             0 <= slot s < slots_per_day data
             /\ ((task s = "V"%string
                  /\ started data a K_V (Z.of_nat k) (Z.of_nat j) (slot s))
                 \/ (task s = "A"%string
                     /\ started data a K_A (Z.of_nat k) (Z.of_nat j) (slot s))))
          /\ nondecreasing (start_slots l)
          /\ Z.of_nat (length l)
             = starts_count data a K_V (Z.of_nat k) (Z.of_nat j)
               + starts_count data a K_A (Z.of_nat k) (Z.of_nat j)).
Proof.
  intros Hr Hsound Hs.
  destruct (solve_report data solver r Hr Hsound Hs)
    as (a & Hf & Hdays & _ & _ & Ha).
  exists a. split; [exact Ha|]. split; [exact Hf|].
  intros k o Ho. rewrite Hdays in Ho.
  apply nth_error_map_range in Ho as [Hk ->].
  cbn [day_report drivers_T drivers_L]. split.
  - intros i l Hl. apply nth_error_map_range in Hl as [Hi ->].
    apply tirano_start_list; [exact Hf|lia|lia].
  - intros j l Hl. apply nth_error_map_range in Hl as [Hj ->].
    apply livigno_start_list; [exact Hf|lia|lia].
Qed.

Lemma report_start_lists_witness :
  exists r, solve supply_day_solver supply_day = Ok r
    /\ map drivers_T (result_days r)
       = [[[mkStart "S" 0; mkStart "U" 24]; []; []; []]]
    /\ exists a, solution (supply_day_solver (build_model supply_day)) = Some a
         /\ feasible (build_model supply_day) a = true.
Proof.
  destruct (solve supply_day_solver supply_day) as [r|e] eqn:E.
  - exists r. split; [reflexivity|].
    assert (Hs : has_solution_status (status r) = true).
    { revert E. vm_compute. intros E. injection E as <-. reflexivity. }
    assert (Hsound : sound_response (build_model supply_day)
                       (supply_day_solver (build_model supply_day))).
    { unfold sound_response, supply_day_solver. cbn [status_code solution].
      eexists. split; [reflexivity|]. vm_compute. reflexivity. }
    split; [revert E; vm_compute; intros E; injection E as <-; reflexivity|].
    destruct (report_start_lists supply_day supply_day_solver r E Hsound Hs)
      as (a & Ha & Hf & _).
    exists a. split; assumption.
  - exfalso. vm_compute in E. discriminate E.
Defined.

(** X11. A request without days is answered for every non-zero slot size
    and every status a sound solver reports: the result carries the
    status, no day record, and objective 0. *)
Theorem empty_horizon (data : Data) (solver : CpSolver) :
  days data = [] -> slot_minutes data <> 0 ->
  sound_response (build_model data) (solver (build_model data)) ->
  exists r, solve solver data = Ok r
    /\ status r = STATUS_MAP (status_code (solver (build_model data)))
    /\ result_days r = []
    /\ objective_deliveries r = 0 /\ objective_liters r = 0.
Proof.
  intros Hdays Hslot Hsound.
  assert (Hn : n data = 0) by (unfold n; rewrite Hdays; reflexivity).
  unfold solve.
  destruct (Z.eqb_spec (slot_minutes data) 0); [contradiction|].
  unfold subscript_out_of_range. rewrite Hn. cbn [Z.ltb Z.compare andb].
  cbv zeta. rewrite range_empty by lia. cbn [mapM bind].
  destruct (has_solution_status _) eqn:Hs.
  - apply has_solution_status_inv in Hs. unfold sound_response in Hsound.
    assert (Hsol : exists a, solution (solver (build_model data)) = Some a
                     /\ feasible (build_model data) a = true)
      by (destruct Hs as [Hs|Hs]; rewrite Hs in Hsound; exact Hsound).
    destruct Hsol as (a & Ha & Hf).
    rewrite (value_Some _ a _ Ha). cbn [bind eval total_deliveries].
    destruct (total_deliveries_eq data a Hf) as [_ Hdom]. rewrite Hn in Hdom.
    assert (E : a v_total_deliveries = 0) by lia.
    change (eval a total_deliveries) with (a v_total_deliveries). rewrite E.
    eexists. repeat split.
  - cbn [bind]. eexists. repeat split.
Qed.

Lemma empty_horizon_witness :
  days no_days = [] /\ slot_minutes no_days <> 0
  /\ exists r, solve unknown_solver no_days = Ok r
       /\ status r = "UNKNOWN"%string /\ result_days r = [].
Proof.
  split; [reflexivity|]. split; [discriminate|].
  destruct (empty_horizon no_days unknown_solver eq_refl ltac:(discriminate))
    as (r & Hr & Hst & Hd & _).
  - unfold sound_response, unknown_solver. cbn [status_code solution]. reflexivity.
  - exists r. split; [exact Hr|]. split; [exact Hst|exact Hd].
Defined.

(* ================================================================== *)
(** ** The turn packer *)

Lemma first_fit_Some (duration shift_minutes : Z) (ds r : list Turn) :
  first_fit duration shift_minutes ds = Some r ->
  exists pre x post,
    ds = pre ++ x :: post /\ r = pre ++ add_task x duration :: post
    /\ minutes x + duration <= shift_minutes.
Proof.
  revert r. induction ds as [|d rest IH]; intros r H; cbn [first_fit] in H.
  - discriminate.
  - destruct (minutes d + duration <=? shift_minutes) eqn:Hfit.
    + injection H as <-. exists [], d, rest. repeat split. now apply Z.leb_le.
    + destruct (first_fit duration shift_minutes rest) as [rest'|] eqn:Hr;
        [|discriminate].
      injection H as <-.
      destruct (IH rest' eq_refl) as (pre & x & post & -> & -> & Hx).
      exists (d :: pre), x, post. repeat split. exact Hx.
Qed.

Lemma place_task_Ok (duration shift_minutes : Z) (ds r : list Turn) :
  place_task duration shift_minutes ds = Ok r ->
  exists pre x post,
    ds = pre ++ x :: post /\ r = pre ++ add_task x duration :: post
    /\ (pre = [] \/ minutes x + duration <= shift_minutes).
Proof.
  unfold place_task. intros H.
  destruct (first_fit duration shift_minutes ds) as [r'|] eqn:Hf.
  - injection H as <-.
    destruct (first_fit_Some _ _ _ _ Hf) as (pre & x & post & -> & -> & Hx).
    exists pre, x, post. auto.
  - destruct ds as [|d0 rest]; [discriminate|]. injection H as <-.
    exists [], d0, rest. auto.
Qed.

Lemma place_task_total (duration shift_minutes : Z) (ds : list Turn) :
  ds <> [] -> exists r, place_task duration shift_minutes ds = Ok r.
Proof.
  intros Hne. unfold place_task.
  destruct (first_fit duration shift_minutes ds) as [r'|]; [eauto|].
  destruct ds; [congruence | eauto].
Qed.

Lemma add_task_ok (d : Turn) (duration : Z) :
  turn_ok d -> turn_ok (add_task d duration).
Proof.
  unfold turn_ok, add_task. cbn [minutes tasks]. intros ->.
  rewrite zsum_app. unfold zsum. cbn. lia.
Qed.

Lemma pack_loop_spec (task_durations : list Z) (shift_minutes : Z) :
  forall ds r,
    pack_loop task_durations shift_minutes ds = Ok r ->
    length r = length ds
    /\ (Forall turn_ok ds -> Forall turn_ok r)
    /\ Permutation (concat (map tasks r))
                   (concat (map tasks ds) ++ task_durations)
    /\ (Forall (within_shift shift_minutes) (tl ds) ->
        Forall (within_shift shift_minutes) (tl r)).
Proof.
  induction task_durations as [|duration rest IH]; intros ds r H;
    cbn [pack_loop] in H.
  - injection H as <-. rewrite app_nil_r. repeat split; auto.
  - unfold bind in H.
    destruct (place_task duration shift_minutes ds) as [ds'|e] eqn:Hp;
      [|discriminate].
    destruct (place_task_Ok _ _ _ _ Hp) as (pre & x & post & -> & -> & Hx).
    destruct (IH _ _ H) as (Hlen & Hok & Hperm & Htl).
    split; [|split; [|split]].
    + rewrite Hlen, !length_app. reflexivity.
    + intros Hds. apply Hok.
      apply Forall_app in Hds as [Hpre Hrest].
      apply Forall_app. split; [exact Hpre|].
      inversion Hrest; subst. constructor; [now apply add_task_ok | assumption].
    + etransitivity; [exact Hperm|].
      rewrite !map_app, !concat_app. cbn [map concat add_task tasks].
      rewrite <- !app_assoc. apply Permutation_app_head.
      apply Permutation_app_head. cbn [app].
      change (duration :: concat (map tasks post) ++ rest)
        with ((duration :: concat (map tasks post)) ++ rest).
      change (concat (map tasks post) ++ duration :: rest)
        with (concat (map tasks post) ++ [duration] ++ rest).
      rewrite app_assoc. apply Permutation_app_tail.
      apply (Permutation_app_comm [duration]).
    + intros Hds. apply Htl.
      destruct pre as [|p pre]; cbn [app tl] in *; [exact Hds|].
      apply Forall_app in Hds as [Hpre Hrest].
      apply Forall_app. split; [exact Hpre|].
      inversion Hrest; subst. constructor; [|assumption].
      intros _. cbn [add_task minutes].
      destruct Hx as [Hx|Hx]; [discriminate | exact Hx].
Qed.

Lemma pack_loop_total (task_durations : list Z) (shift_minutes : Z) :
  forall ds, ds <> [] ->
    exists r, pack_loop task_durations shift_minutes ds = Ok r.
Proof.
  induction task_durations as [|duration rest IH]; intros ds Hne;
    cbn [pack_loop]; [eauto|].
  destruct (place_task_total duration shift_minutes ds Hne) as [ds' Hp].
  rewrite Hp. cbn [bind]. apply IH.
  destruct (place_task_Ok _ _ _ _ Hp) as (pre & x & post & _ & -> & _).
  destruct pre; discriminate.
Qed.

Lemma fresh_drivers (num_drivers : Z) :
  let ds := map (fun _ : Z => mkTurn 0 []) (range 0 num_drivers) in
  length ds = Z.to_nat num_drivers
  /\ Forall turn_ok ds
  /\ concat (map tasks ds) = []
  /\ forall shift_minutes, Forall (within_shift shift_minutes) ds.
Proof.
  cbv zeta. rewrite length_map, length_range, Z.sub_0_r.
  split; [reflexivity|].
  induction (range 0 num_drivers) as [|i l IH]; cbn [map concat tasks app].
  - repeat split; constructor.
  - destruct IH as (Hok & Hc & Hw). repeat split.
    + constructor; [reflexivity | exact Hok].
    + exact Hc.
    + intros s. constructor; [|apply Hw]. intros Hne. now cbn in Hne.
Qed.

(** X12. With at least one driver [pack_tasks] returns one turn per driver;
    every turn's minutes are the sum of its tasks, and the tasks of all the
    turns together are the given tasks, each exactly once: nothing is
    dropped or duplicated, whatever the shift length. *)
Theorem pack_tasks_conserves (task_durations : list Z)
        (num_drivers shift_minutes : Z) :
  0 < num_drivers ->
  exists r,
    pack_tasks task_durations num_drivers shift_minutes = Ok r
    /\ length r = Z.to_nat num_drivers
    /\ Forall (fun d => minutes d = zsum (tasks d)) r
    /\ Permutation (concat (map tasks r)) task_durations.
Proof.
  intros Hn. unfold pack_tasks. cbv zeta.
  destruct (fresh_drivers num_drivers) as (Hlen & Hok & Hc & _).
  cbv zeta in Hlen, Hok, Hc.
  destruct (pack_loop_total task_durations shift_minutes
              (map (fun _ : Z => mkTurn 0 []) (range 0 num_drivers)))
    as [r Hr].
  { intros E. rewrite E in Hlen. cbn in Hlen. lia. }
  exists r. split; [exact Hr|].
  destruct (pack_loop_spec _ _ _ _ Hr) as (Hl & Hk & Hp & _).
  split; [congruence|]. split; [exact (Hk Hok)|].
  rewrite Hc in Hp. exact Hp.
Qed.

Lemma pack_tasks_conserves_witness :
  0 < 2 /\ exists r, pack_tasks three_hauls 2 720 = Ok r
                     /\ map minutes r = [690; 345].
Proof.
  split; [lia|].
  destruct (pack_tasks_conserves three_hauls 2 720 ltac:(lia))
    as (r & Hr & _).
  exists r. split; [exact Hr|].
  vm_compute in Hr. injection Hr as <-. reflexivity.
Defined.

(** X13. Only the first driver can be overloaded: in the result of
    [pack_tasks] every driver after the first who was given a task has at
    most [shift_minutes] minutes. *)
Theorem only_first_overloaded (task_durations : list Z)
        (num_drivers shift_minutes : Z) (r : list Turn) (k : nat) (d : Turn) :
  pack_tasks task_durations num_drivers shift_minutes = Ok r ->
  nth_error r (S k) = Some d ->
  tasks d <> [] ->
  minutes d <= shift_minutes.
Proof.
  unfold pack_tasks. cbv zeta. intros Hr Hk Hne.
  destruct (fresh_drivers num_drivers) as (_ & _ & _ & Hw). cbv zeta in Hw.
  destruct (pack_loop_spec _ _ _ _ Hr) as (_ & _ & _ & Htl).
  assert (Hall : Forall (within_shift shift_minutes) (tl r)).
  { apply Htl. specialize (Hw shift_minutes).
    destruct (map (fun _ : Z => mkTurn 0 []) (range 0 num_drivers));
      [constructor | now inversion Hw]. }
  destruct r as [|d0 r']; [discriminate|]. cbn [nth_error tl] in *.
  apply nth_error_In in Hk.
  rewrite Forall_forall in Hall. exact (Hall d Hk Hne).
Qed.

Lemma only_first_overloaded_witness :
  pack_tasks three_hauls 2 600 = Ok [mkTurn 690 [345; 345]; mkTurn 345 [345]]
  /\ 345 <= 600.
Proof.
  assert (H : pack_tasks three_hauls 2 600
              = Ok [mkTurn 690 [345; 345]; mkTurn 345 [345]])
    by reflexivity.
  split; [exact H|].
  apply (only_first_overloaded three_hauls 2 600 _ 0%nat (mkTurn 345 [345]) H).
  - reflexivity.
  - discriminate.
Defined.

(** X14. Without drivers there is no first driver to overload: with
    [num_drivers <= 0] an empty task list gives the empty list of turns,
    and the first task raises [IndexError] at [drivers[0]]. *)
Theorem pack_tasks_no_drivers (task_durations : list Z)
        (num_drivers shift_minutes : Z) :
  num_drivers <= 0 ->
  pack_tasks task_durations num_drivers shift_minutes
  = match task_durations with
    | [] => Ok []
    | _ :: _ => Raise IndexError
    end.
Proof.
  intros Hn. unfold pack_tasks. cbv zeta.
  rewrite range_empty by lia. cbn [map].
  destruct task_durations; reflexivity.
Qed.

Lemma pack_tasks_no_drivers_witness :
  0 <= 0 /\ pack_tasks three_hauls 0 720 = Raise IndexError.
Proof.
  split; [lia|].
  exact (pack_tasks_no_drivers three_hauls 0 720 ltac:(lia)).
Defined.

(* ------------------------------------------------------------------ *)
(** *** Counting the slots the tasks of a driver occupy *)

Lemma zsum_map_Permutation {A} (f : A -> Z) (l1 l2 : list A) :
  Permutation l1 l2 -> zsum (map f l1) = zsum (map f l2).
Proof.
  induction 1; unfold zsum in *; cbn [map fold_right] in *; lia.
Qed.

Lemma zsum_map_filter {A} (f : A -> Z) (p : A -> bool) (l : list A) :
  zsum (map f (filter p l)) = zsum (map (fun x => if p x then f x else 0) l).
Proof.
  induction l as [|x l IH]; [reflexivity|].
  cbn [filter map]. destruct (p x); unfold zsum in *; cbn [map fold_right]; lia.
Qed.

Lemma zsum_indicator {A} (f : A -> Z) (p : A -> bool) (L M : list A) :
  NoDup L -> NoDup M ->
  (forall x, In x M <-> In x L /\ p x = true) ->
  zsum (map (fun x => if p x then f x else 0) L) = zsum (map f M).
Proof.
  intros HL HM Hin. rewrite <- zsum_map_filter.
  apply zsum_map_Permutation, NoDup_Permutation.
  - now apply NoDup_filter.
  - exact HM.
  - intros x. rewrite filter_In. symmetry. apply Hin.
Qed.

Lemma zsum_map_add {A} (f g : A -> Z) (l : list A) :
  zsum (map (fun x => f x + g x) l) = zsum (map f l) + zsum (map g l).
Proof.
  induction l as [|x l IH]; [reflexivity|].
  unfold zsum in *; cbn [map fold_right]; lia.
Qed.

Lemma zsum_swap {A B} (g : A -> B -> Z) (l1 : list A) (l2 : list B) :
  zsum (map (fun x => zsum (map (fun y => g x y) l2)) l1)
  = zsum (map (fun y => zsum (map (fun x => g x y) l1)) l2).
Proof.
  induction l1 as [|x l1 IH].
  - cbn [map]. symmetry. now apply zsum_map_zero.
  - cbn [map]. change (zsum (?a :: ?l)) with (a + zsum l). rewrite IH.
    rewrite <- zsum_map_add. apply zsum_map_ext. intros y _. reflexivity.
Qed.

Lemma zsum_map_const {A} (c : Z) (l : list A) :
  zsum (map (fun _ => c) l) = c * Z.of_nat (length l).
Proof.
  induction l as [|x l IH]; [cbn; lia|].
  unfold zsum in *. cbn [map fold_right length]. lia.
Qed.

Lemma zsum_le_const {A} (f : A -> Z) (c : Z) (l : list A) :
  (forall x, In x l -> f x <= c) -> zsum (map f l) <= c * Z.of_nat (length l).
Proof.
  induction l as [|x l IH]; intros H; [cbn; lia|].
  unfold zsum in *. cbn [map fold_right length].
  pose proof (H x (or_introl eq_refl)).
  specialize (IH (fun y Hy => H y (or_intror Hy))). lia.
Qed.

(** Summed over the slots of the day, the starts covering a slot count
    every start once for each slot of its run. *)
Lemma covering_total (data : Data) (dur : Z) (x : Z -> Z) :
  0 <= dur ->
  (forall t0, 0 <= t0 < slots_per_day data -> x t0 <> 0 ->
              t0 + dur <= slots_per_day data) ->
  zsum (map (fun t => zsum (map x (covering data dur t)))
            (range 0 (slots_per_day data)))
  = dur * zsum (map x (range 0 (slots_per_day data))).
Proof.
  intros Hdur Hfit.
  set (spd := slots_per_day data) in *.
  set (c := fun t t0 : Z => (t0 <=? t) && (t <? t0 + dur) && (t0 + dur <=? spd)).
  rewrite (zsum_map_ext _
             (fun t => zsum (map (fun t0 => if c t t0 then x t0 else 0)
                                 (range 0 spd)))).
  2:{ intros t Ht. symmetry. apply zsum_indicator.
      - apply NoDup_range. - apply NoDup_covering.
      - intros t0. rewrite covering_In, In_range. unfold c. fold spd.
        rewrite !andb_true_iff, !Z.leb_le, Z.ltb_lt. lia. }
  rewrite (zsum_swap (fun t t0 => if c t t0 then x t0 else 0)).
  rewrite <- (Z.mul_comm _ dur).
  replace (zsum (map x (range 0 spd)) * dur)
    with (zsum (map (fun t0 => x t0 * dur + 0 * 0) (range 0 spd)))
    by (rewrite (zsum_map_linear x (fun _ => 0) dur 0); lia).
  apply zsum_map_ext. intros t0 Ht0. apply In_range in Ht0.
  destruct (Z.eq_dec (x t0) 0) as [E|E].
  - rewrite E. rewrite zsum_map_zero; [lia|]. intros t _. now destruct (c t t0).
  - specialize (Hfit t0 Ht0 E).
    rewrite (zsum_indicator (fun _ => x t0) (fun t => c t t0)
               (range 0 spd) (range t0 (t0 + dur))).
    + rewrite zsum_map_const, length_range. lia.
    + apply NoDup_range.
    + apply NoDup_range.
    + intros t. rewrite !In_range. unfold c.
      rewrite !andb_true_iff, !Z.leb_le, Z.ltb_lt. lia.
Qed.

Lemma runs_fit (data : Data) (x1 x2 : Z -> Z) (dur1 dur2 : Z) :
  0 <= dur1 -> 0 <= dur2 -> 0 <= slots_per_day data ->
  (forall t, 0 <= t < slots_per_day data -> 0 <= x1 t <= 1 /\ 0 <= x2 t <= 1) ->
  (forall t, x1 t = 1 -> t + dur1 <= slots_per_day data) ->
  (forall t, x2 t = 1 -> t + dur2 <= slots_per_day data) ->
  (forall t, 0 <= t < slots_per_day data ->
     zsum (map x1 (covering data dur1 t)) + zsum (map x2 (covering data dur2 t))
     <= 1) ->
  dur1 * zsum (map x1 (range 0 (slots_per_day data)))
  + dur2 * zsum (map x2 (range 0 (slots_per_day data)))
  <= slots_per_day data.
Proof.
  intros H1 H2 Hspd Hdom Hf1 Hf2 Hcov.
  rewrite <- (covering_total data dur1 x1), <- (covering_total data dur2 x2);
    try assumption.
  - rewrite <- zsum_map_add.
    pose proof (zsum_le_const
                  (fun t => zsum (map x1 (covering data dur1 t))
                            + zsum (map x2 (covering data dur2 t)))
                  1 (range 0 (slots_per_day data))) as Hle.
    rewrite length_range in Hle.
    assert (Hall : forall t, In t (range 0 (slots_per_day data)) ->
              zsum (map x1 (covering data dur1 t))
              + zsum (map x2 (covering data dur2 t)) <= 1).
    { intros t Ht. apply Hcov. now apply In_range in Ht. }
    specialize (Hle Hall). lia.
  - intros t0 Ht0 Hne. apply Hf2. destruct (Hdom t0 Ht0). lia.
  - intros t0 Ht0 Hne. apply Hf1. destruct (Hdom t0 Ht0). lia.
Qed.

Lemma start_durations_app (k1 k2 : string) (m1 m2 : Z) (l1 l2 : list Start) :
  start_durations k1 k2 m1 m2 (l1 ++ l2)
  = start_durations k1 k2 m1 m2 l1 ++ start_durations k1 k2 m1 m2 l2.
Proof.
  induction l1 as [|s l1 IH]; [reflexivity|].
  cbn [app start_durations]. now rewrite IH, app_assoc.
Qed.

(** The minutes the packer books for a reported start list: [m1] for each
    start of the first kind and [m2] for each of the second. *)
Lemma start_durations_report (a : assignment) (k1 k2 : string) (m1 m2 : Z)
      (x1 x2 : Z -> expr) (spd : Z) :
  String.eqb k2 k1 = false ->
  (forall t, 0 <= t < spd -> 0 <= eval a (x1 t) <= 1 /\ 0 <= eval a (x2 t) <= 1) ->
  zsum (start_durations k1 k2 m1 m2 (driver_report a k1 k2 x1 x2 spd))
  = m1 * zsum (map (fun t => eval a (x1 t)) (range 0 spd))
    + m2 * zsum (map (fun t => eval a (x2 t)) (range 0 spd)).
Proof.
  intros Hk Hdom. unfold driver_report.
  assert (Hl : forall t, In t (range 0 spd) ->
            0 <= eval a (x1 t) <= 1 /\ 0 <= eval a (x2 t) <= 1).
  { intros t Ht. apply Hdom. now apply In_range in Ht. }
  clear Hdom. induction (range 0 spd) as [|t l IH]; [cbn; lia|].
  cbn [map concat]. rewrite !start_durations_app, !zsum_app.
  rewrite IH by (intros t' Ht'; apply Hl; now right).
  destruct (Hl t (or_introl eq_refl)) as [Hx1 Hx2].
  change (zsum (?y :: ?ys)) with (y + zsum ys).
  assert (E1 : eval a (x1 t) = 0 \/ eval a (x1 t) = 1) by lia.
  assert (E2 : eval a (x2 t) = 0 \/ eval a (x2 t) = 1) by lia.
  destruct E1 as [E1|E1], E2 as [E2|E2]; rewrite E1, E2;
    cbn [Z.eqb Pos.eqb start_durations task app];
    rewrite ?String.eqb_refl, ?Hk; cbn [app];
    change (zsum (?y :: ?ys)) with (y + zsum ys); change (zsum []) with 0; lia.
Qed.

Lemma integral_grid (data : Data) :
  slot_minutes data <> 0 -> non_integral data = false ->
  slot_minutes data * supply_slots data = 345
  /\ slot_minutes data * shuttle_slots data = 240
  /\ slot_minutes data * resident_slots data = 270
  /\ slot_minutes data * adr_slots data = 585.
Proof.
  intros Hs H. unfold non_integral, grid_minutes in H. cbn [existsb] in H.
  rewrite !orb_false_iff, !negb_false_iff, !Z.eqb_eq in H.
  destruct H as (H1 & H2 & H3 & H4 & _).
  unfold supply_slots, shuttle_slots, resident_slots, adr_slots.
  repeat split; symmetry; now apply Z.div_exact.
Qed.

Lemma tirano_turn_minutes (data : Data) (a : assignment) (d i : Z) :
  feasible (build_model data) a = true ->
  0 <= d < n data -> 0 <= i < drivers_T_base data ->
  0 < slot_minutes data -> non_integral data = false ->
  0 <= slots_per_day data ->
  minutes (turn_of_starts "S" "U" 345 240
             (driver_report a "S" "U" (S_start data d i) (U_start data d i)
                (slots_per_day data)))
  <= shift_minutes data.
Proof.
  intros Hf Hd Hi Hs Hg Hspd. unfold turn_of_starts. cbn [minutes].
  rewrite start_durations_report;
    [|reflexivity | intros t Ht; now apply start_domain_T].
  destruct (integral_grid data ltac:(lia) Hg) as (E1 & E2 & _).
  pose proof (floor_slots (shift_minutes data) (slot_minutes data) Hs) as Hfl.
  fold (slots_per_day data) in Hfl.
  assert (H1 : 0 <= supply_slots data) by (apply Z.div_pos; lia).
  assert (H2 : 0 <= shuttle_slots data) by (apply Z.div_pos; lia).
  pose proof (runs_fit data (fun t => eval a (S_start data d i t))
                (fun t => eval a (U_start data d i t))
                (supply_slots data) (shuttle_slots data) H1 H2 Hspd
                (fun t Ht => start_domain_T data a d i t Hf Hd Hi Ht)
                (fun t => proj1 (started_fits_T data a d i t))
                (fun t => proj2 (started_fits_T data a d i t))
                (fun t Ht => cover_T_ok data a d i t Hf Hd Hi Ht)) as Hrun.
  cbv beta in Hrun.
  set (cS := zsum (map (fun t => eval a (S_start data d i t))
                       (range 0 (slots_per_day data)))) in *.
  set (cU := zsum (map (fun t => eval a (U_start data d i t))
                       (range 0 (slots_per_day data)))) in *.
  rewrite <- E1, <- E2. nia.
Qed.

Lemma livigno_turn_minutes (data : Data) (a : assignment) (d j : Z) :
  feasible (build_model data) a = true ->
  0 <= d < n data -> 0 <= j < drivers_L_base data ->
  0 < slot_minutes data -> non_integral data = false ->
  0 <= slots_per_day data ->
  minutes (turn_of_starts "V" "A" 270 585
             (driver_report a "V" "A" (V_start data d j) (A_start data d j)
                (slots_per_day data)))
  <= shift_minutes data.
Proof.
  intros Hf Hd Hj Hs Hg Hspd. unfold turn_of_starts. cbn [minutes].
  rewrite start_durations_report;
    [|reflexivity | intros t Ht; now apply start_domain_L].
  destruct (integral_grid data ltac:(lia) Hg) as (_ & _ & E1 & E2).
  pose proof (floor_slots (shift_minutes data) (slot_minutes data) Hs) as Hfl.
  fold (slots_per_day data) in Hfl.
  assert (H1 : 0 <= resident_slots data) by (apply Z.div_pos; lia).
  assert (H2 : 0 <= adr_slots data) by (apply Z.div_pos; lia).
  pose proof (runs_fit data (fun t => eval a (V_start data d j t))
                (fun t => eval a (A_start data d j t))
                (resident_slots data) (adr_slots data) H1 H2 Hspd
                (fun t Ht => start_domain_L data a d j t Hf Hd Hj Ht)
                (fun t => proj1 (started_fits_L data a d j t))
                (fun t => proj2 (started_fits_L data a d j t))
                (fun t Ht => cover_L_ok data a d j t Hf Hd Hj Ht)) as Hrun.
  cbv beta in Hrun.
  set (cV := zsum (map (fun t => eval a (V_start data d j t))
                       (range 0 (slots_per_day data)))) in *.
  set (cA := zsum (map (fun t => eval a (A_start data d j t))
                       (range 0 (slots_per_day data)))) in *.
  rewrite <- E1, <- E2. nia.
Qed.

(** X15. On a slot grid that divides the task durations, the turns
    [build_turns_for_day] derives from a day of a solution never exceed the
    shift: the packer succeeds on every reported day, gives one turn per
    base driver of each depot, and every turn's minutes (345 per supply
    trip, 240 per shuttle, 270 per resident trip, 585 per ADR trip) are at
    most [shift_minutes]. *)
Theorem reported_turns_within_shift (data : Data) (solver : CpSolver)
        (r : SolveResult) (o : DayOut) :
  solve solver data = Ok r ->
  sound_response (build_model data) (solver (build_model data)) ->
  has_solution_status (status r) = true ->
  0 < slot_minutes data -> non_integral data = false ->
  In o (result_days r) ->
  exists ts,
    build_turns_for_day (turn_day o) (shift_minutes data) = Ok ts
    /\ drivers (tirano ts) = out_D_T o /\ drivers (livigno ts) = out_D_L o
    /\ length (turns (tirano ts)) = Z.to_nat (drivers_T_base data)
    /\ length (turns (livigno ts)) = Z.to_nat (drivers_L_base data)
    /\ Forall (fun t => minutes t <= shift_minutes data) (turns (tirano ts))
    /\ Forall (fun t => minutes t <= shift_minutes data) (turns (livigno ts)).
Proof.
  intros Hsolve Hsound Hst Hs Hg Hin.
  destruct (solve_report data solver r Hsolve Hsound Hst)
    as (a & Hf & Hdays & _ & Hspd & _).
  rewrite Hdays in Hin. apply in_map_iff in Hin as (d & <- & Hd).
  apply In_range in Hd. specialize (Hspd ltac:(lia)).
  unfold build_turns_for_day, turn_day.
  cbn [td_drivers_T td_drivers_L td_D_T td_D_L day_report drivers_T drivers_L
       out_D_T out_D_L].
  eexists. split; [reflexivity|]. cbn [tirano livigno drivers turns].
  split; [reflexivity|]. split; [reflexivity|].
  rewrite !length_map, !length_range, !Z.sub_0_r.
  split; [reflexivity|]. split; [reflexivity|].
  split; apply Forall_forall; intros t Ht;
    apply in_map_iff in Ht as (l & <- & Hl);
    apply in_map_iff in Hl as (i & <- & Hi); apply In_range in Hi.
  - now apply tirano_turn_minutes.
  - now apply livigno_turn_minutes.
Qed.

Lemma reported_turns_within_shift_witness :
  exists r o ts, solve supply_day_solver supply_day = Ok r
    /\ result_days r = [o]
    /\ build_turns_for_day (turn_day o) 720 = Ok ts
    /\ map minutes (turns (tirano ts)) = [585; 0; 0; 0]
    /\ Forall (fun t => minutes t <= 720) (turns (tirano ts)).
Proof.
  destruct (solve supply_day_solver supply_day) as [r|e] eqn:E.
  - assert (Hs : has_solution_status (status r) = true).
    { revert E. vm_compute. intros E. injection E as <-. reflexivity. }
    assert (Hsound : sound_response (build_model supply_day)
                       (supply_day_solver (build_model supply_day))).
    { unfold sound_response, supply_day_solver. cbn [status_code solution].
      eexists. split; [reflexivity|]. vm_compute. reflexivity. }
    assert (Hd : exists o, result_days r = [o]
                   /\ map (fun t => map minutes (turns (tirano t)))
                          (match build_turns_for_day (turn_day o) 720 with
                           | Ok ts => [ts] | Raise _ => [] end)
                      = [[585; 0; 0; 0]]).
    { revert E. vm_compute. intros E. injection E as <-.
      eexists. split; reflexivity. }
    destruct Hd as (o & Ho & Hm).
    destruct (reported_turns_within_shift supply_day supply_day_solver r o
                E Hsound Hs ltac:(reflexivity) ltac:(reflexivity))
      as (ts & Hts & _ & _ & _ & _ & HT & _).
    { rewrite Ho. now left. }
    exists r, o, ts. split; [reflexivity|]. split; [exact Ho|].
    change (shift_minutes supply_day) with 720 in Hts, HT.
    split; [exact Hts|]. rewrite Hts in Hm. cbn [map] in Hm.
    injection Hm as Hm. split; [exact Hm | exact HT].
  - exfalso. vm_compute in E. discriminate E.
Defined.

(* ================================================================== *)
(** ** The wrapper *)

Lemma build_turns_reported (o : DayOut) (shift_minutes : Z) :
  build_turns_for_day (turn_day o) shift_minutes = Ok (reported_turns o).
Proof. reflexivity. Qed.

Lemma main_turns (data : Data) (l : list DayOut) :
  mapM (fun day =>
          turns <- build_turns_for_day (turn_day day)
                                       (get data "shift_minutes" 720) ;;
          Ok (mkOutputDay day turns)) l
  = Ok (map (fun day => mkOutputDay day (reported_turns day)) l).
Proof. apply mapM_Ok. intros o _. reflexivity. Qed.

(** X16. [main] fails only where [build_days] or [solve] fails, and with
    their error: packing the turns of the solved days never raises. *)
Theorem main_failures (solver : CpSolver) (req : Request) (e : error) :
  main solver req = Raise e <->
  (let include_weekend :=
     match req_include_weekend req with Some b => b | None => true end in
   build_days (req_start_date req) (req_end_date req)
              (req_D_T req) (req_D_L req) include_weekend = Raise e
   \/ exists ds,
        build_days (req_start_date req) (req_end_date req)
                   (req_D_T req) (req_D_L req) include_weekend = Ok ds
        /\ solve solver (request_data req ds) = Raise e).
Proof.
  unfold main. cbv zeta.
  destruct (build_days _ _ _ _ _) as [ds|e1]; cbn [bind].
  - destruct (solve solver (request_data req ds)) as [r|e2] eqn:Es; cbn [bind].
    + rewrite main_turns. cbn [bind]. split; [discriminate|].
      intros [H|(ds' & H & H')]; [discriminate|].
      injection H as <-. congruence.
    + split.
      * intros H. right. exists ds. split; [reflexivity | congruence].
      * intros [H|(ds' & H & H')]; [discriminate|].
        injection H as <-. congruence.
  - split.
    + intros H. left. congruence.
    + intros [H|(ds' & H & _)]; [congruence | discriminate].
Qed.

Lemma main_failures_witness :
  main unknown_solver backwards_request = Raise ValueError.
Proof.
  apply (proj2 (main_failures unknown_solver backwards_request ValueError)).
  left. reflexivity.
Defined.

Lemma day_turns_within_shift (data : Data) (a : assignment) (d : Z) :
  feasible (build_model data) a = true ->
  0 <= d < n data ->
  0 < slot_minutes data -> non_integral data = false ->
  0 <= slots_per_day data ->
  turns_within (shift_minutes data) (reported_turns (day_report data a d)).
Proof.
  intros Hf Hd Hs Hg Hspd. unfold turns_within, reported_turns.
  cbn [tirano livigno turns day_report drivers_T drivers_L].
  split; apply Forall_forall; intros t Ht;
    apply in_map_iff in Ht as (l & <- & Hl);
    apply in_map_iff in Hl as (i & <- & Hi); apply In_range in Hi.
  - now apply tirano_turn_minutes.
  - now apply livigno_turn_minutes.
Qed.

(** X17. End to end: when the days are built, the slot grid divides the
    task durations and CP-SAT answers with a solution, [main] returns the
    document of [solve]'s result (same status and objective, the solved
    days in order, one per built day), each day extended by turns that stay
    within the shift. *)
Theorem main_report (solver : CpSolver) (req : Request) (ds : list Day) :
  build_days (req_start_date req) (req_end_date req) (req_D_T req) (req_D_L req)
             (match req_include_weekend req with Some b => b | None => true end)
  = Ok ds ->
  sound_response (build_model (request_data req ds))
                 (solver (build_model (request_data req ds))) ->
  has_solution_status
    (STATUS_MAP (status_code (solver (build_model (request_data req ds)))))
  = true ->
  0 < slot_minutes (request_data req ds) ->
  0 <= shift_minutes (request_data req ds) ->
  non_integral (request_data req ds) = false ->
  exists r out,
    solve solver (request_data req ds) = Ok r
    /\ main solver req = Ok out
    /\ o_status out = status r
    /\ o_objective_deliveries out = objective_deliveries r
    /\ o_objective_liters out = objective_liters r
    /\ map od_day (o_days out) = result_days r
    /\ length (o_days out) = length ds
    /\ Forall (fun od => turns_within (shift_minutes (request_data req ds))
                                      (od_turns od))
              (o_days out).
Proof.
  intros Hb Hsound Hst Hs Hsh Hg.
  set (data := request_data req ds) in *.
  assert (Ha : exists a, solution (solver (build_model data)) = Some a).
  { unfold sound_response in Hsound.
    destruct (status_code (solver (build_model data)));
      try (destruct Hsound as (a & Ha & _); now exists a);
      cbn in Hst; discriminate. }
  destruct Ha as [a0 Ha0].
  destruct (solve_returns data solver a0 Hs Hsh Ha0) as (r & Hr & Hstat & _).
  assert (Hst' : has_solution_status (status r) = true) by now rewrite Hstat.
  destruct (solve_report data solver r Hr Hsound Hst')
    as (a & Hf & Hdays & _ & Hspd & _).
  exists r. unfold main. cbv zeta. rewrite Hb. cbn [bind].
  fold data. rewrite Hr. cbn [bind]. rewrite main_turns. cbn [bind].
  eexists. split; [reflexivity|]. split; [reflexivity|].
  cbn [o_status o_objective_deliveries o_objective_liters o_days].
  do 3 (split; [reflexivity|]).
  split; [|split].
  - rewrite map_map. cbn [od_day]. apply map_id.
  - rewrite length_map, Hdays, length_map, length_range.
    unfold n. cbn [days data request_data]. lia.
  - apply Forall_forall. intros od Hod.
    apply in_map_iff in Hod as (o & <- & Ho). cbn [od_turns].
    rewrite Hdays in Ho. apply in_map_iff in Ho as (d & <- & Hd).
    apply In_range in Hd.
    apply day_turns_within_shift; try assumption. apply Hspd. lia.
Qed.

Lemma main_report_witness :
  exists out, main supply_day_solver supply_request = Ok out
    /\ o_status out = "FEASIBLE"%string
    /\ length (o_days out) = 1%nat
    /\ Forall (fun od => turns_within 720 (od_turns od)) (o_days out).
Proof.
  assert (Hb : build_days (req_start_date supply_request)
                 (req_end_date supply_request) (req_D_T supply_request)
                 (req_D_L supply_request)
                 (match req_include_weekend supply_request with
                  | Some b => b | None => true end)
               = Ok [mkDay 739040 1 0])
    by (vm_compute; reflexivity).
  assert (Hsound : sound_response
                     (build_model (request_data supply_request [mkDay 739040 1 0]))
                     (supply_day_solver
                        (build_model (request_data supply_request
                                        [mkDay 739040 1 0])))).
  { unfold sound_response, supply_day_solver. cbn [status_code solution].
    eexists. split; [reflexivity|]. vm_compute. reflexivity. }
  destruct (main_report supply_day_solver supply_request [mkDay 739040 1 0]
              Hb Hsound ltac:(reflexivity) ltac:(reflexivity)
              ltac:(discriminate) ltac:(reflexivity))
    as (r & out & Hr & Hout & Hst & _ & _ & _ & Hlen & Hw).
  exists out. split; [exact Hout|]. split; [|split].
  - rewrite Hst. vm_compute in Hr. injection Hr as <-. reflexivity.
  - exact Hlen.
  - exact Hw.
Defined.

(* ------------------------------------------------------------------ *)
(** *** Day records without driver lists *)

Lemma zsum_concat (ls : list (list Z)) :
  zsum (concat ls) = zsum (map zsum ls).
Proof.
  induction ls as [|l ls IH]; [reflexivity|].
  cbn [concat map]. rewrite zsum_app, IH. reflexivity.
Qed.

Lemma zsum_Permutation (l1 l2 : list Z) :
  Permutation l1 l2 -> zsum l1 = zsum l2.
Proof.
  intros H. rewrite <- (map_id l1), <- (map_id l2).
  now apply zsum_map_Permutation.
Qed.

Lemma zsum_repeat_z (x count : Z) :
  zsum (repeat_z x count) = x * Z.max 0 count.
Proof.
  unfold repeat_z.
  replace (Z.max 0 count) with (Z.of_nat (Z.to_nat count)) by lia.
  induction (Z.to_nat count) as [|k IH]; [cbn; lia|].
  cbn [repeat]. change (zsum (?y :: ?ys)) with (y + zsum ys). lia.
Qed.

Lemma pack_tasks_minutes (task_durations : list Z)
      (num_drivers shift_minutes : Z) :
  0 < num_drivers ->
  exists r,
    pack_tasks task_durations num_drivers shift_minutes = Ok r
    /\ length r = Z.to_nat num_drivers
    /\ zsum (map minutes r) = zsum task_durations.
Proof.
  intros Hn. unfold pack_tasks. cbv zeta.
  destruct (fresh_drivers num_drivers) as (Hlen & Hok & Hc & _).
  cbv zeta in Hlen, Hok, Hc.
  destruct (pack_loop_total task_durations shift_minutes
              (map (fun _ : Z => mkTurn 0 []) (range 0 num_drivers)))
    as [r Hr].
  { intros E. rewrite E in Hlen. cbn in Hlen. lia. }
  exists r. split; [exact Hr|].
  destruct (pack_loop_spec _ _ _ _ Hr) as (Hl & Hk & Hp & _).
  split; [congruence|].
  rewrite Hc in Hp. cbn [app] in Hp.
  rewrite <- (zsum_Permutation _ _ Hp), zsum_concat, map_map.
  apply zsum_map_ext. intros d Hd.
  specialize (Hk Hok). rewrite Forall_forall in Hk. exact (Hk d Hd).
Qed.

(** X18. A day record without driver lists is packed from its counts: with
    at least one driver in each depot [build_turns_for_day] returns one
    turn per driver, and the minutes of the Tirano turns add up to 345 per
    supply trip plus 240 per shuttle, those of the Livigno turns to 270
    per resident trip plus 585 per ADR trip (a missing ["A"] counts as 0,
    a negative count as no trip), whatever the shift length. *)
Theorem packed_turns_totals (day : TurnDay) (shift_minutes : Z) :
  td_drivers_T day = None \/ td_drivers_L day = None ->
  0 < td_D_T day -> 0 < td_D_L day ->
  exists ts,
    build_turns_for_day day shift_minutes = Ok ts
    /\ drivers (tirano ts) = td_D_T day /\ drivers (livigno ts) = td_D_L day
    /\ length (turns (tirano ts)) = Z.to_nat (td_D_T day)
    /\ length (turns (livigno ts)) = Z.to_nat (td_D_L day)
    /\ zsum (map minutes (turns (tirano ts)))
       = 345 * Z.max 0 (td_S day) + 240 * Z.max 0 (td_U day)
    /\ zsum (map minutes (turns (livigno ts)))
       = 270 * Z.max 0 (td_V day)
         + 585 * Z.max 0 (match td_A day with Some x => x | None => 0 end).
Proof.
  intros Hno HT HL.
  destruct (pack_tasks_minutes
              (repeat_z 345 (td_S day) ++ repeat_z 240 (td_U day))
              (td_D_T day) shift_minutes HT) as (rT & HrT & HlT & HmT).
  destruct (pack_tasks_minutes
              (repeat_z 270 (td_V day)
               ++ repeat_z 585 (match td_A day with Some x => x | None => 0 end))
              (td_D_L day) shift_minutes HL) as (rL & HrL & HlL & HmL).
  rewrite zsum_app, !zsum_repeat_z in HmT, HmL.
  exists (mkTurns (mkDepotTurns (td_D_T day) rT) (mkDepotTurns (td_D_L day) rL)).
  split.
  - unfold build_turns_for_day.
    destruct Hno as [-> | ->]; [|destruct (td_drivers_T day)];
      cbv zeta; rewrite HrT; cbn [bind]; rewrite HrL; reflexivity.
  - cbn [tirano livigno drivers turns]. repeat split; assumption.
Qed.

Lemma packed_turns_totals_witness :
  exists ts, build_turns_for_day counts_day 720 = Ok ts
    /\ map minutes (turns (tirano ts)) = [690; 240]
    /\ zsum (map minutes (turns (tirano ts))) = 345 * 2 + 240 * 1.
Proof.
  destruct (packed_turns_totals counts_day 720 (or_introl eq_refl)
              ltac:(reflexivity) ltac:(reflexivity))
    as (ts & Hts & _ & _ & _ & _ & Hm & _).
  exists ts. split; [exact Hts|]. split; [|exact Hm].
  vm_compute in Hts. injection Hts as <-. reflexivity.
Defined.

(** X19. The same record with Tirano work but no Tirano driver makes
    [build_turns_for_day] raise [IndexError]: the first task has no
    [drivers[0]] to fall back on. *)
Theorem packed_turns_unmanned (day : TurnDay) (shift_minutes : Z) :
  td_drivers_T day = None \/ td_drivers_L day = None ->
  td_D_T day <= 0 ->
  0 < td_S day \/ 0 < td_U day ->
  build_turns_for_day day shift_minutes = Raise IndexError.
Proof.
  intros Hno HT Hwork.
  assert (Hp : pack_tasks (repeat_z 345 (td_S day) ++ repeat_z 240 (td_U day))
                 (td_D_T day) shift_minutes = Raise IndexError).
  { unfold pack_tasks. cbv zeta. rewrite range_empty by lia. cbn [map].
    unfold repeat_z.
    destruct (Z.to_nat (td_S day)) as [|k] eqn:ES; [|reflexivity].
    destruct (Z.to_nat (td_U day)) as [|k] eqn:EU; [|reflexivity]. lia. }
  unfold build_turns_for_day.
  destruct Hno as [-> | ->]; [|destruct (td_drivers_T day)];
    cbv zeta; rewrite Hp; reflexivity.
Qed.

Lemma packed_turns_unmanned_witness :
  build_turns_for_day counts_day_unmanned 720 = Raise IndexError.
Proof.
  apply (packed_turns_unmanned counts_day_unmanned 720 (or_introl eq_refl)).
  - discriminate.
  - left. reflexivity.
Defined.

(* ================================================================== *)
(** ** Stock and grouping invariants of the model *)

(** X20. No start without the equipment on site: in a feasible assignment,
    at every slot, the supply trips starting need an empty trailer each
    and, together with the refills starting, an empty-handed tractor each;
    the shuttles starting need a free tractor each and the refills a full
    trailer each. *)
Theorem resource_availability (data : Data) (a : assignment) (d t : Z) :
  feasible (build_model data) a = true ->
  0 <= d < n data -> 0 <= t < slots_per_day data ->
  S_sum data a d t <= a (vET d t)
  /\ S_sum data a d t + R_val a d t <= a (vTe d t)
  /\ U_sum data a d t <= a (vTf d t)
  /\ R_val a d t <= a (vFT d t).
Proof.
  intros Hf Hd Ht. destruct (feasible_slot data a d t Hf Hd Ht).
  repeat split; assumption.
Qed.

Lemma resource_availability_witness :
  S_sum supply_day supply_day_solution 0 0 = 1
  /\ supply_day_solution (vET 0 0) = 1
  /\ S_sum supply_day supply_day_solution 0 0 <= supply_day_solution (vET 0 0).
Proof.
  split; [reflexivity|]. split; [reflexivity|].
  apply (resource_availability supply_day supply_day_solution 0 0).
  - vm_compute. reflexivity.
  - split; [discriminate | reflexivity].
  - split; [discriminate | reflexivity].
Defined.

(** X21. Stocks stay within the fleet: in a feasible assignment every stock
    (full and empty trailers, free and empty-handed tractors on site) is
    between 0 and the fleet size at every slot boundary, and the refills
    starting in a slot are between 0 and the number of trailers.  The
    trailers on site together, and the tractors on site together, do not
    exceed the fleet at every boundary after the first of its day, and at
    the first boundary of a later day when the days have at least one
    slot; nothing bounds the totals at the first boundary of the horizon,
    nor at the first boundary of a later day when [slots_per_day] is 0. *)
Theorem stock_bounds (data : Data) (a : assignment) (d t : Z) :
  feasible (build_model data) a = true ->
  0 <= d < n data -> 0 <= t <= slots_per_day data ->
  (0 <= a (vFT d t) <= total_trailers data
   /\ 0 <= a (vET d t) <= total_trailers data
   /\ 0 <= a (vTf d t) <= total_tractors data
   /\ 0 <= a (vTe d t) <= total_tractors data)
  /\ (t < slots_per_day data -> 0 <= R_val a d t <= total_trailers data)
  /\ (0 < t \/ (0 < d /\ 0 < slots_per_day data) ->
      a (vFT d t) + a (vET d t) <= total_trailers data
      /\ a (vTf d t) + a (vTe d t) <= total_tractors data).
Proof.
  intros Hf Hd Ht. split; [|split].
  - now apply inventory_domain.
  - intros Hlt. apply refill_domain; [assumption | assumption | lia].
  - intros Hpos. now apply totals_bounded.
Qed.

Lemma stock_bounds_witness :
  supply_day_solution (vFT 0 48) + supply_day_solution (vET 0 48)
  <= total_trailers supply_day.
Proof.
  destruct (stock_bounds supply_day supply_day_solution 0 48) as (_ & _ & H).
  - vm_compute. reflexivity.
  - split; [discriminate | reflexivity].
  - split; discriminate.
  - apply H. left. reflexivity.
Defined.

(** X22. The week groups partition the days by ISO week: the keys of
    [weeks] are pairwise distinct, every day index lies in the group of its
    own (ISO year, ISO week) key and in no other, and each group lists its
    day indices in increasing order. *)
Theorem week_groups (data : Data) :
  NoDup (map fst (weeks data))
  /\ (forall d, 0 <= d < n data ->
        exists idxs, In (week_key_of (days data) d, idxs) (weeks data)
                     /\ In d idxs)
  /\ (forall key idxs d,
        In (key, idxs) (weeks data) -> In d idxs ->
        0 <= d < n data /\ week_key_of (days data) d = key)
  /\ (forall key idxs, In (key, idxs) (weeks data) -> ascending idxs).
Proof.
  destruct (weeks_of_spec (days data)) as (Hnd & Hall & Hgrp).
  fold (weeks data) in Hnd, Hall, Hgrp. fold (n data) in Hall, Hgrp.
  split; [exact Hnd|]. split; [|split].
  - intros d Hd. specialize (Hall d Hd).
    apply in_map_iff in Hall as ([key idxs] & Hk & Hin). cbn [fst] in Hk.
    subst key. exists idxs. split; [exact Hin|].
    apply (weeks_spec data _ _ Hin). auto.
  - intros key idxs d Hin Hd. now apply (weeks_spec data key idxs Hin).
  - intros key idxs Hin. rewrite (Hgrp key idxs Hin).
    apply ascending_filter, ascending_range.
Qed.

(* ================================================================== *)
(** ** The ISO week of a date *)

Lemma year_of_spec (o : Z) :
  days_before_year (year_of o) < o <= days_before_year (year_of o + 1).
Proof.
  unfold year_of, days_before_year, DI400Y, DI100Y, DI4Y. cbv zeta.
  destruct ((_ =? 4) || (_ =? 4)) eqn:E.
  - apply orb_true_iff in E. rewrite !Z.eqb_eq in E.
    Z.div_mod_to_equations. lia.
  - apply orb_false_iff in E. rewrite !Z.eqb_neq in E.
    Z.div_mod_to_equations. lia.
Qed.

Lemma days_before_year_mono (y y' : Z) :
  y <= y' -> days_before_year y + 365 * (y' - y) <= days_before_year y'.
Proof. unfold days_before_year. cbv zeta. intros. Z.div_mod_to_equations. lia. Qed.

Lemma days_before_year_next (y : Z) :
  days_before_year y + 365 <= days_before_year (y + 1) <= days_before_year y + 366.
Proof. unfold days_before_year. cbv zeta. Z.div_mod_to_equations. lia. Qed.

Lemma isoweek1monday_spec (y : Z) :
  (isoweek1monday y + 6) mod 7 = 0
  /\ days_before_year y - 2 <= isoweek1monday y <= days_before_year y + 4.
Proof.
  unfold isoweek1monday. cbv zeta.
  destruct (3 <? _) eqn:E; [apply Z.ltb_lt in E | apply Z.ltb_ge in E];
    Z.div_mod_to_equations; lia.
Qed.

Lemma isoweek1monday_next (y : Z) :
  isoweek1monday y + 364 <= isoweek1monday (y + 1) <= isoweek1monday y + 371.
Proof.
  pose proof (isoweek1monday_spec y) as [M1 B1].
  pose proof (isoweek1monday_spec (y + 1)) as [M2 B2].
  pose proof (days_before_year_next y).
  Z.div_mod_to_equations. lia.
Qed.

Lemma isoweek1monday_mono (y y' : Z) :
  y < y' -> isoweek1monday (y + 1) <= isoweek1monday y'.
Proof.
  intros H. destruct (Z.eq_dec (y + 1) y') as [->|Hne]; [lia|].
  pose proof (isoweek1monday_spec (y + 1)) as [_ B1].
  pose proof (isoweek1monday_spec y') as [_ B2].
  pose proof (days_before_year_mono (y + 1) y' ltac:(lia)). lia.
Qed.

Lemma iso_year_unique (y y' m : Z) :
  isoweek1monday y <= m < isoweek1monday (y + 1) ->
  isoweek1monday y' <= m < isoweek1monday (y' + 1) ->
  y = y'.
Proof.
  intros H1 H2.
  destruct (Z.lt_trichotomy y y') as [H|[H|H]]; [|exact H|].
  - pose proof (isoweek1monday_mono y y' H). lia.
  - pose proof (isoweek1monday_mono y' y H). lia.
Qed.

Lemma isocalendar_spec (o : Z) :
  let '(y, w, wd) := isocalendar o in
  isoweek1monday y <= o < isoweek1monday (y + 1)
  /\ o = isoweek1monday y + 7 * (w - 1) + (wd - 1)
  /\ wd = weekday o + 1
  /\ 1 <= w <= 53.
Proof.
  unfold isocalendar. cbv zeta.
  pose proof (year_of_spec o) as HY.
  set (Y := year_of o) in *.
  pose proof (isoweek1monday_spec Y) as [M0 B0].
  pose proof (isoweek1monday_spec (Y - 1)) as [Mp Bp].
  pose proof (isoweek1monday_spec (Y + 1)) as [Mn Bn].
  pose proof (isoweek1monday_spec (Y + 2)) as [Mnn Bnn].
  pose proof (isoweek1monday_next Y) as N0.
  pose proof (isoweek1monday_next (Y - 1)) as Np.
  pose proof (isoweek1monday_next (Y + 1)) as Nn.
  pose proof (days_before_year_next (Y - 1)) as Dp.
  pose proof (days_before_year_next Y) as D0.
  replace (Y - 1 + 1) with Y in * by lia.
  replace (Y + 1 + 1) with (Y + 2) in * by lia.
  unfold weekday.
  destruct (_ <? 0) eqn:E1.
  - apply Z.ltb_lt in E1. cbv beta iota.
    replace (Y - 1 + 1) with Y by lia. Z.div_mod_to_equations. lia.
  - apply Z.ltb_ge in E1.
    destruct ((52 <=? _) && (_ <=? o)) eqn:E2; cbv beta iota.
    + apply andb_true_iff in E2 as [E2 E3].
      apply Z.leb_le in E2, E3.
      replace (Y + 1 + 1) with (Y + 2) by lia. Z.div_mod_to_equations. lia.
    + apply andb_false_iff in E2.
      rewrite Z.leb_gt, Z.leb_gt in E2. Z.div_mod_to_equations. lia.
Qed.

Lemma iso_week_monday (o : date) :
  let '(y, w, _) := isocalendar o in
  monday_of o = isoweek1monday y + 7 * (w - 1)
  /\ isoweek1monday y <= monday_of o < isoweek1monday (y + 1)
  /\ 1 <= w.
Proof.
  pose proof (isocalendar_spec o) as H.
  destruct (isocalendar o) as [[y w] wd].
  destruct H as (Hy & Ho & Hwd & Hw). unfold monday_of.
  assert (0 <= weekday o < 7) by (unfold weekday; apply Z.mod_pos_bound; lia).
  lia.
Qed.

Lemma same_iso_week (o1 o2 : date) :
  fst (iso_year_week o1) = fst (iso_year_week o2) <-> monday_of o1 = monday_of o2.
Proof.
  unfold iso_year_week.
  pose proof (iso_week_monday o1) as H1. pose proof (iso_week_monday o2) as H2.
  destruct (isocalendar o1) as [[y1 w1] wd1].
  destruct (isocalendar o2) as [[y2 w2] wd2]. cbn [fst].
  destruct H1 as (E1 & B1 & W1), H2 as (E2 & B2 & W2). split.
  - intros [= -> ->]. lia.
  - intros E. rewrite E in E1, B1.
    assert (y1 = y2) by (eapply iso_year_unique; eassumption).
    subst y2. f_equal. lia.
Qed.

Lemma week_key_of_fst (ds : list Day) (d : Z) :
  week_key_of ds d = fst (iso_year_week (day_date (day_at ds d))).
Proof.
  unfold week_key_of.
  now destruct (iso_year_week (day_date (day_at ds d))) as [[y w] wd].
Qed.

(** X23. A week group is a calendar week: two days of the horizon are in
    the same week group exactly when their dates have the same Monday, so a
    group holds the days of one Monday-to-Sunday week and no other day. *)
Theorem week_group_is_calendar_week (data : Data) (key : week_key)
        (idxs : list Z) (d1 d2 : Z) :
  In (key, idxs) (weeks data) -> In d1 idxs -> 0 <= d2 < n data ->
  (In d2 idxs <->
   monday_of (day_date (day_at (days data) d1))
   = monday_of (day_date (day_at (days data) d2))).
Proof.
  intros Hin H1 H2.
  destruct (weeks_spec data key idxs Hin) as [_ Hspec].
  apply Hspec in H1 as [_ K1].
  rewrite Hspec, <- same_iso_week, <- !week_key_of_fst, K1.
  split; [intros [_ E]; now symmetry | intros E; split; [exact H2 | now symmetry]].
Qed.

Lemma week_group_is_calendar_week_witness :
  weeks week_and_a_day = [((2024, 23), [0; 1]); ((2024, 24), [2])]
  /\ In 1 [0; 1]
  /\ monday_of 739040 = monday_of 739046.
Proof.
  assert (Hw : weeks week_and_a_day = [((2024, 23), [0; 1]); ((2024, 24), [2])])
    by (vm_compute; reflexivity).
  split; [exact Hw|].
  assert (Hin : In ((2024, 23), [0; 1]) (weeks week_and_a_day))
    by (rewrite Hw; now left).
  pose proof (week_group_is_calendar_week week_and_a_day (2024, 23) [0; 1] 0 1
                Hin ltac:(now left) ltac:(split; [discriminate | reflexivity]))
    as H.
  split; [now right; left | exact (proj1 H ltac:(now right; left))].
Defined.

(* ================================================================== *)
(** ** Errors of the day builder *)

(** X24. The errors of [build_days] on parsed dates: it raises
    [ValueError] exactly when the range ends before it starts and
    [OverflowError] exactly when a non-empty range ends on the last
    representable date (stepping past 9999-12-31); it raises nothing else,
    in particular no [IndexError] for a positional availability list that
    is shorter than the range. *)
Theorem build_days_errors (start_date end_date : date) (d_t d_l : availability)
        (include_weekend : bool) (e : error) :
  valid_date start_date -> valid_date end_date ->
  (build_days start_date end_date d_t d_l include_weekend = Raise e <->
   (end_date < start_date /\ e = ValueError)
   \/ (start_date <= end_date /\ end_date = MAXORDINAL /\ e = OverflowError)).
Proof.
  intros [Hs0 Hs1] [He0 He1]. unfold build_days. cbv zeta.
  destruct (Z.ltb_spec end_date start_date) as [Hlt|Hle].
  - split.
    + intros [= <-]. left. split; [exact Hlt | reflexivity].
    + intros [[_ ->]|[Hc _]]; [reflexivity | lia].
  - destruct (Z.eq_dec end_date MAXORDINAL) as [->|Hne].
    + rewrite (build_days_loop_overflow d_t d_l include_weekend
                 (Z.to_nat (MAXORDINAL + 1 - start_date))) by lia.
      split.
      * intros [= <-]. right. repeat split. exact Hle.
      * intros [[Hc _]|(_ & _ & ->)]; [lia | reflexivity].
    + rewrite (build_days_loop_spec end_date d_t d_l include_weekend
                 (Z.to_nat (end_date + 1 - start_date)))
        by (unfold MAXORDINAL in *; lia).
      split; [discriminate|].
      intros [[Hc _]|(_ & Hc & _)]; [lia | contradiction].
Qed.

Lemma build_days_errors_witness :
  valid_date 739041 /\ valid_date 739040
  /\ build_days 739041 739040 (AvSeq []) (AvSeq []) true = Raise ValueError.
Proof.
  assert (V1 : valid_date 739041) by (split; discriminate).
  assert (V2 : valid_date 739040) by (split; discriminate).
  split; [exact V1|]. split; [exact V2|].
  apply (proj2 (build_days_errors 739041 739040 (AvSeq []) (AvSeq []) true
                  ValueError V1 V2)).
  left. split; reflexivity.
Defined.
